(** * The S3 directory-listing generator (Lambda@Edge origin-request handler)

    A shallow embedding of
    [hacks/s3_art-srv-enterprise/lambda_art-srv-enterprise-s3-get-index-html-gen.py]
    and the properties its design document states about it.

    Conventions of the embedding.
    - A Python [str] is the list of its code points ([N]); [len] and
      [StringIO.tell] count code points, as they do in CPython.
    - A Python [int] is a [Z].
    - An exception is a value of [exn]; a call that may raise returns
      [exn + A] ([inl] raises, [inr] returns).
    - The generator [s3_list_dir] is the list of the events it performs when
      driven to its end (store calls and yields); its consumer walks that
      list and stops where the [for] loop stops, so the events after a
      [break] or a [raise] never happen.
    - What the interpreter and its libraries provide (the methods of
      datetime, urllib, [int], [str.lower]) is the interface [Runtime] over
      the type of timestamps; a reference instance is given for the
      examples. *)

From Stdlib Require Import ZArith NArith List String Ascii Bool Lia.
From Stdlib Require Import DecimalString.
Import ListNotations.
Local Open Scope Z_scope.

(** ** Python strings *)

Module Py.

Definition str := list N.

(** A literal of the source. *)
Definition lit (s : string) : str := map N_of_ascii (list_ascii_of_string s).

(** A literal of the source in which the backquote stands for the double
    quote character (the source has no backquote). *)
Definition tmpl (s : string) : str :=
  map (fun c => if N.eqb c 96 then 34%N else c) (lit s).

Fixpoint eqb (a b : str) : bool :=
  match a, b with
  | [], [] => true
  | x :: a', y :: b' => N.eqb x y && eqb a' b'
  | _, _ => false
  end.

(** [s.startswith(p)] *)
Fixpoint startswith (p s : str) : bool :=
  match p, s with
  | [], _ => true
  | x :: p', y :: s' => N.eqb x y && startswith p' s'
  | _ :: _, [] => false
  end.

(** [s.endswith(p)] *)
Definition endswith (p s : str) : bool := startswith (rev p) (rev s).

(** [sub in s] *)
Fixpoint contains (sub s : str) : bool :=
  startswith sub s ||
  match s with
  | [] => false
  | _ :: s' => contains sub s'
  end.

(** [s.lstrip(c)] for a one-character argument *)
Fixpoint lstrip (c : N) (s : str) : str :=
  match s with
  | x :: s' => if N.eqb x c then lstrip c s' else s
  | [] => []
  end.

(** [s.rstrip(c)] for a one-character argument *)
Definition rstrip (c : N) (s : str) : str := rev (lstrip c (rev s)).

(** [s.split(c)] for a one-character separator: the segments between
    the separators, never an empty list. *)
Fixpoint split (c : N) (s : str) : list str :=
  match s with
  | [] => [[]]
  | x :: s' =>
      if N.eqb x c then [] :: split c s'
      else match split c s' with
           | seg :: segs => (x :: seg) :: segs
           | [] => [[x]]
           end
  end.

(** [s.split(c, 1)]: at the first separator only. *)
Fixpoint split1 (c : N) (s : str) : list str :=
  match s with
  | [] => [[]]
  | x :: s' =>
      if N.eqb x c then [[]; s']
      else match split1 c s' with
           | seg :: segs => (x :: seg) :: segs
           | [] => [[x]]
           end
  end.

(** [s.rsplit(c, 1)[0]]: what precedes the last separator, the whole
    string when there is none. *)
Definition rsplit1_head (c : N) (s : str) : str :=
  match split1 c (rev s) with
  | [_; before] => rev before
  | _ => s
  end.

(** [sep.join(parts)] *)
Fixpoint join (sep : str) (parts : list str) : str :=
  match parts with
  | [] => []
  | [p] => p
  | p :: rest => p ++ sep ++ join sep rest
  end.

(** [s.replace(a, b)] for one-character arguments *)
Definition replace (a b : N) (s : str) : str :=
  map (fun c => if N.eqb c a then b else c) s.

(** [str(n)] for an [int] *)
Definition of_int (n : Z) : str := lit (NilZero.string_of_int (Z.to_int n)).

(** [len(s)] *)
Definition len (s : str) : Z := Z.of_nat (List.length s).

End Py.

Abbreviation str := Py.str.
Abbreviation lit := Py.lit.

Definition slash : N := 47.

(** ** Exceptions *)

Inductive exn : Type :=
| ValueError
| KeyError
| IndexError
| TypeError
| NameError
| AttributeError
| OverflowError
| ClientError (message : str).

(** ** Byte-size formatting *)

Inductive unit_suffix : Type :=
| Suffix (s : str)
| SingularPlural (singular multiple : str).

Definition UNITS_MAPPING : list (Z * unit_suffix) :=
  [ (1024 ^ 5, Suffix (lit " PB"));
    (1024 ^ 4, Suffix (lit " TB"));
    (1024 ^ 3, Suffix (lit " GB"));
    (1024 ^ 2, Suffix (lit " MB"));
    (1024 ^ 1, Suffix (lit " KB"));
    (1024 ^ 0, SingularPlural (lit " byte") (lit " bytes")) ].

(** The binary64 number nearest to the natural number [a], ties to even,
    before any bound on the exponent: [a] itself up to 53 significant
    bits, its 53 leading bits rounded otherwise. *)
Definition float_round (a : Z) : Z :=
  let n := Z.log2 a + 1 in
  if n <=? 53 then a
  else
    let s := n - 53 in
    let q := Z.shiftr a s in
    let r := Z.land a (Z.ones s) in
    let half := Z.shiftl 1 (s - 1) in
    let q' := if (half <? r) || ((r =? half) && Z.odd q) then q + 1 else q in
    Z.shiftl q' s.

(** [int(a / f)] for a divisor [f] that is a power of two, which every
    factor of [UNITS_MAPPING] is.  [/] is Python 3's true division: the
    quotient of two [int]s is the correctly rounded binary64 quotient.
    Dividing by a power of two only moves the exponent, so the quotient is
    the rounded dividend scaled; a quotient of 2^1024 or more raises
    OverflowError; [int] truncates towards zero. *)
Definition int_truediv (a f : Z) : exn + Z :=
  let m := float_round (Z.abs a) in
  if 2 ^ 1024 * f <=? m then inl OverflowError
  else inr (Z.sgn a * (m / f)).

(** The [for factor, suffix in units: if bytes >= factor: break] loop: the
    pair bound when the loop ends, [cur] being the pair bound so far. *)
Fixpoint select_unit (bytes : Z) (units : list (Z * unit_suffix))
    (cur : option (Z * unit_suffix)) : option (Z * unit_suffix) :=
  match units with
  | [] => cur
  | (factor, suffix) :: rest =>
      if factor <=? bytes then Some (factor, suffix)
      else select_unit bytes rest (Some (factor, suffix))
  end.

Definition pretty_size_with (bytes : Z) (units : list (Z * unit_suffix))
  : exn + str :=
  match select_unit bytes units None with
  | None => inl NameError
  | Some (factor, suffix) =>
      match int_truediv bytes factor with
      | inl e => inl e
      | inr amount =>
          let suffix :=
            match suffix with
            | SingularPlural singular multiple =>
                if amount =? 1 then singular else multiple
            | Suffix s => s
            end in
          inr (Py.of_int amount ++ suffix)
      end
  end.

Definition pretty_size (bytes : Z) : exn + str :=
  pretty_size_with bytes UNITS_MAPPING.

(** *** Properties of [pretty_size] *)

Lemma float_round_exact (a : Z) : 0 <= a < 2 ^ 53 -> float_round a = a.
Proof.
  intros [H0 H1]. unfold float_round.
  destruct (Z.eq_dec a 0) as [->|Hne]; [reflexivity|].
  assert (Z.log2 a < 53) by (apply Z.log2_lt_pow2; lia).
  destruct (Z.leb_spec (Z.log2 a + 1) 53); [reflexivity|lia].
Qed.

Lemma int_truediv_exact (a f : Z) :
  0 <= a < 2 ^ 53 -> 0 < f -> int_truediv a f = inr (a / f).
Proof.
  intros Ha Hf. unfold int_truediv.
  rewrite Z.abs_eq by lia. rewrite float_round_exact by exact Ha.
  assert (Hbig : 2 ^ 53 <= 2 ^ 1024 * f).
  { assert (2 ^ 53 <= 2 ^ 1024) by (apply Z.pow_le_mono_r; lia). nia. }
  destruct (Z.leb_spec (2 ^ 1024 * f) a); [lia|].
  f_equal. destruct (Z.eq_dec a 0) as [->|Hne].
  - rewrite Z.div_0_l by lia. reflexivity.
  - rewrite Z.sgn_pos by lia. lia.
Qed.

Ltac unit_tier :=
  unfold pretty_size, pretty_size_with, UNITS_MAPPING; cbn [select_unit];
  repeat match goal with
         | |- context [?x <=? ?b] =>
             destruct (Z.leb_spec x b); [try lia|try lia]
         end.

(** The tier of a byte count below 2^53 and the text produced in it. *)
Lemma pretty_size_tier (b : Z) :
  0 <= b < 2 ^ 53 ->
  (1024 ^ 5 <= b -> pretty_size b = inr (Py.of_int (b / 1024 ^ 5) ++ lit " PB")) /\
  (1024 ^ 4 <= b < 1024 ^ 5 ->
     pretty_size b = inr (Py.of_int (b / 1024 ^ 4) ++ lit " TB")) /\
  (1024 ^ 3 <= b < 1024 ^ 4 ->
     pretty_size b = inr (Py.of_int (b / 1024 ^ 3) ++ lit " GB")) /\
  (1024 ^ 2 <= b < 1024 ^ 3 ->
     pretty_size b = inr (Py.of_int (b / 1024 ^ 2) ++ lit " MB")) /\
  (1024 ^ 1 <= b < 1024 ^ 2 ->
     pretty_size b = inr (Py.of_int (b / 1024 ^ 1) ++ lit " KB")) /\
  (b < 1024 ^ 1 ->
     pretty_size b =
       inr (Py.of_int b ++ (if b =? 1 then lit " byte" else lit " bytes"))).
Proof.
  intros Hb.
  repeat split; intros Ht; unit_tier;
    rewrite int_truediv_exact by (first [exact Hb | lia]);
    try reflexivity.
  all: change (1024 ^ 0) with 1; rewrite Z.div_1_r; reflexivity.
Qed.

(** C6 (as amended): for every byte count 0 <= b < 2^53, [pretty_size b] is
    floor(b / unit) followed by the suffix of the largest unit among PB, TB,
    GB, MB, KB, byte(s) (1024^5 down to 1024^0) that b reaches, the one-byte
    tier also holding b = 0; "byte" is chosen over "bytes" only in the
    one-byte tier and only when the amount is 1; 1023 gives "1023 bytes",
    1024 and 1536 give "1 KB", 1 gives "1 byte". *)
Theorem pretty_size_unit_table (b : Z) :
  0 <= b < 2 ^ 53 ->
  (1024 ^ 5 <= b -> pretty_size b = inr (Py.of_int (b / 1024 ^ 5) ++ lit " PB")) /\
  (1024 ^ 4 <= b < 1024 ^ 5 ->
     pretty_size b = inr (Py.of_int (b / 1024 ^ 4) ++ lit " TB")) /\
  (1024 ^ 3 <= b < 1024 ^ 4 ->
     pretty_size b = inr (Py.of_int (b / 1024 ^ 3) ++ lit " GB")) /\
  (1024 ^ 2 <= b < 1024 ^ 3 ->
     pretty_size b = inr (Py.of_int (b / 1024 ^ 2) ++ lit " MB")) /\
  (1024 ^ 1 <= b < 1024 ^ 2 ->
     pretty_size b = inr (Py.of_int (b / 1024 ^ 1) ++ lit " KB")) /\
  (b < 1024 ^ 1 ->
     pretty_size b =
       inr (Py.of_int b ++ (if b =? 1 then lit " byte" else lit " bytes"))) /\
  pretty_size 1023 = inr (lit "1023 bytes") /\
  pretty_size 1024 = inr (lit "1 KB") /\
  pretty_size 1536 = inr (lit "1 KB") /\
  pretty_size 1 = inr (lit "1 byte").
Proof.
  intros Hb. pose proof (pretty_size_tier b Hb) as (H5 & H4 & H3 & H2 & H1 & H0).
  repeat split; try assumption; reflexivity.
Qed.

Lemma pretty_size_unit_table_witness :
  0 <= 2048 < 2 ^ 53
  /\ 1024 ^ 1 <= 2048 < 1024 ^ 2
  /\ pretty_size 2048 = inr (lit "2 KB").
Proof.
  assert (Hb : 0 <= 2048 < 2 ^ 53) by lia.
  assert (Ht : 1024 ^ 1 <= 2048 < 1024 ^ 2) by lia.
  split; [exact Hb|]. split; [exact Ht|].
  destruct (pretty_size_unit_table 2048 Hb) as (_ & _ & _ & _ & H & _).
  rewrite (H Ht). reflexivity.
Defined.

(** C6 as stated, for every non-negative byte count, fails: 2^54 - 1 bytes
    are 15 PB and a remainder, and the quotient computed in binary64 rounds
    up to 16. *)
Lemma pretty_size_rounds_up :
  0 <= 2 ^ 54 - 1 /\
  1024 ^ 5 <= 2 ^ 54 - 1 /\
  (2 ^ 54 - 1) / 1024 ^ 5 = 15 /\
  pretty_size (2 ^ 54 - 1) = inr (lit "16 PB") /\
  pretty_size (2 ^ 54 - 1) <> inr (Py.of_int ((2 ^ 54 - 1) / 1024 ^ 5) ++ lit " PB").
Proof.
  repeat split; try (vm_compute; congruence).
Qed.

(** ** pathlib and os.path (POSIX flavour) *)

Module Pathlib.

(** A [PurePosixPath]: its root ("", "/" or "//") and the components
    after the root. *)
Record PurePath : Type := { root : str; parts : list str }.

Definition splitroot (part : str) : str * str :=
  match part with
  | c :: _ =>
      if N.eqb c slash then
        let stripped := Py.lstrip slash part in
        if Nat.eqb (List.length part - List.length stripped) 2
        then ([slash; slash], stripped)
        else ([slash], stripped)
      else ([], part)
  | [] => ([], [])
  end.

(** [Path(s)]: empty components and "." components are dropped, ".."
    components are kept. *)
Definition Path (s : str) : PurePath :=
  let (root, rel) := splitroot s in
  {| root := root;
     parts := filter (fun x => negb (Py.eqb x []) && negb (Py.eqb x (lit ".")))
                     (Py.split slash rel) |}.

(** [str(p)] *)
Definition to_str (p : PurePath) : str :=
  match root p ++ Py.join [slash] (parts p) with
  | [] => lit "."
  | s => s
  end.

(** [p.name] *)
Definition name (p : PurePath) : str := last (parts p) [].

End Pathlib.

Example path_examples :
  Pathlib.to_str (Pathlib.Path (lit "/a/b")) = lit "/a/b"
  /\ Pathlib.to_str (Pathlib.Path (lit "//a/./b//")) = lit "//a/b"
  /\ Pathlib.to_str (Pathlib.Path (lit "///a/../b")) = lit "/a/../b"
  /\ Pathlib.to_str (Pathlib.Path []) = lit "."
  /\ Pathlib.name (Pathlib.Path (lit "a/b/c.txt")) = lit "c.txt"
  /\ Pathlib.name (Pathlib.Path (lit "a/b/")) = lit "b"
  /\ Pathlib.name (Pathlib.Path (lit "/")) = [].
Proof. repeat split. Qed.

(** [os.path.join(a, b)] of posixpath, for two arguments *)
Definition os_path_join (a b : str) : str :=
  if Py.startswith [slash] b then b
  else if Py.eqb a [] || Py.endswith [slash] a then a ++ b
  else a ++ [slash] ++ b.

(** [os.name] where the function is deployed *)
Definition os_name : str := lit "posix".

(** ** What the interpreter and its libraries provide *)

Class Runtime (datetime : Type) : Type := {
  (** [d.replace(microsecond=0)] *)
  replace_microsecond_0 : datetime -> datetime;
  (** [d.isoformat()] *)
  isoformat : datetime -> str;
  (** [d.strftime("%c")] *)
  strftime_c : datetime -> str;
  (** [urllib.parse.quote(s)] *)
  quote : str -> str;
  (** [urllib.parse.unquote(s)] *)
  unquote : str -> str;
  (** [urllib.parse.parse_qs(s)]: the dict in insertion order *)
  parse_qs : str -> list (str * list str);
  (** [int(s)]: [None] when it raises ValueError *)
  int : str -> option Z;
  (** [s.lower()] *)
  lower : str -> str
}.

(** [d[key]] / [key in d] on a dict kept as an association list *)
Fixpoint dict_get {V : Type} (key : str) (d : list (str * V)) : option V :=
  match d with
  | [] => None
  | (k, v) :: d' => if Py.eqb k key then Some v else dict_get key d'
  end.

(** ** A reference runtime

    urllib follows CPython 3.10 ([parse_qs] splits fields at [&] only);
    [int] reads ASCII text, with the default limit of 4300 digits, and
    rejects every other text, the digits and spaces beyond ASCII that
    Python reads included; [lower] is exact on ASCII text; a timestamp is
    carried by the two texts it prints as. *)

Module Reference.

Definition is_alnum (c : N) : bool :=
  ((48 <=? c) && (c <=? 57) || (65 <=? c) && (c <=? 90)
   || (97 <=? c) && (c <=? 122))%N.

Definition hex_digit (d : N) : N := (if d <? 10 then 48 + d else 55 + d)%N.

(** The UTF-8 bytes of a code point.  Keys and URIs reach the function
    decoded from UTF-8, so they hold no surrogate, for which [str.encode]
    would raise. *)
Definition utf8_encode (c : N) : list N :=
  (if c <? 128 then [c]
   else if c <? 2048 then [192 + c / 64; 128 + c mod 64]
   else if c <? 65536 then
     [224 + c / 4096; 128 + (c / 64) mod 64; 128 + c mod 64]
   else [240 + c / 262144; 128 + (c / 4096) mod 64;
         128 + (c / 64) mod 64; 128 + c mod 64])%N.

(** Bytes left as they are by [quote]: letters, digits, [_.-~] and the
    default [safe='/']. *)
Definition quote_safe (b : N) : bool :=
  is_alnum b || existsb (N.eqb b) [95; 46; 45; 126; 47]%N.

Definition quote_byte (b : N) : str :=
  if quote_safe b then [b]
  else [37%N; hex_digit (b / 16); hex_digit (b mod 16)].

Definition quote (s : str) : str :=
  flat_map quote_byte (flat_map utf8_encode s).

Definition hex_value (c : N) : option N :=
  (if (48 <=? c) && (c <=? 57) then Some (c - 48)
   else if (65 <=? c) && (c <=? 70) then Some (c - 55)
   else if (97 <=? c) && (c <=? 102) then Some (c - 87)
   else None)%N.

Fixpoint unquote_to_bytes (s : list N) : list N :=
  match s with
  | [] => []
  | c :: rest =>
      if N.eqb c 37 then
        match rest with
        | h1 :: h2 :: rest' =>
            match hex_value h1, hex_value h2 with
            | Some a, Some b => (16 * a + b)%N :: unquote_to_bytes rest'
            | _, _ => c :: unquote_to_bytes rest
            end
        | _ => c :: unquote_to_bytes rest
        end
      else c :: unquote_to_bytes rest
  end.

Definition continuation (b : N) : bool := ((128 <=? b) && (b <=? 191))%N.

(** The range of the second byte after the lead byte [b0] of a three- or
    four-byte sequence. *)
Definition second_ok (b0 b1 : N) : bool :=
  (if b0 =? 224 then (160 <=? b1) && (b1 <=? 191)
   else if b0 =? 237 then (128 <=? b1) && (b1 <=? 159)
   else if b0 =? 240 then (144 <=? b1) && (b1 <=? 191)
   else if b0 =? 244 then (128 <=? b1) && (b1 <=? 143)
   else continuation b1)%N.

Definition replacement : N := 65533.

(** [bytes.decode('utf-8', 'replace')]: each maximal ill-formed part
    becomes U+FFFD. *)
Fixpoint utf8_decode (bs : list N) : list N :=
  match bs with
  | [] => []
  | b0 :: r =>
      if (b0 <? 128)%N then b0 :: utf8_decode r
      else if ((194 <=? b0) && (b0 <=? 223))%N then
        match r with
        | [] => [replacement]
        | b1 :: r1 =>
            if continuation b1
            then ((b0 - 192) * 64 + (b1 - 128))%N :: utf8_decode r1
            else replacement :: utf8_decode r
        end
      else if ((224 <=? b0) && (b0 <=? 239))%N then
        match r with
        | [] => [replacement]
        | b1 :: r1 =>
            if second_ok b0 b1 then
              match r1 with
              | [] => [replacement]
              | b2 :: r2 =>
                  if continuation b2
                  then ((b0 - 224) * 4096 + (b1 - 128) * 64 + (b2 - 128))%N
                       :: utf8_decode r2
                  else replacement :: utf8_decode r1
              end
            else replacement :: utf8_decode r
        end
      else if ((240 <=? b0) && (b0 <=? 244))%N then
        match r with
        | [] => [replacement]
        | b1 :: r1 =>
            if second_ok b0 b1 then
              match r1 with
              | [] => [replacement]
              | b2 :: r2 =>
                  if continuation b2 then
                    match r2 with
                    | [] => [replacement]
                    | b3 :: r3 =>
                        if continuation b3
                        then ((b0 - 240) * 262144 + (b1 - 128) * 4096
                              + (b2 - 128) * 64 + (b3 - 128))%N
                             :: utf8_decode r3
                        else replacement :: utf8_decode r2
                    end
                  else replacement :: utf8_decode r1
              end
            else replacement :: utf8_decode r
        end
      else replacement :: utf8_decode r
  end.

(** [unquote]: the escapes of each run of ASCII characters are decoded
    together; [run] is the current run, reversed. *)
Fixpoint unquote_runs (s : str) (run : list N) : str :=
  match s with
  | [] => utf8_decode (unquote_to_bytes (rev run))
  | c :: s' =>
      if (c <? 128)%N then unquote_runs s' (c :: run)
      else utf8_decode (unquote_to_bytes (rev run)) ++ c :: unquote_runs s' []
  end.

Definition unquote (s : str) : str := unquote_runs s [].

(** [parse_qsl] with its defaults: blank values are dropped. *)
Definition parse_qsl (qs : str) : list (str * str) :=
  flat_map
    (fun name_value =>
       match Py.split1 61 name_value with
       | [n; v] =>
           match v with
           | [] => []
           | _ => [(unquote (Py.replace 43 32 n), unquote (Py.replace 43 32 v))]
           end
       | _ => []
       end)
    (Py.split 38 qs).

Fixpoint dict_append (name value : str) (d : list (str * list str))
  : list (str * list str) :=
  match d with
  | [] => [(name, [value])]
  | (k, vs) :: d' =>
      if Py.eqb k name then (k, vs ++ [value]) :: d'
      else (k, vs) :: dict_append name value d'
  end.

Definition parse_qs (qs : str) : list (str * list str) :=
  fold_left (fun d nv => dict_append (fst nv) (snd nv) d) (parse_qsl qs) [].

(** The ASCII white space of [int]: U+0009 to U+000D, the separators
    U+001C to U+001F, and the space. *)
Definition is_space (c : N) : bool :=
  ((9 <=? c) && (c <=? 13) || (28 <=? c) && (c <=? 31) || (c =? 32))%N.

Definition is_digit (c : N) : bool := ((48 <=? c) && (c <=? 57))%N.

(** The digits of a base-10 literal: single underscores between digits,
    white space after the last digit.  [prev] tells what came before:
    0 nothing, 1 a digit, 2 an underscore. *)
Fixpoint int_digits (s : str) (acc : Z) (prev : nat) : option Z :=
  match s with
  | [] => if Nat.eqb prev 1 then Some acc else None
  | c :: s' =>
      if is_digit c then int_digits s' (10 * acc + Z.of_N (c - 48)) 1
      else if N.eqb c 95 then
        if Nat.eqb prev 1 then int_digits s' acc 2 else None
      else if is_space c && Nat.eqb prev 1 && forallb is_space s'
      then Some acc
      else None
  end.

Fixpoint skip_spaces (s : str) : str :=
  match s with
  | c :: s' => if is_space c then skip_spaces s' else s
  | [] => []
  end.

(** [sys.get_int_max_str_digits()] as the interpreter starts *)
Definition int_max_str_digits : Z := 4300.

(** [int(s)]: a text with more digits than the limit raises ValueError
    as a text that is no literal does. *)
Definition int (s : str) : option Z :=
  if int_max_str_digits <? Z.of_nat (List.length (filter is_digit s))
  then None
  else
    match skip_spaces s with
    | c :: s' =>
        if N.eqb c 45 then option_map Z.opp (int_digits s' 0 0)
        else if N.eqb c 43 then int_digits s' 0 0
        else int_digits (c :: s') 0 0
    | [] => None
    end.

(** [lower]: ASCII letters, and the two other code points whose lower
    case holds an ASCII letter (U+0130, U+212A); every other code point
    lower-cases to non-ASCII text and is left as it is. *)
Definition lower_char (c : N) : str :=
  (if (65 <=? c) && (c <=? 90) then [c + 32]
   else if c =? 304 then [105; 775]
   else if c =? 8490 then [107]
   else [c])%N.

Definition lower (s : str) : str := flat_map lower_char s.

Record printed_datetime : Type := { iso_text : str; ctime_text : str }.

#[export] Instance runtime : Runtime printed_datetime :=
  Build_Runtime printed_datetime (fun d => d) iso_text ctime_text
                quote unquote parse_qs int lower.

Example unquote_examples :
  unquote (lit "/foo/%2e%2e/bar") = lit "/foo/../bar"
  /\ unquote (lit "a%2Bb%zz%4") = lit "a+b%zz%4"
  /\ unquote (lit "%C3%A9%E2%82") = [233; 65533]%N.
Proof. repeat split. Qed.

Example quote_examples :
  quote (lit "a b/c~") = lit "a%20b/c~" /\ quote [233%N] = lit "%C3%A9".
Proof. repeat split. Qed.

Example parse_qs_examples :
  parse_qs (lit "entry=12&x=1&entry=abc&y=&z")
    = [(lit "entry", [lit "12"; lit "abc"]); (lit "x", [lit "1"])]
  /\ parse_qs (lit "entry=") = [].
Proof. repeat split. Qed.

Example int_examples :
  int (lit " -1_2 ") = Some (-12) /\ int (lit "007") = Some 7
  /\ int (lit "abc") = None /\ int (lit "1__2") = None
  /\ int (lit "12_") = None /\ int (lit "") = None /\ int (lit "1.5") = None.
Proof. repeat split. Qed.

(** The limit on digits counts the zeros at the front; the separators
    U+001C to U+001F are white space. *)
Example int_limit_examples :
  int (repeat 48%N 4301) = None
  /\ int (repeat 48%N 4300) = Some 0
  /\ int (28%N :: lit "5") = Some 5.
Proof. repeat split; vm_compute; reflexivity. Qed.

End Reference.

(** ** Requests and responses *)

Definition DEFAULT_OUTPUT_FILE : str := lit "index.html".

(** The CloudFront request of the event: [uri] and [querystring] are
    read with a default, [headers] is read, [other] stands for the fields
    the handler never reads (method, clientIp, origin, body, ...). *)
Record cf_request {Headers Other : Type} : Type := {
  headers : Headers;
  uri : option str;
  querystring : option str;
  other : Other
}.
Arguments cf_request : clear implicits.

Record header_value : Type := { key : str; value : str }.

Record cf_response : Type := {
  status : str;
  statusDescription : str;
  response_headers : list (str * list header_value);
  body : str
}.

(** What an invocation ends with: the request handed back, a response,
    or an uncaught exception. *)
Inductive outcome {Headers Other : Type} : Type :=
| ReturnRequest (request : cf_request Headers Other)
| ReturnResponse (response : cf_response)
| Raises (e : exn).
Arguments outcome : clear implicits.

(** ** The object store *)

Section Listing.

Context {datetime : Type} {RT : Runtime datetime}.

(** One record of a listing page, a dict: a common prefix carries
    [Prefix], an object carries [Key], [LastModified] and [Size]. *)
Record s3_entry : Type := {
  Prefix : option str;
  Key : option str;
  LastModified : option datetime;
  Size : option Z
}.

Record s3_page : Type := {
  CommonPrefixes : list s3_entry;
  Contents : list s3_entry
}.

(** What [list_objects_v2] answers: it raises, or it returns a page.  A
    page with [IsTruncated] true carries a continuation token, and with it
    the store's answer to the call that passes this token. *)
Inductive s3_reply : Type :=
| Raised (e : exn)
| LastPage (page : s3_page)
| TruncatedPage (page : s3_page) (next : s3_reply).

(** The arguments of one [list_objects_v2] call; the continuation token
    is named by the number of the page that returned it. *)
Record s3_call : Type := {
  arg_Bucket : str;
  arg_Prefix : str;
  arg_Delimiter : str;
  arg_ContinuationToken : option nat
}.

(** The client: the answer to the first call for a bucket, a prefix and
    a delimiter. *)
Record s3_client : Type := {
  list_objects_v2 : str -> str -> str -> s3_reply
}.

(** *** S3Path *)

Record S3Path : Type := {
  _is_dir : bool;
  _is_symlink : bool;
  _last_modified : option datetime;
  _size : Z;
  _absolute : str;
  name : str
}.

(** [S3Path(is_dir, s3_entry)]; a missing ['Prefix'] or ['Key'] raises
    KeyError. *)
Definition S3Path_init (is_dir : bool) (s3_entry : s3_entry) : exn + S3Path :=
  let last_modified := LastModified s3_entry in
  let size := match Size s3_entry with Some n => n | None => 0 end in
  let absolute :=
    if is_dir then option_map (Py.lstrip slash) (Prefix s3_entry)
    else Key s3_entry in
  match absolute with
  | None => inl KeyError
  | Some absolute =>
      inr {| _is_dir := is_dir;
             _is_symlink := false;
             _last_modified := last_modified;
             _size := size;
             _absolute := absolute;
             name := Pathlib.name (Pathlib.Path absolute) |}
  end.

Definition is_dir (p : S3Path) : bool := _is_dir p.
Definition is_file (p : S3Path) : bool := negb (is_dir p).
Definition size (p : S3Path) : Z := _size p.
Definition last_modified (p : S3Path) : option datetime := _last_modified p.
Definition is_symlink (p : S3Path) : bool := false.
Definition absolute (p : S3Path) : str := _absolute p.

(** *** The generator s3_list_dir *)

(** What the generator does, in order: a store call with how it ended,
    or a yield of an entry or, from the [except] clause, of the exception
    caught. *)
Inductive gen_event : Type :=
| Call (args : s3_call) (raised : option exn)
| Yield (v : exn + S3Path).

(** [for entry in s3_result.get('CommonPrefixes', [])]: the yields, and
    the exception that ended the loop if one did. *)
Fixpoint yield_common_prefixes (entries : list s3_entry)
  : list gen_event * option exn :=
  match entries with
  | [] => ([], None)
  | entry :: rest =>
      match S3Path_init true entry with
      | inl e => ([], Some e)
      | inr p =>
          let (evs, x) := yield_common_prefixes rest in
          (Yield (inr p) :: evs, x)
      end
  end.

(** [for entry in s3_result.get('Contents', [])] *)
Fixpoint yield_contents (prefix : str) (entries : list s3_entry)
  : list gen_event * option exn :=
  match entries with
  | [] => ([], None)
  | entry :: rest =>
      match Key entry with
      | None => ([], Some KeyError)
      | Some key =>
          if Py.eqb key prefix then yield_contents prefix rest
          else
            match S3Path_init false entry with
            | inl e => ([], Some e)
            | inr p =>
                let (evs, x) := yield_contents prefix rest in
                (Yield (inr p) :: evs, x)
            end
      end
  end.

(** The events of one page, followed by [more] when the page is gone
    through without an exception. *)
Definition page_events (prefix : str) (page : s3_page)
    (more : list gen_event) : list gen_event :=
  let (dirs, x) := yield_common_prefixes (CommonPrefixes page) in
  match x with
  | Some e => dirs ++ [Yield (inl e)]
  | None =>
      let (files, y) := yield_contents prefix (Contents page) in
      match y with
      | Some e => dirs ++ files ++ [Yield (inl e)]
      | None => dirs ++ files ++ more
      end
  end.

(** The [while not s3_result or s3_result['IsTruncated']] loop, from the
    call number [page_no] on, [reply] being the answer to that call. *)
Fixpoint s3_pages (bucket_name prefix : str) (page_no : nat)
    (reply : s3_reply) : list gen_event :=
  let args := {| arg_Bucket := bucket_name;
                 arg_Prefix := prefix;
                 arg_Delimiter := [slash];
                 arg_ContinuationToken :=
                   match page_no with O => None | S n => Some n end |} in
  match reply with
  | Raised e => [Call args (Some e); Yield (inl e)]
  | LastPage page => Call args None :: page_events prefix page []
  | TruncatedPage page next =>
      Call args None
        :: page_events prefix page (s3_pages bucket_name prefix (S page_no) next)
  end.

Definition s3_list_dir (s3_conn : s3_client) (bucket_name dir_path : str)
  : list gen_event :=
  let dir_path := Py.lstrip slash dir_path in
  let prefix :=
    if negb (existsb (Py.eqb dir_path) [[]; lit "."; [slash]])
    then Py.rstrip slash dir_path ++ [slash]
    else [] in
  s3_pages bucket_name prefix 0 (list_objects_v2 s3_conn bucket_name prefix [slash]).

(** ** The renderer process_dir *)

Definition body_top_head : str := Py.tmpl
"<!DOCTYPE html>
<html>
<head>
    <meta charset=`utf-8`>
    <meta name=`viewport` content=`width=device-width, initial-scale=1.0`>
    <style>
    * { padding: 0; margin: 0; }

    body {
        font-family: sans-serif;
        text-rendering: optimizespeed;
        background-color: #ffffff;
    }

    a {
        color: #006ed3;
        text-decoration: none;
    }

    a:hover,
    h1 a:hover {
        color: #319cff;
    }

    header,
    #summary {
        padding-left: 5%;
        padding-right: 5%;
    }

    th:first-child,
    td:first-child {
        width: 5%;
    }

    th:last-child,
    td:last-child {
        width: 5%;
    }

    header {
        padding-top: 25px;
        padding-bottom: 15px;
        background-color: #f2f2f2;
    }

    h1 {
        font-size: 20px;
        font-weight: normal;
        white-space: nowrap;
        overflow-x: hidden;
        text-overflow: ellipsis;
        color: #999;
    }

    h1 a {
        color: #000;
        margin: 0 4px;
    }

    h1 a:hover {
        text-decoration: underline;
    }

    h1 a:first-child {
        margin: 0;
    }

    main {
        display: block;
    }

    .meta {
        font-size: 12px;
        font-family: Verdana, sans-serif;
        border-bottom: 1px solid #9C9C9C;
        padding-top: 10px;
        padding-bottom: 10px;
    }

    .meta-item {
        margin-right: 1em;
    }

    #filter {
        padding: 4px;
        border: 1px solid #CCC;
    }

    table {
        width: 100%;
        border-collapse: collapse;
    }

    tr {
        border-bottom: 1px dashed #dadada;
    }

    tbody tr:hover {
        background-color: #ffffec;
    }

    th,
    td {
        text-align: left;
        padding: 10px 0;
    }

    th {
        padding-top: 15px;
        padding-bottom: 15px;
        font-size: 16px;
        white-space: nowrap;
    }

    th a {
        color: black;
    }

    th svg {
        vertical-align: middle;
    }

    td {
        white-space: nowrap;
        font-size: 14px;
    }

    td:nth-child(2) {
        width: 80%;
    }

    td:nth-child(3) {
        padding: 0 20px 0 20px;
    }

    th:nth-child(4),
    td:nth-child(4) {
        text-align: right;
    }

    td:nth-child(2) svg {
        position: absolute;
    }

    td .name {
        margin-left: 1.75em;
        word-break: break-all;
        overflow-wrap: break-word;
        white-space: pre-wrap;
    }

    td .goup {
        margin-left: 1.75em;
        padding: 0;
        word-break: break-all;
        overflow-wrap: break-word;
        white-space: pre-wrap;
    }

    .icon {
        margin-right: 5px;
    }

    tr.clickable { 
        cursor: pointer; 
    } 
    tr.clickable a { 
        display: block; 
    } 

    @media (max-width: 600px) {

        * {
            font-size: 1.06rem;
        }
        .hideable {
            display: none;
        }

        td:nth-child(2) {
            width: auto;
        }

        th:nth-child(3),
        td:nth-child(3) {
            padding-right: 5%;
            text-align: right;
        }

        h1 {
            color: #000;
        }

        h1 a {
            margin: 0;
        }

        #filter {
            max-width: 100px;
        }
    }
    </style>
</head>
<body>
    <svg version=`1.1` xmlns=`http://www.w3.org/2000/svg` xmlns:xlink=`http://www.w3.org/1999/xlink` height=`0` width=`0` style=`position: absolute;`>
    <defs>
        <!-- Go-up -->
        <g id=`go-up`>
            <path d=`M10,9V5L3,12L10,19V14.9C15,14.9 18.5,16.5 21,20C20,15 17,10 10,9Z` fill=`#696969`/>
        </g>

        <!-- Folder -->
        <g id=`folder` fill-rule=`nonzero` fill=`none`>
            <path d=`M285.22 37.55h-142.6L110.9 0H31.7C14.25 0 0 16.9 0 37.55v75.1h316.92V75.1c0-20.65-14.26-37.55-31.7-37.55z` fill=`#FFA000`/>
            <path d=`M285.22 36H31.7C14.25 36 0 50.28 0 67.74v158.7c0 17.47 14.26 31.75 31.7 31.75H285.2c17.44 0 31.7-14.3 31.7-31.75V67.75c0-17.47-14.26-31.75-31.7-31.75z` fill=`#FFCA28`/>
        </g>
        <g id=`folder-shortcut` stroke=`none` stroke-width=`1` fill=`none` fill-rule=`evenodd`>
            <g id=`folder-shortcut-group` fill-rule=`nonzero`>
                <g id=`folder-shortcut-shape`>
                    <path d=`M285.224876,37.5486902 L142.612438,37.5486902 L110.920785,0 L31.6916529,0 C14.2612438,0 0,16.8969106 0,37.5486902 L0,112.646071 L316.916529,112.646071 L316.916529,75.0973805 C316.916529,54.4456008 302.655285,37.5486902 285.224876,37.5486902 Z` id=`Shape` fill=`#FFA000`></path>
                    <path d=`M285.224876,36 L31.6916529,36 C14.2612438,36 0,50.2838568 0,67.7419039 L0,226.451424 C0,243.909471 14.2612438,258.193328 31.6916529,258.193328 L285.224876,258.193328 C302.655285,258.193328 316.916529,243.909471 316.916529,226.451424 L316.916529,67.7419039 C316.916529,50.2838568 302.655285,36 285.224876,36 Z` id=`Shape` fill=`#FFCA28`></path>
                </g>
                <path d=`M126.154134,250.559184 C126.850974,251.883673 127.300549,253.006122 127.772602,254.106122 C128.469442,255.206122 128.919016,256.104082 129.638335,257.002041 C130.559962,258.326531 131.728855,259 133.100057,259 C134.493737,259 135.415364,258.55102 136.112204,257.67551 C136.809044,257.002041 137.258619,255.902041 137.258619,254.577551 C137.258619,253.904082 137.258619,252.804082 137.033832,251.457143 C136.786566,249.908163 136.561779,249.032653 136.561779,248.583673 C136.089726,242.814286 135.864939,237.920408 135.864939,233.273469 C135.864939,225.057143 136.786566,217.514286 138.180246,210.846939 C139.798713,204.202041 141.889234,198.634694 144.429328,193.763265 C147.216689,188.869388 150.678411,184.873469 154.836973,181.326531 C158.995535,177.779592 163.626149,174.883673 168.481552,172.661224 C173.336954,170.438776 179.113983,168.665306 185.587852,167.340816 C192.061722,166.218367 198.760378,165.342857 205.481514,164.669388 C212.18017,164.220408 219.598146,163.995918 228.162535,163.995918 L246.055591,163.995918 L246.055591,195.514286 C246.055591,197.736735 246.752431,199.510204 248.370899,201.059184 C250.214153,202.608163 252.079886,203.506122 254.372715,203.506122 C256.463236,203.506122 258.531277,202.608163 260.172223,201.059184 L326.102289,137.797959 C327.720757,136.24898 328.642384,134.47551 328.642384,132.253061 C328.642384,130.030612 327.720757,128.257143 326.102289,126.708163 L260.172223,63.4469388 C258.553756,61.8979592 256.463236,61 254.395194,61 C252.079886,61 250.236632,61.8979592 248.393377,63.4469388 C246.77491,64.9959184 246.07807,66.7693878 246.07807,68.9918367 L246.07807,100.510204 L228.162535,100.510204 C166.863084,100.510204 129.166282,117.167347 115.274437,150.459184 C110.666301,161.54898 108.350993,175.310204 108.350993,191.742857 C108.350993,205.279592 113.903236,223.912245 124.760454,247.438776 C125.00772,248.112245 125.457294,249.010204 126.154134,250.559184 Z` id=`Shape` fill=`#FFFFFF` transform=`translate(218.496689, 160.000000) scale(-1, 1) translate(-218.496689, -160.000000) `></path>
            </g>
        </g>

        <!-- File -->
        <g id=`file` stroke=`#000` stroke-width=`25` fill=`#FFF` fill-rule=`evenodd` stroke-linecap=`round` stroke-linejoin=`round`>
            <path d=`M13 24.12v274.76c0 6.16 5.87 11.12 13.17 11.12H239c7.3 0 13.17-4.96 13.17-11.12V136.15S132.6 13 128.37 13H26.17C18.87 13 13 17.96 13 24.12z`/>
            <path d=`M129.37 13L129 113.9c0 10.58 7.26 19.1 16.27 19.1H249L129.37 13z`/>
        </g>
        <g id=`file-shortcut` stroke=`none` stroke-width=`1` fill=`none` fill-rule=`evenodd`>
            <g id=`file-shortcut-group` transform=`translate(13.000000, 13.000000)`>
                <g id=`file-shortcut-shape` stroke=`#000000` stroke-width=`25` fill=`#FFFFFF` stroke-linecap=`round` stroke-linejoin=`round`>
                    <path d=`M0,11.1214886 L0,285.878477 C0,292.039924 5.87498876,296.999983 13.1728373,296.999983 L225.997983,296.999983 C233.295974,296.999983 239.17082,292.039942 239.17082,285.878477 L239.17082,123.145388 C239.17082,123.145388 119.58541,2.84217094e-14 115.369423,2.84217094e-14 L13.1728576,2.84217094e-14 C5.87500907,-1.71479982e-05 0,4.96022995 0,11.1214886 Z` id=`rect1171`></path>
                    <path d=`M116.37005,0 L116,100.904964 C116,111.483663 123.258008,120 132.273377,120 L236,120 L116.37005,0 L116.37005,0 Z` id=`rect1794`></path>
                </g>
                <path d=`M47.803141,294.093878 C48.4999811,295.177551 48.9495553,296.095918 49.4216083,296.995918 C50.1184484,297.895918 50.5680227,298.630612 51.2873415,299.365306 C52.2089688,300.44898 53.3778619,301 54.7490634,301 C56.1427436,301 57.0643709,300.632653 57.761211,299.916327 C58.4580511,299.365306 58.9076254,298.465306 58.9076254,297.381633 C58.9076254,296.830612 58.9076254,295.930612 58.6828382,294.828571 C58.4355724,293.561224 58.2107852,292.844898 58.2107852,292.477551 C57.7387323,287.757143 57.5139451,283.753061 57.5139451,279.95102 C57.5139451,273.228571 58.4355724,267.057143 59.8292526,261.602041 C61.44772,256.165306 63.5382403,251.610204 66.0783349,247.62449 C68.8656954,243.620408 72.3274172,240.35102 76.4859792,237.44898 C80.6445412,234.546939 85.2751561,232.177551 90.1305582,230.359184 C94.9859603,228.540816 100.76299,227.089796 107.236859,226.006122 C113.710728,225.087755 120.409385,224.371429 127.13052,223.820408 C133.829177,223.453061 141.247152,223.269388 149.811542,223.269388 L167.704598,223.269388 L167.704598,249.057143 C167.704598,250.87551 168.401438,252.326531 170.019905,253.593878 C171.86316,254.861224 173.728893,255.595918 176.021722,255.595918 C178.112242,255.595918 180.180284,254.861224 181.82123,253.593878 L247.751296,201.834694 C249.369763,200.567347 250.291391,199.116327 250.291391,197.297959 C250.291391,195.479592 249.369763,194.028571 247.751296,192.761224 L181.82123,141.002041 C180.202763,139.734694 178.112242,139 176.044201,139 C173.728893,139 171.885639,139.734694 170.042384,141.002041 C168.423917,142.269388 167.727077,143.720408 167.727077,145.538776 L167.727077,171.326531 L149.811542,171.326531 C88.5120908,171.326531 50.8152886,184.955102 36.9234437,212.193878 C32.3153075,221.267347 30,232.526531 30,245.971429 C30,257.046939 35.5522422,272.291837 46.4094607,291.540816 C46.6567266,292.091837 47.1063009,292.826531 47.803141,294.093878 Z` id=`Shape-Copy` fill=`#000000` fill-rule=`nonzero` transform=`translate(140.145695, 220.000000) scale(-1, 1) translate(-140.145695, -220.000000) `></path>
            </g>
        </g>
    </defs>
    </svg>
<header>
    <h1>".

Definition body_top_tail : str := Py.tmpl
"</h1>
             </header>
                 <main>
                 <div class=`listing`>
                     <table aria-describedby=`summary`>
                         <thead>
                         <tr>
                             <th></th>
                             <th>Name</th>
                             <th>Size</th>
                             <th class=`hideable`>
                                 Modified
                             </th>
                             <th class=`hideable`></th>
                         </tr>
                         </thead>
                         <tbody>
                         <tr class=`clickable`>
                             <td></td>
                             <td><a href=`..`><svg width=`1.5em` height=`1em` version=`1.1` viewBox=`0 0 24 24`><use xlink:href=`#go-up`></use></svg>
                 <span class=`goup`>..</span></a></td>
                             <td>&mdash;</td>
                             <td class=`hideable`>&mdash;</td>
                             <td class=`hideable`></td>
                         </tr>
    ".

Definition row_1 : str := Py.tmpl "
        <tr class=`file`>
            <td></td>
            <td>
                <a href=`".
Definition row_2 : str := Py.tmpl "`>
                    <svg width=`1.5em` height=`1em` version=`1.1` viewBox=`0 0 265 323`><use xlink:href=`#".
Definition row_3 : str := Py.tmpl "`></use></svg>
                    <span class=`name`>".
Definition row_4 : str := Py.tmpl "</span>
                </a>
            </td>
            <td data-order=`".
Definition row_5 : str := Py.tmpl "`>".
Definition row_6 : str := Py.tmpl "</td>
            <td class=`hideable`><time datetime=`".
Definition row_7 : str := Py.tmpl "`>".
Definition row_8 : str := Py.tmpl "</time></td>
            <td class=`hideable`></td>
        </tr>
".

Definition footer : str := lit "
            </tbody>
        </table>
    </div>
</main>
</body>
</html>".

(** The f-string written for one entry. *)
Definition row (entry_path entry_type entry_name : str) (size_bytes : Z)
    (size_pretty last_modified_iso last_modified_human_readable : str) : str :=
  row_1 ++ quote entry_path ++ row_2 ++ entry_type ++ row_3 ++ entry_name
  ++ row_4 ++ Py.of_int size_bytes ++ row_5 ++ size_pretty ++ row_6
  ++ last_modified_iso ++ row_7 ++ last_modified_human_readable ++ row_8.

(** The line added to [body_top] when the listing is cut. *)
Definition truncation_notice (next_entry : Z) : str :=
  Py.tmpl "<tr><td></td><td><b>Listing truncated...</b> <a href=`?entry="
  ++ Py.of_int next_entry
  ++ Py.tmpl "`>Next Page</a></td><td></td><td></td><td></td></tr>"
  ++ [10%N].

(** What [print] wrote. *)
Inductive log_line : Type :=
| ErrorAccessing (e : exn) (entry : S3Path)
| DirSymlink (path : str)
| FileSymlink (path : str).

(** The variables of [process_dir] in its loop, the store calls and the
    prints made so far, and one ghost field: [emitted] lists the entries
    whose row was written, each with the value of [entry_count] at that
    moment. *)
Record render_state : Type := {
  entry_count : Z;
  body_top : str;
  index_file : str;
  calls : list (s3_call * option exn);
  printed : list log_line;
  emitted : list (Z * S3Path)
}.

(** The [try] block: size_bytes, size_pretty, last_modified_iso and
    last_modified_human_readable, or the exception caught. *)
Definition inspect (entry : S3Path) : exn + (Z * str * str * str) :=
  if is_file entry then
    let size_bytes := size entry in
    match pretty_size size_bytes with
    | inl e => inl e
    | inr size_pretty =>
        match last_modified entry with
        | None => inl AttributeError
        | Some d =>
            let last_modified := replace_microsecond_0 d in
            inr (size_bytes, size_pretty,
                 isoformat last_modified, strftime_c last_modified)
        end
    end
  else inr (-1, lit "&mdash;", [], lit "-").

(** entry_path, entry_type and what the branch prints. *)
Definition classify (entry : S3Path) : str * str * list log_line :=
  if is_dir entry && negb (is_symlink entry) then
    (if negb (existsb (Py.eqb os_name) [lit "nt"])
     then os_path_join (name entry) []
     else name entry,
     lit "folder", [])
  else if is_dir entry && is_symlink entry then
    (name entry, lit "folder-shortcut", [DirSymlink (absolute entry)])
  else if is_file entry && is_symlink entry then
    (name entry, lit "file-shortcut", [FileSymlink (absolute entry)])
  else (name entry, lit "file", []).

(** The text written for an entry whose metadata was read. *)
Definition entry_row (entry : S3Path) (meta : Z * str * str * str) : str :=
  let '(size_bytes, size_pretty, iso, human) := meta in
  let '(entry_path, entry_type, _) := classify entry in
  row entry_path entry_type (name entry) size_bytes size_pretty iso human.

(** How one turn of the loop ends. *)
Inductive turn : Type := Continue | Break.

(** One turn of the [for] loop for a yielded entry. *)
Definition process_entry (entry_offset : Z) (entry : S3Path)
    (st : render_state) : render_state * turn :=
  if Py.eqb (lower (name entry)) DEFAULT_OUTPUT_FILE then (st, Continue)
  else
    let entry_count := entry_count st + 1 in
    if entry_count <? entry_offset then
      ({| entry_count := entry_count; body_top := body_top st;
          index_file := index_file st; calls := calls st;
          printed := printed st; emitted := emitted st |}, Continue)
    else
      match inspect entry with
      | inl e =>
          ({| entry_count := entry_count; body_top := body_top st;
              index_file := index_file st; calls := calls st;
              printed := printed st ++ [ErrorAccessing e entry];
              emitted := emitted st |}, Continue)
      | inr meta =>
          let index_file := index_file st ++ entry_row entry meta in
          let printed := printed st ++ snd (classify entry) in
          let emitted := emitted st ++ [(entry_count, entry)] in
          if 1000000 <? Py.len index_file then
            ({| entry_count := entry_count;
                body_top := body_top st ++ truncation_notice (entry_count + 1);
                index_file := index_file; calls := calls st;
                printed := printed; emitted := emitted |}, Break)
          else
            ({| entry_count := entry_count; body_top := body_top st;
                index_file := index_file; calls := calls st;
                printed := printed; emitted := emitted |}, Continue)
      end.

(** How the [for] loop ends. *)
Inductive loop_exit : Type := Exhausted | Broke | Raise (e : exn).

(** The [for entry in s3_list_dir(...)] loop over the events of the
    generator: a store call happens when the loop asks for the entry that
    follows it. *)
Fixpoint render_loop (entry_offset : Z) (events : list gen_event)
    (st : render_state) : render_state * loop_exit :=
  match events with
  | [] => (st, Exhausted)
  | Call args raised :: rest =>
      render_loop entry_offset rest
        {| entry_count := entry_count st; body_top := body_top st;
           index_file := index_file st;
           calls := calls st ++ [(args, raised)];
           printed := printed st; emitted := emitted st |}
  | Yield (inl e) :: _ => (st, Raise e)
  | Yield (inr entry) :: rest =>
      match process_entry entry_offset entry st with
      | (st', Continue) => render_loop entry_offset rest st'
      | (st', Break) => (st', Broke)
      end
  end.

Definition initial_state (path_top_dir : Pathlib.PurePath) : render_state :=
  {| entry_count := 0;
     body_top := body_top_head ++ Pathlib.name path_top_dir ++ body_top_tail;
     index_file := [];
     calls := [];
     printed := [];
     emitted := [] |}.

(** [process_dir]: the state it ends in, and the exception it raises or
    the pair it returns.  A path object is never falsy, so the guard
    [if not path_top_dir: return None] never fires. *)
Definition process_dir (s3_conn : s3_client) (bucket_name : str)
    (path_top_dir : Pathlib.PurePath) (entry_offset : Z)
  : render_state * (exn + (str * Z)) :=
  match render_loop entry_offset
          (s3_list_dir s3_conn bucket_name (Pathlib.to_str path_top_dir))
          (initial_state path_top_dir) with
  | (st, Raise e) => (st, inl e)
  | (st, _) =>
      let index_file := index_file st ++ footer in
      ({| entry_count := entry_count st; body_top := body_top st;
          index_file := index_file; calls := calls st;
          printed := printed st; emitted := emitted st |},
       inr (body_top st ++ index_file, entry_count st))
  end.

(** ** The handler *)

(** The directory key derived from the decoded URI. *)
Definition dir_key (uri : str) : str :=
  if Py.endswith [slash] uri then Py.rstrip slash uri
  else if Py.endswith DEFAULT_OUTPUT_FILE uri then Py.rsplit1_head slash uri
  else uri.

Definition listing_response (content : str) : cf_response :=
  {| status := lit "200";
     statusDescription := lit "OK";
     response_headers :=
       [ (lit "cache-control",
          [ {| key := lit "Cache-Control"; value := lit "max-age=0" |} ]);
         (lit "content-type",
          [ {| key := lit "Content-Type"; value := lit "text/html" |} ]) ];
     body := content |}.

Definition bucket_name : str := lit "art-srv-enterprise".

(** [entry_offset = 0] and the [if 'entry' in query_components] that
    follows: the offset, or the exception raised while reading it. *)
Definition entry_offset_of (query_components : list (str * list str))
  : exn + Z :=
  match dict_get (lit "entry") query_components with
  | None => inr 0
  | Some [] => inl IndexError
  | Some (v :: _) =>
      match int v with
      | Some n => inr n
      | None => inl ValueError
      end
  end.

(** [request.get(field, '')] *)
Definition get_or_empty (field : option str) : str :=
  match field with Some s => s | None => [] end.

(** [lambda_handler], given the client that [boto3.client('s3')] returns
    and the request of the event: the store calls made, the lines
    printed, and how the invocation ends. *)
Definition lambda_handler {Headers Other : Type} (s3_conn : s3_client)
    (request : cf_request Headers Other)
  : list (s3_call * option exn) * list log_line * outcome Headers Other :=
  let uri := get_or_empty (uri request) in
  let query_string := get_or_empty (querystring request) in
  let query_components := parse_qs query_string in
  match entry_offset_of query_components with
  | inl e => ([], [], Raises e)
  | inr entry_offset =>
      if Py.contains (lit "..") uri then ([], [], ReturnRequest request)
      else
        let uri := unquote uri in
        match process_dir s3_conn bucket_name (Pathlib.Path (dir_key uri))
                          entry_offset with
        | (st, inl e) => (calls st, printed st, Raises e)
        | (st, inr (content, entry_count)) =>
            if entry_count =? 0
            then (calls st, printed st, ReturnRequest request)
            else (calls st, printed st,
                  ReturnResponse (listing_response content))
        end
  end.


(** ** Properties of the renderer *)

(** The test that keeps the generated file out of the listing. *)
Definition is_index (entry : S3Path) : bool :=
  Py.eqb (lower (name entry)) DEFAULT_OUTPUT_FILE.

(** The entries a run of the generator yields, in order. *)
Fixpoint entries_of (events : list gen_event) : list S3Path :=
  match events with
  | [] => []
  | Yield (inr entry) :: rest => entry :: entries_of rest
  | _ :: rest => entries_of rest
  end.

(** The entries that [entry_count] counts. *)
Definition counted (entries : list S3Path) : list S3Path :=
  filter (fun entry => negb (is_index entry)) entries.

(** No exception is yielded. *)
Definition no_exception (events : list gen_event) : bool :=
  forallb (fun ev => match ev with Yield (inl _) => false | _ => true end)
          events.

(** The store calls of a run of the generator. *)
Definition calls_of (events : list gen_event) : list (s3_call * option exn) :=
  flat_map (fun ev => match ev with Call a r => [(a, r)] | _ => [] end) events.

(** The row of an entry, empty when its metadata cannot be read. *)
Definition row_text (entry : S3Path) : str :=
  match inspect entry with
  | inr meta => entry_row entry meta
  | inl _ => []
  end.

Definition readable (entry : S3Path) : bool :=
  match inspect entry with inr _ => true | inl _ => false end.

(** The line printed for an entry whose metadata cannot be read. *)
Definition error_line (entry : S3Path) : list log_line :=
  match inspect entry with
  | inl e => [ErrorAccessing e entry]
  | inr _ => []
  end.

(** Entries with their running counts, the count before them being [c]. *)
Fixpoint numbered (c : Z) (entries : list S3Path) : list (Z * S3Path) :=
  match entries with
  | [] => []
  | entry :: rest => (c + 1, entry) :: numbered (c + 1) rest
  end.

Definition rows (entries : list S3Path) : str :=
  List.concat (map row_text entries).

Lemma classify_prints_nothing (entry : S3Path) : snd (classify entry) = [].
Proof.
  unfold classify, is_symlink. rewrite !andb_false_r, andb_true_r.
  destruct (is_dir entry); reflexivity.
Qed.

Lemma render_state_eta (st : render_state) :
  {| entry_count := entry_count st; body_top := body_top st;
     index_file := index_file st; calls := calls st;
     printed := printed st; emitted := emitted st |} = st.
Proof. destruct st; reflexivity. Qed.

(** *** One turn of the loop, case by case *)

Lemma process_entry_index (off : Z) (entry : S3Path) (st : render_state) :
  is_index entry = true -> process_entry off entry st = (st, Continue).
Proof. unfold is_index, process_entry. intros ->. reflexivity. Qed.

Lemma process_entry_skipped (off : Z) (entry : S3Path) (st : render_state) :
  is_index entry = false -> entry_count st + 1 < off ->
  process_entry off entry st =
    ({| entry_count := entry_count st + 1; body_top := body_top st;
        index_file := index_file st; calls := calls st;
        printed := printed st; emitted := emitted st |}, Continue).
Proof.
  unfold is_index, process_entry. intros -> Hlt.
  destruct (Z.ltb_spec (entry_count st + 1) off); [reflexivity|lia].
Qed.

Lemma process_entry_unreadable (off : Z) (entry : S3Path) (st : render_state)
    (e : exn) :
  is_index entry = false -> off <= entry_count st + 1 ->
  inspect entry = inl e ->
  process_entry off entry st =
    ({| entry_count := entry_count st + 1; body_top := body_top st;
        index_file := index_file st; calls := calls st;
        printed := printed st ++ [ErrorAccessing e entry];
        emitted := emitted st |}, Continue).
Proof.
  unfold is_index, process_entry. intros -> Hle ->.
  destruct (Z.ltb_spec (entry_count st + 1) off); [lia|reflexivity].
Qed.

Lemma process_entry_row (off : Z) (entry : S3Path) (st : render_state)
    (meta : Z * str * str * str) :
  is_index entry = false -> off <= entry_count st + 1 ->
  inspect entry = inr meta ->
  process_entry off entry st =
    if 1000000 <? Py.len (index_file st ++ entry_row entry meta) then
      ({| entry_count := entry_count st + 1;
          body_top := body_top st ++ truncation_notice (entry_count st + 1 + 1);
          index_file := index_file st ++ entry_row entry meta;
          calls := calls st; printed := printed st;
          emitted := emitted st ++ [(entry_count st + 1, entry)] |}, Break)
    else
      ({| entry_count := entry_count st + 1; body_top := body_top st;
          index_file := index_file st ++ entry_row entry meta;
          calls := calls st; printed := printed st;
          emitted := emitted st ++ [(entry_count st + 1, entry)] |}, Continue).
Proof.
  unfold is_index, process_entry. intros -> Hle ->.
  destruct (Z.ltb_spec (entry_count st + 1) off); [lia|].
  rewrite classify_prints_nothing, app_nil_r. reflexivity.
Qed.

(** *** The loop over a run split in two *)

Lemma render_loop_app (off : Z) (pre rest : list gen_event) (st : render_state) :
  render_loop off (pre ++ rest) st =
    match render_loop off pre st with
    | (st', Exhausted) => render_loop off rest st'
    | r => r
    end.
Proof.
  revert st. induction pre as [|ev pre IH]; intros st; [reflexivity|].
  destruct ev as [args raised|[e|entry]]; cbn [app render_loop].
  - apply IH.
  - reflexivity.
  - destruct (process_entry off entry st) as [st' [|]]; [apply IH|reflexivity].
Qed.

(** *** A run that is neither skipped nor cut *)

Lemma len_app (a b : str) : Py.len (a ++ b) = Py.len a + Py.len b.
Proof. unfold Py.len. rewrite length_app. lia. Qed.

Lemma len_nonneg (a : str) : 0 <= Py.len a.
Proof. unfold Py.len. lia. Qed.

Lemma counted_cons_index (entry : S3Path) (entries : list S3Path) :
  is_index entry = true -> counted (entry :: entries) = counted entries.
Proof. unfold counted. cbn [filter]. intros ->. reflexivity. Qed.

Lemma counted_cons (entry : S3Path) (entries : list S3Path) :
  is_index entry = false -> counted (entry :: entries) = entry :: counted entries.
Proof. unfold counted. cbn [filter]. intros ->. reflexivity. Qed.

Ltac state_eq :=
  f_equal; f_equal; cbn [entry_count body_top index_file calls printed emitted];
  rewrite <- ?app_assoc; cbn [app]; try reflexivity; try lia.

(** From a state in which nothing more is skipped, a run that yields no
    exception and whose rows fit below the limit is walked to its end:
    every counted entry is counted, every readable one gets its row, every
    unreadable one its error line. *)
Lemma run_through (off : Z) (pre : list gen_event) :
  forall st : render_state,
  no_exception pre = true ->
  off <= entry_count st + 1 ->
  Py.len (index_file st ++ rows (counted (entries_of pre))) <= 1000000 ->
  render_loop off pre st =
    ({| entry_count :=
          entry_count st + Z.of_nat (List.length (counted (entries_of pre)));
        body_top := body_top st;
        index_file := index_file st ++ rows (counted (entries_of pre));
        calls := calls st ++ calls_of pre;
        printed := printed st ++ flat_map error_line (counted (entries_of pre));
        emitted :=
          emitted st
          ++ filter (fun ce => readable (snd ce))
               (numbered (entry_count st) (counted (entries_of pre))) |},
     Exhausted).
Proof.
  induction pre as [|ev pre IH]; intros st Hexc Hoff Hlen.
  - cbn. rewrite !app_nil_r, Z.add_0_r, render_state_eta. reflexivity.
  - destruct ev as [args raised|[e|entry]]; cbn [no_exception forallb] in Hexc.
    + cbn [render_loop entries_of calls_of flat_map]. cbn [entries_of] in Hlen.
      rewrite IH by assumption. state_eq.
    + discriminate.
    + cbn [render_loop entries_of calls_of flat_map app].
      cbn [entries_of] in Hlen.
      destruct (is_index entry) eqn:Hidx.
      * rewrite process_entry_index by assumption.
        rewrite counted_cons_index in * by assumption. apply IH; assumption.
      * rewrite counted_cons in * by assumption.
        unfold rows in Hlen. cbn [map List.concat] in Hlen. fold (rows (counted (entries_of pre))) in Hlen.
        destruct (inspect entry) as [e|meta] eqn:Hins.
        -- rewrite (process_entry_unreadable off entry st e) by assumption.
           unfold row_text in Hlen. rewrite Hins in Hlen. cbn [app] in Hlen.
           rewrite IH; cbn [entry_count index_file]; try assumption; try lia.
           unfold rows. cbn [map List.concat flat_map numbered filter snd List.length].
           unfold row_text, error_line, readable. rewrite Hins.
           state_eq.
        -- rewrite (process_entry_row off entry st meta) by assumption.
           unfold row_text in Hlen. rewrite Hins in Hlen.
           rewrite app_assoc in Hlen.
           assert (Hfit : Py.len (index_file st ++ entry_row entry meta) <= 1000000).
           { rewrite len_app in Hlen.
             pose proof (len_nonneg (rows (counted (entries_of pre)))). lia. }
           destruct (Z.ltb_spec 1000000 (Py.len (index_file st ++ entry_row entry meta)));
             [lia|].
           rewrite IH; cbn [entry_count index_file]; try assumption; try lia.
           unfold rows. cbn [map List.concat flat_map numbered filter snd List.length].
           unfold row_text, error_line, readable. rewrite Hins.
           state_eq.
Qed.

(** While the running count stays below the offset nothing is written. *)
Lemma skip_through (off : Z) (pre : list gen_event) :
  forall st : render_state,
  no_exception pre = true ->
  entry_count st + Z.of_nat (List.length (counted (entries_of pre))) < off ->
  render_loop off pre st =
    ({| entry_count :=
          entry_count st + Z.of_nat (List.length (counted (entries_of pre)));
        body_top := body_top st;
        index_file := index_file st;
        calls := calls st ++ calls_of pre;
        printed := printed st;
        emitted := emitted st |},
     Exhausted).
Proof.
  induction pre as [|ev pre IH]; intros st Hexc Hlt.
  - cbn. rewrite !app_nil_r, Z.add_0_r, render_state_eta. reflexivity.
  - destruct ev as [args raised|[e|entry]]; cbn [no_exception forallb] in Hexc.
    + cbn [render_loop entries_of calls_of flat_map]. cbn [entries_of] in Hlt.
      rewrite IH by assumption. state_eq.
    + discriminate.
    + cbn [render_loop entries_of calls_of flat_map app].
      cbn [entries_of] in Hlt.
      destruct (is_index entry) eqn:Hidx.
      * rewrite process_entry_index by assumption.
        rewrite counted_cons_index in * by assumption. apply IH; assumption.
      * rewrite counted_cons in * by assumption.
        cbn [List.length] in *.
        rewrite process_entry_skipped by (try assumption; lia).
        rewrite IH; cbn [entry_count]; try assumption; try lia.
        state_eq.
Qed.

(** *** What the loop writes, whatever the run *)

(** What holds of an entry whose row is written, [off] being the offset,
    [c0] the count the loop started from and [events] the run. *)
Definition shown (off c0 : Z) (events : list gen_event) (ce : Z * S3Path)
  : Prop :=
  off <= fst ce /\ c0 < fst ce /\ is_index (snd ce) = false
  /\ readable (snd ce) = true /\ In (snd ce) (entries_of events).

Lemma process_entry_emits (off : Z) (entry : S3Path) (st st' : render_state)
    (t : turn) :
  process_entry off entry st = (st', t) ->
  entry_count st <= entry_count st' /\
  calls st' = calls st /\
  exists more,
    emitted st' = emitted st ++ more /\
    index_file st' = index_file st ++ rows (map snd more) /\
    Forall (shown off (entry_count st) [Yield (inr entry)]) more.
Proof.
  intros H.
  destruct (is_index entry) eqn:Hidx.
  { rewrite process_entry_index in H by assumption. inversion H; subst.
    split; [lia|]. split; [reflexivity|]. exists []. rewrite !app_nil_r. auto. }
  destruct (Z.lt_ge_cases (entry_count st + 1) off) as [Hlt|Hge].
  { rewrite process_entry_skipped in H by assumption. inversion H; subst.
    cbn. split; [lia|]. split; [reflexivity|]. exists []. rewrite !app_nil_r. auto. }
  destruct (inspect entry) as [e|meta] eqn:Hins.
  { rewrite (process_entry_unreadable off entry st e) in H by assumption.
    inversion H; subst. cbn. split; [lia|]. split; [reflexivity|].
    exists []. rewrite !app_nil_r. auto. }
  rewrite (process_entry_row off entry st meta) in H by assumption.
  assert (Hrow : rows (map snd [(entry_count st + 1, entry)]) = entry_row entry meta).
  { unfold rows, row_text. cbn. rewrite Hins, app_nil_r. reflexivity. }
  assert (Hshown : Forall (shown off (entry_count st) [Yield (inr entry)])
                          [(entry_count st + 1, entry)]).
  { constructor; [|constructor]. unfold shown, readable. cbn. rewrite Hins.
    repeat split; auto; lia. }
  destruct (1000000 <? _); inversion H; subst; cbn;
    (split; [lia|]; split; [reflexivity|];
     exists [(entry_count st + 1, entry)]; rewrite Hrow; auto).
Qed.

Lemma shown_weaken (off c0 c1 : Z) (ev : gen_event) (events : list gen_event)
    (more : list (Z * S3Path)) :
  c0 <= c1 ->
  Forall (shown off c1 events) more ->
  Forall (shown off c0 (ev :: events)) more.
Proof.
  intros Hc. apply Forall_impl. intros ce (H1 & H2 & H3 & H4 & H5).
  repeat split; auto; try lia.
  destruct ev as [?|[?|?]]; cbn; auto.
Qed.

Lemma render_loop_emits (off : Z) (events : list gen_event) :
  forall (st st' : render_state) (exit : loop_exit),
  render_loop off events st = (st', exit) ->
  entry_count st <= entry_count st' /\
  exists more,
    emitted st' = emitted st ++ more /\
    index_file st' = index_file st ++ rows (map snd more) /\
    Forall (shown off (entry_count st) events) more.
Proof.
  induction events as [|ev events IH]; intros st st' exit H.
  - inversion H; subst. split; [lia|]. exists []. rewrite !app_nil_r. auto.
  - destruct ev as [args raised|[e|entry]]; cbn [render_loop] in H.
    + apply IH in H. cbn in H. destruct H as (Hc & more & He & Hi & Hs).
      split; [exact Hc|]. exists more. repeat split; auto.
    + inversion H; subst. split; [lia|]. exists []. rewrite !app_nil_r. auto.
    + destruct (process_entry off entry st) as [st1 t] eqn:Hpe.
      apply process_entry_emits in Hpe.
      destruct Hpe as (Hc1 & _ & more1 & He1 & Hi1 & Hs1).
      assert (Hs1' : Forall (shown off (entry_count st) (Yield (inr entry) :: events)) more1).
      { revert Hs1. apply Forall_impl. intros ce (H1 & H2 & H3 & H4 & H5).
        repeat split; auto. cbn in *. tauto. }
      destruct t.
      * apply IH in H. destruct H as (Hc & more & He & Hi & Hs).
        split; [lia|]. exists (more1 ++ more).
        rewrite He, He1, Hi, Hi1. unfold rows.
        rewrite !map_app, concat_app, <- !app_assoc.
        repeat split; auto. apply Forall_app. split; [exact Hs1'|].
        eapply shown_weaken; [|exact Hs]. exact Hc1.
      * inversion H; subst. split; [exact Hc1|]. exists more1. auto.
Qed.

(** *** Failed store calls *)

(** The shape of a run of the generator: a failed call is followed by the
    yield of its exception, and a yielded exception is the last event. *)
Fixpoint terminal_errors (events : list gen_event) : Prop :=
  match events with
  | [] => True
  | Call _ (Some e) :: rest => rest = [Yield (inl e)]
  | Yield (inl _) :: rest => rest = []
  | _ :: rest => terminal_errors rest
  end.

Lemma terminal_errors_entries (ys more : list gen_event) :
  Forall (fun ev => exists p, ev = Yield (inr p)) ys ->
  terminal_errors more -> terminal_errors (ys ++ more).
Proof.
  induction 1 as [|ev ys [p ->] _ IH]; intros Hm; cbn; auto.
Qed.

Lemma yield_common_prefixes_entries (entries : list s3_entry) :
  Forall (fun ev => exists p, ev = Yield (inr p))
         (fst (yield_common_prefixes entries)).
Proof.
  induction entries as [|entry rest IH]; cbn; [constructor|].
  destruct (S3Path_init true entry) as [e|p]; cbn; [constructor|].
  destruct (yield_common_prefixes rest) as [evs x]. cbn in *.
  constructor; eauto.
Qed.

Lemma yield_contents_entries (prefix : str) (entries : list s3_entry) :
  Forall (fun ev => exists p, ev = Yield (inr p))
         (fst (yield_contents prefix entries)).
Proof.
  induction entries as [|entry rest IH]; cbn; [constructor|].
  destruct (Key entry) as [k|]; cbn; [|constructor].
  destruct (Py.eqb k prefix); [exact IH|].
  destruct (S3Path_init false entry) as [e|p]; cbn; [constructor|].
  destruct (yield_contents prefix rest) as [evs x]. cbn in *.
  constructor; eauto.
Qed.

Lemma page_events_terminal (prefix : str) (page : s3_page)
    (more : list gen_event) :
  terminal_errors more -> terminal_errors (page_events prefix page more).
Proof.
  intros Hm. unfold page_events.
  pose proof (yield_common_prefixes_entries (CommonPrefixes page)) as Hd.
  pose proof (yield_contents_entries prefix (Contents page)) as Hf.
  destruct (yield_common_prefixes (CommonPrefixes page)) as [dirs [e|]];
    cbn in Hd.
  { apply terminal_errors_entries; [exact Hd|reflexivity]. }
  destruct (yield_contents prefix (Contents page)) as [files [e|]]; cbn in Hf;
    apply terminal_errors_entries; try exact Hd;
    apply terminal_errors_entries; try exact Hf; [reflexivity|exact Hm].
Qed.

Lemma s3_pages_terminal (bucket prefix : str) (reply : s3_reply) :
  forall page_no : nat, terminal_errors (s3_pages bucket prefix page_no reply).
Proof.
  induction reply as [e|page|page next IH]; intros page_no; cbn.
  - reflexivity.
  - apply page_events_terminal. exact I.
  - apply page_events_terminal. apply IH.
Qed.

Lemma s3_list_dir_terminal (s3_conn : s3_client) (bucket dir_path : str) :
  terminal_errors (s3_list_dir s3_conn bucket dir_path).
Proof. apply s3_pages_terminal. Qed.

Lemma terminal_errors_split (events : list gen_event) :
  terminal_errors events ->
  forall pre e post,
  events = pre ++ Yield (inl e) :: post ->
  post = [] /\ no_exception pre = true.
Proof.
  induction events as [|ev events IH]; intros Hwf pre e post Heq.
  - destruct pre; discriminate.
  - destruct pre as [|ev' pre].
    + cbn in Heq. inversion Heq; subst. cbn in Hwf. auto.
    + cbn in Heq. inversion Heq; subst ev' events. clear Heq.
      destruct ev as [args [e'|]|[e'|p]]; cbn in Hwf.
      * destruct pre as [|? [|? ?]]; cbn in Hwf; inversion Hwf; subst; auto.
      * destruct (IH Hwf pre e post eq_refl). auto.
      * destruct pre; discriminate.
      * destruct (IH Hwf pre e post eq_refl). auto.
Qed.

(** A failed call the loop has made ends the loop with its exception. *)
Lemma render_loop_failed_call (off : Z) (events : list gen_event) :
  terminal_errors events ->
  forall (st st' : render_state) (exit : loop_exit),
  render_loop off events st = (st', exit) ->
  forall args e,
  In (args, Some e) (calls st') ->
  In (args, Some e) (calls st) \/ exit = Raise e.
Proof.
  induction events as [|ev events IH]; intros Hwf st st' exit H args e Hin.
  - inversion H; subst. auto.
  - destruct ev as [a [e'|]|[e'|p]]; cbn in Hwf; cbn [render_loop] in H.
    + subst events. cbn in H. inversion H; subst. cbn in Hin.
      apply in_app_or in Hin. destruct Hin as [Hin|[Heq|[]]]; [auto|].
      inversion Heq; subst. auto.
    + destruct (IH Hwf _ _ _ H args e Hin) as [Hin'|Hex]; [|auto].
      cbn in Hin'. apply in_app_or in Hin'.
      destruct Hin' as [Hin'|[Heq|[]]]; [auto|discriminate].
    + inversion H; subst. auto.
    + destruct (process_entry off p st) as [st1 t] eqn:Hpe.
      apply process_entry_emits in Hpe. destruct Hpe as (_ & Hcalls & _).
      destruct t.
      * destruct (IH Hwf _ _ _ H args e Hin) as [Hin'|Hex]; [|auto].
        rewrite Hcalls in Hin'. auto.
      * inversion H; subst. rewrite Hcalls in Hin. auto.
Qed.

Lemma numbered_readable_length (c : Z) (entries : list S3Path) :
  List.length (filter (fun ce => readable (snd ce)) (numbered c entries)) =
  List.length (filter readable entries).
Proof.
  revert c. induction entries as [|entry rest IH]; intros c; [reflexivity|].
  cbn. destruct (readable entry); cbn; rewrite IH; reflexivity.
Qed.

Lemma filter_split_length {A : Type} (p : A -> bool) (l : list A) :
  (List.length (filter p l) + List.length (filter (fun x => negb (p x)) l)
   = List.length l)%nat.
Proof.
  induction l as [|x l IH]; [reflexivity|].
  cbn. destruct (p x); cbn; lia.
Qed.

Lemma filter_all {A : Type} (p : A -> bool) (l : list A) :
  forallb p l = true -> filter p l = l.
Proof.
  induction l as [|x l IH]; [reflexivity|]. cbn.
  destruct (p x); [|discriminate]. cbn. intros H. rewrite IH by exact H.
  reflexivity.
Qed.

(** ** The claims about the renderer *)

(** C8: whatever the prefix, the client and the offset, no row of the
    document belongs to an entry whose lower-cased name is index.html:
    the document is the top of the page, the rows of the entries recorded
    as written, in order, and the footer; none of these entries is named
    index.html up to case, and each was yielded by the enumeration. *)
Theorem index_html_never_listed (s3_conn : s3_client) (bucket : str)
    (path_top_dir : Pathlib.PurePath) (entry_offset : Z) :
  let run := process_dir s3_conn bucket path_top_dir entry_offset in
  Forall (fun ce =>
            Py.eqb (lower (name (snd ce))) (lit "index.html") = false
            /\ In (snd ce)
                  (entries_of (s3_list_dir s3_conn bucket
                                 (Pathlib.to_str path_top_dir))))
         (emitted (fst run))
  /\ match snd run with
     | inr (document, _) =>
         document =
           body_top (fst run) ++ rows (map snd (emitted (fst run))) ++ footer
     | inl _ => True
     end.
Proof.
  cbv zeta. unfold process_dir.
  destruct (render_loop entry_offset _ (initial_state path_top_dir))
    as [st exit] eqn:Hloop.
  apply render_loop_emits in Hloop.
  destruct Hloop as (_ & more & He & Hi & Hs). cbn in He, Hi.
  assert (Hall : Forall (fun ce =>
            Py.eqb (lower (name (snd ce))) (lit "index.html") = false
            /\ In (snd ce)
                  (entries_of (s3_list_dir s3_conn bucket
                                 (Pathlib.to_str path_top_dir))))
         (emitted st)).
  { rewrite He. revert Hs. apply Forall_impl.
    intros ce (_ & _ & Hidx & _ & Hin). split; assumption. }
  destruct exit; cbn [fst snd emitted body_top]; (split; [exact Hall|]);
    try exact I; rewrite Hi, He; reflexivity.
Qed.


(** What makes the metadata of a file unreadable: a size too large for a
    float, or no LastModified. *)
Lemma inspect_file_without_timestamp (entry : S3Path) :
  is_file entry = true -> last_modified entry = None ->
  exists e, inspect entry = inl e.
Proof.
  intros Hf Hl. unfold inspect. rewrite Hf, Hl.
  destruct (pretty_size (size entry)); eauto.
Qed.

(** C2 (as amended): for every sequence of entries and every offset
    N >= 1, entries are counted in the order of the enumeration and no row
    is written while the running count is below N: every row written
    belongs to an entry whose running count is at least N, and when the
    entry whose running count equals N is reached and its metadata can be
    read, its row is the first one written. *)
Theorem offset_skips_counts_below (entry_offset : Z)
    (events : list gen_event) (path_top_dir : Pathlib.PurePath) :
  1 <= entry_offset ->
  let st' := fst (render_loop entry_offset events (initial_state path_top_dir)) in
  Forall (fun ce => entry_offset <= fst ce) (emitted st')
  /\ forall pre entry post meta,
       events = pre ++ Yield (inr entry) :: post ->
       no_exception pre = true ->
       Z.of_nat (List.length (counted (entries_of pre))) = entry_offset - 1 ->
       is_index entry = false ->
       inspect entry = inr meta ->
       exists more tail,
         emitted st' = (entry_offset, entry) :: more
         /\ index_file st' = entry_row entry meta ++ tail.
Proof.
  intros Hoff. cbv zeta. split.
  - destruct (render_loop entry_offset events (initial_state path_top_dir))
      as [st exit] eqn:Hloop.
    apply render_loop_emits in Hloop.
    destruct Hloop as (_ & more & He & _ & Hs). cbn in He |- *.
    rewrite He. revert Hs. apply Forall_impl. intros ce (H & _). exact H.
  - intros pre entry post meta -> Hexc Hcount Hidx Hins.
    rewrite render_loop_app.
    rewrite skip_through by (try assumption; cbn [initial_state entry_count]; lia).
    cbn [initial_state entry_count body_top index_file calls printed emitted app].
    cbn [render_loop].
    rewrite (process_entry_row entry_offset entry _ meta)
      by (try assumption; cbn [entry_count]; lia).
    cbn [entry_count body_top index_file calls printed emitted app].
    replace (0 + Z.of_nat (List.length (counted (entries_of pre))) + 1)
      with entry_offset by lia.
    destruct (1000000 <? Py.len (entry_row entry meta)).
    + cbn. exists [], []. rewrite app_nil_r. auto.
    + match goal with
      | |- context [render_loop entry_offset post ?s] =>
          destruct (render_loop entry_offset post s) as [st exit] eqn:Hloop
      end.
      apply render_loop_emits in Hloop.
      destruct Hloop as (_ & more & He & Hi & _). cbn in He, Hi |- *.
      exists more, (rows (map snd more)). auto.
Qed.

(** The run of [process_dir] that is cut at the entry which takes the
    rows over the limit. *)
Lemma process_dir_cut (s3_conn : s3_client) (bucket : str)
    (path_top_dir : Pathlib.PurePath) (pre post : list gen_event)
    (entry : S3Path) (meta : Z * str * str * str) :
  s3_list_dir s3_conn bucket (Pathlib.to_str path_top_dir)
    = pre ++ Yield (inr entry) :: post ->
  no_exception pre = true ->
  is_index entry = false ->
  inspect entry = inr meta ->
  Py.len (rows (counted (entries_of pre))) <= 1000000 ->
  1000000 < Py.len (rows (counted (entries_of pre)) ++ entry_row entry meta) ->
  let before := counted (entries_of pre) in
  let k := Z.of_nat (List.length before) + 1 in
  let run := process_dir s3_conn bucket path_top_dir 0 in
  snd run =
    inr ((body_top_head ++ Pathlib.name path_top_dir ++ body_top_tail)
         ++ truncation_notice (k + 1)
         ++ rows before ++ entry_row entry meta ++ footer, k)
  /\ emitted (fst run) =
       filter (fun ce => readable (snd ce)) (numbered 0 before) ++ [(k, entry)]
  /\ Z.of_nat (List.length (emitted (fst run))) =
       k - Z.of_nat (List.length (filter (fun x => negb (readable x)) before))
  /\ (forallb readable before = true ->
      Z.of_nat (List.length (emitted (fst run))) = k)
  /\ calls (fst run) = calls_of pre.
Proof.
  intros Hev Hexc Hidx Hins Hfit Hover. cbv zeta.
  unfold process_dir. rewrite Hev, render_loop_app.
  rewrite run_through
    by (try assumption; cbn [initial_state entry_count index_file app]; lia).
  cbn [initial_state entry_count body_top index_file calls printed emitted app].
  cbn [render_loop].
  rewrite (process_entry_row 0 entry _ meta)
    by (try assumption; cbn [entry_count]; lia).
  cbn [entry_count body_top index_file calls printed emitted app].
  destruct (Z.ltb_spec 1000000
              (Py.len (rows (counted (entries_of pre)) ++ entry_row entry meta)));
    [|lia].
  cbn [fst snd entry_count body_top index_file calls printed emitted].
  split; [|split; [|split; [|split]]].
  - rewrite <- !app_assoc. repeat f_equal; lia.
  - repeat f_equal; lia.
  - rewrite length_app, numbered_readable_length. cbn [List.length].
    pose proof (filter_split_length readable (counted (entries_of pre))). lia.
  - intros Hall. rewrite length_app, numbered_readable_length.
    rewrite filter_all by exact Hall. cbn [List.length]. lia.
  - reflexivity.
Qed.

(** C3 (as amended): with offset 0, let the enumeration yield no
    exception before an entry whose row takes the rows written so far over
    1,000,000 characters for the first time, and let k be the running count
    of that entry (entries named index.html are not counted).  Then the
    renderer returns k and a document made of the top of the page, the
    notice whose link is entry=k+1, one row for each of the k counted
    entries whose metadata could be read, and the footer: exactly k rows
    when none was unreadable, k less the number of unreadable ones in
    general.  Nothing after that entry is rendered or pulled: the result
    is the same whatever follows in the sequence, and only the store calls
    that precede the entry are made. *)
Theorem listing_cut_at_limit (s3_conn : s3_client) (bucket : str)
    (path_top_dir : Pathlib.PurePath) (pre post : list gen_event)
    (entry : S3Path) (meta : Z * str * str * str) :
  s3_list_dir s3_conn bucket (Pathlib.to_str path_top_dir)
    = pre ++ Yield (inr entry) :: post ->
  no_exception pre = true ->
  is_index entry = false ->
  inspect entry = inr meta ->
  Py.len (rows (counted (entries_of pre))) <= 1000000 ->
  1000000 < Py.len (rows (counted (entries_of pre)) ++ entry_row entry meta) ->
  let before := counted (entries_of pre) in
  let k := Z.of_nat (List.length before) + 1 in
  let run := process_dir s3_conn bucket path_top_dir 0 in
  snd run =
    inr ((body_top_head ++ Pathlib.name path_top_dir ++ body_top_tail)
         ++ truncation_notice (k + 1)
         ++ rows before ++ entry_row entry meta ++ footer, k)
  /\ emitted (fst run) =
       filter (fun ce => readable (snd ce)) (numbered 0 before) ++ [(k, entry)]
  /\ Z.of_nat (List.length (emitted (fst run))) =
       k - Z.of_nat (List.length (filter (fun x => negb (readable x)) before))
  /\ (forallb readable before = true ->
      Z.of_nat (List.length (emitted (fst run))) = k)
  /\ calls (fst run) = calls_of pre.
Proof. exact (process_dir_cut s3_conn bucket path_top_dir pre post entry meta). Qed.


(** ** The claims about the handler *)

Section Handler.

Context {Headers Other : Type}.

Lemma terminal_errors_failed_call (events : list gen_event) :
  terminal_errors events ->
  forall pre args e post,
  events = pre ++ Call args (Some e) :: post ->
  post = [Yield (inl e)].
Proof.
  induction events as [|ev events IH]; intros Hwf pre args e post Heq.
  - destruct pre; discriminate.
  - destruct pre as [|ev' pre].
    + cbn in Heq. inversion Heq; subst. cbn in Hwf. exact Hwf.
    + cbn in Heq. inversion Heq; subst ev' events. clear Heq.
      destruct ev as [a [e'|]|[e'|p]]; cbn in Hwf.
      * destruct pre as [|? [|? ?]]; discriminate.
      * exact (IH Hwf pre args e post eq_refl).
      * destruct pre; discriminate.
      * exact (IH Hwf pre args e post eq_refl).
Qed.

Lemma process_dir_failed_call (s3_conn : s3_client) (bucket : str)
    (path_top_dir : Pathlib.PurePath) (entry_offset : Z)
    (args : s3_call) (e : exn) :
  In (args, Some e)
     (calls (fst (process_dir s3_conn bucket path_top_dir entry_offset))) ->
  snd (process_dir s3_conn bucket path_top_dir entry_offset) = inl e.
Proof.
  unfold process_dir.
  destruct (render_loop entry_offset _ (initial_state path_top_dir))
    as [st exit] eqn:Hloop.
  pose proof (render_loop_failed_call entry_offset _
                (s3_list_dir_terminal s3_conn bucket (Pathlib.to_str path_top_dir))
                _ _ _ Hloop args e) as Hcall.
  destruct exit; cbn; intros Hin; destruct (Hcall Hin) as [[]|Hex];
    try discriminate.
  inversion Hex; subst. reflexivity.
Qed.

(** C5: a listing call that fails is the last thing the enumeration does
    but for one yield, that of its exception, which ends the sequence; and
    when the handler has made a call that failed, the renderer raises the
    exception of that call and so does the handler: no request and no
    document is returned. *)
Theorem failed_listing_call_fails_invocation (s3_conn : s3_client)
    (request : cf_request Headers Other) :
  (forall bucket dir_path pre e post,
     s3_list_dir s3_conn bucket dir_path = pre ++ Yield (inl e) :: post ->
     post = [] /\ no_exception pre = true)
  /\ (forall bucket dir_path pre args e post,
        s3_list_dir s3_conn bucket dir_path = pre ++ Call args (Some e) :: post ->
        post = [Yield (inl e)])
  /\ (forall bucket path_top_dir entry_offset args e,
        In (args, Some e)
           (calls (fst (process_dir s3_conn bucket path_top_dir entry_offset))) ->
        snd (process_dir s3_conn bucket path_top_dir entry_offset) = inl e)
  /\ (forall args e,
        In (args, Some e) (fst (fst (lambda_handler s3_conn request))) ->
        snd (lambda_handler s3_conn request) = Raises e).
Proof.
  split; [|split; [|split]].
  - intros bucket dir_path pre e post Heq.
    exact (terminal_errors_split _ (s3_list_dir_terminal s3_conn bucket dir_path)
             pre e post Heq).
  - intros bucket dir_path pre args e post Heq.
    exact (terminal_errors_failed_call _
             (s3_list_dir_terminal s3_conn bucket dir_path) pre args e post Heq).
  - intros. apply (process_dir_failed_call _ _ _ _ args). assumption.
  - intros args e. unfold lambda_handler.
    destruct (entry_offset_of _) as [e0|off]; [intros []|].
    destruct (Py.contains _ _); [intros []|].
    pose proof (process_dir_failed_call s3_conn bucket_name
                  (Pathlib.Path (dir_key (unquote (get_or_empty (uri request)))))
                  off args e) as Hpd.
    destruct (process_dir _ _ _ _) as [st [e1|[content n]]]; cbn in Hpd.
    + cbn. intros Hin. specialize (Hpd Hin). congruence.
    + destruct (n =? 0); cbn; intros Hin; specialize (Hpd Hin); discriminate.
Qed.

(** C10 (as amended): when the query string, as parse_qs reads it, holds
    an entry parameter whose first value int() rejects, the handler raises
    ValueError before anything else happens, whatever the URI and the
    store: no store call, no request handed back, no response, and no
    offset 0 in place of the value.  A field that parse_qs drops, as it
    drops entry= with its blank value, is no such parameter. *)
Theorem entry_not_an_integer_raises (s3_conn : s3_client)
    (request : cf_request Headers Other) (v : str) (vs : list str) :
  dict_get (lit "entry") (parse_qs (get_or_empty (querystring request)))
    = Some (v :: vs) ->
  int v = None ->
  lambda_handler s3_conn request = ([], [], Raises ValueError)
  /\ snd (lambda_handler s3_conn request) <> ReturnRequest request
  /\ (forall response,
        snd (lambda_handler s3_conn request) <> ReturnResponse response)
  /\ entry_offset_of (parse_qs (get_or_empty (querystring request)))
       <> inr 0.
Proof.
  intros Hget Hint.
  assert (Hoff : entry_offset_of (parse_qs (get_or_empty (querystring request)))
                 = inl ValueError).
  { unfold entry_offset_of. rewrite Hget, Hint. reflexivity. }
  assert (H : lambda_handler s3_conn request = ([], [], Raises ValueError)).
  { unfold lambda_handler. rewrite Hoff. reflexivity. }
  rewrite H, Hoff. cbn. repeat split; try discriminate.
Qed.

(** C4: for a request that passes the path check and whose offset is
    read, when the renderer returns a document and a count, the handler
    hands the request back if the count is zero, and otherwise returns the
    response with status 200, description OK, Content-Type text/html,
    Cache-Control max-age=0 and the document as body. *)
Theorem response_decided_by_entry_count (s3_conn : s3_client)
    (request : cf_request Headers Other) (entry_offset : Z)
    (st : render_state) (content : str) (n : Z) :
  Py.contains (lit "..") (get_or_empty (uri request)) = false ->
  entry_offset_of (parse_qs (get_or_empty (querystring request)))
    = inr entry_offset ->
  process_dir s3_conn bucket_name
    (Pathlib.Path (dir_key (unquote (get_or_empty (uri request)))))
    entry_offset = (st, inr (content, n)) ->
  (n = 0 ->
   lambda_handler s3_conn request = (calls st, printed st, ReturnRequest request))
  /\ (n <> 0 ->
      exists response,
        lambda_handler s3_conn request
          = (calls st, printed st, ReturnResponse response)
        /\ status response = lit "200"
        /\ statusDescription response = lit "OK"
        /\ dict_get (lit "content-type") (response_headers response)
             = Some [ {| key := lit "Content-Type"; value := lit "text/html" |} ]
        /\ dict_get (lit "cache-control") (response_headers response)
             = Some [ {| key := lit "Cache-Control"; value := lit "max-age=0" |} ]
        /\ body response = content).
Proof.
  intros Hpath Hoff Hrun. unfold lambda_handler.
  rewrite Hoff, Hpath, Hrun. split; intros Hn.
  - subst n. reflexivity.
  - destruct (Z.eqb_spec n 0); [contradiction|].
    exists (listing_response content). repeat split.
Qed.

(** C1 (as amended): a request whose URI as received, before it is
    percent-decoded, contains "..", and whose entry parameter, if any, is
    read as an integer, is handed back as it came, and no store call is
    made; so is a request with URI /foo/../bar. *)
Theorem dotdot_in_received_uri_passes_through (s3_conn : s3_client)
    (request : cf_request Headers Other) (entry_offset : Z) :
  entry_offset_of (parse_qs (get_or_empty (querystring request)))
    = inr entry_offset ->
  (Py.contains (lit "..") (get_or_empty (uri request)) = true ->
   lambda_handler s3_conn request = ([], [], ReturnRequest request))
  /\ (uri request = Some (lit "/foo/../bar") ->
      lambda_handler s3_conn request = ([], [], ReturnRequest request)).
Proof.
  intros Hoff.
  assert (H : Py.contains (lit "..") (get_or_empty (uri request)) = true ->
              lambda_handler s3_conn request = ([], [], ReturnRequest request)).
  { intros Hdots. unfold lambda_handler. rewrite Hoff, Hdots. reflexivity. }
  split; [exact H|]. intros Huri. apply H. rewrite Huri. reflexivity.
Qed.

End Handler.

Lemma name_within_row (entry : S3Path) (meta : Z * str * str * str) :
  Py.len (name entry) <= Py.len (entry_row entry meta).
Proof.
  unfold entry_row. destruct meta as [[[size_bytes size_pretty] iso] human].
  destruct (classify entry) as [[entry_path entry_type] prints].
  unfold row, Py.len. rewrite !length_app. lia.
Qed.

End Listing.

Arguments s3_entry : clear implicits.
Arguments s3_page : clear implicits.
Arguments s3_reply : clear implicits.
Arguments s3_client : clear implicits.
Arguments S3Path : clear implicits.
Arguments gen_event : clear implicits.
Arguments log_line : clear implicits.
Arguments render_state : clear implicits.

(** ** Facts used by the examples *)

Lemma eqb_length (a b : str) :
  Py.eqb a b = true -> List.length a = List.length b.
Proof.
  revert b. induction a as [|x a IH]; intros [|y b] H; try discriminate;
    [reflexivity|].
  cbn in H. apply andb_prop in H. destruct H as [_ H].
  cbn. f_equal. apply IH. exact H.
Qed.

Lemma eqb_longer (a b : str) :
  (List.length b < List.length a)%nat -> Py.eqb a b = false.
Proof.
  intros Hlt. destruct (Py.eqb a b) eqn:H; [|reflexivity].
  apply eqb_length in H. lia.
Qed.

Lemma split_segment (c : N) (s t : str) :
  Forall (fun x => x <> c) s ->
  Py.split c (s ++ c :: t) = s :: Py.split c t.
Proof.
  induction 1 as [|x s Hx _ IH]; cbn.
  - rewrite N.eqb_refl. reflexivity.
  - apply N.eqb_neq in Hx. rewrite Hx, IH. reflexivity.
Qed.

Lemma lower_repeat_x (n : nat) :
  Reference.lower (repeat 120%N n) = repeat 120%N n.
Proof.
  induction n as [|n IH]; [reflexivity|].
  cbn [repeat]. unfold Reference.lower in *. cbn [flat_map].
  rewrite IH. reflexivity.
Qed.


(** ** Worked examples on the reference runtime *)

Module Examples.

#[local] Existing Instance Reference.runtime.

Abbreviation timestamp := Reference.printed_datetime.

Definition directory (prefix : str) : s3_entry timestamp :=
  {| Prefix := Some prefix; Key := None; LastModified := None; Size := None |}.

Definition object_without_timestamp (key : str) : s3_entry timestamp :=
  {| Prefix := None; Key := Some key; LastModified := None; Size := None |}.

Definition object (key : str) (size : Z) (iso ctime : str) : s3_entry timestamp :=
  {| Prefix := None; Key := Some key;
     LastModified :=
       Some {| Reference.iso_text := iso; Reference.ctime_text := ctime |};
     Size := Some size |}.

Definition directory_path (absolute name : str) : S3Path timestamp :=
  {| _is_dir := true; _is_symlink := false; _last_modified := None;
     _size := 0; _absolute := absolute; name := name |}.

Definition request_for (uri querystring : str) : cf_request unit unit :=
  {| headers := tt; uri := Some uri; querystring := Some querystring;
     other := tt |}.

Definition first_call (prefix : str) : s3_call :=
  {| arg_Bucket := bucket_name; arg_Prefix := prefix;
     arg_Delimiter := [slash]; arg_ContinuationToken := None |}.

Definition next_call (prefix : str) (page_no : nat) : s3_call :=
  {| arg_Bucket := bucket_name; arg_Prefix := prefix;
     arg_Delimiter := [slash]; arg_ContinuationToken := Some page_no |}.

(** *** A listing that is cut after an unreadable entry *)

(** Under d/: a first page with one object that has no LastModified, a
    second page with one directory named [long]. *)
Definition cut_store (long : str) : s3_client timestamp :=
  {| list_objects_v2 := fun _ _ _ =>
       TruncatedPage
         {| CommonPrefixes := [];
            Contents := [object_without_timestamp (lit "d/bad")] |}
         (LastPage
            {| CommonPrefixes := [directory (lit "d/" ++ long ++ [slash])];
               Contents := [] |}) |}.

Definition bad_path : S3Path timestamp :=
  {| _is_dir := false; _is_symlink := false; _last_modified := None;
     _size := 0; _absolute := lit "d/bad"; name := lit "bad" |}.

Definition folder_meta : Z * str * str * str := (-1, lit "&mdash;", [], lit "-").

Section LongName.

Variable long : str.
Hypothesis long_no_slash : Forall (fun c => c <> slash) long.
Hypothesis long_length : 1000000 < Py.len long.
Hypothesis long_lower : Reference.lower long = long.

Let long_path : S3Path timestamp := directory_path (lit "d/" ++ long ++ [slash]) long.

Lemma long_name_of_prefix :
  Pathlib.name (Pathlib.Path (lit "d/" ++ long ++ [slash])) = long.
Proof.
  change (lit "d/") with [100%N; slash].
  unfold Pathlib.name, Pathlib.Path, Pathlib.splitroot. cbn [app].
  change (N.eqb 100 slash) with false. cbv iota. cbn [Pathlib.parts].
  change (100%N :: slash :: long ++ [slash]) with ([100%N] ++ slash :: long ++ [slash]).
  rewrite split_segment by (repeat constructor; discriminate).
  rewrite split_segment by exact long_no_slash.
  assert (Hlen : (1 < List.length long)%nat) by (unfold Py.len in long_length; lia).
  cbn [filter Py.split]. 
  rewrite (eqb_longer long []) by (cbn; lia).
  rewrite (eqb_longer long (lit ".")) by (cbn; lia).
  reflexivity.
Qed.

Lemma long_path_init :
  S3Path_init true (directory (lit "d/" ++ long ++ [slash])) = inr long_path.
Proof.
  unfold S3Path_init, directory. cbn [Prefix Key LastModified Size option_map].
  change (lit "d/") with [100%N; slash]. cbn [app Py.lstrip].
  change (N.eqb 100 slash) with false. cbv iota.
  change [100%N; slash] with (lit "d/").
  change (100%N :: slash :: long ++ [slash]) with (lit "d/" ++ long ++ [slash]).
  rewrite long_name_of_prefix. reflexivity.
Qed.

Lemma long_path_counted : is_index long_path = false.
Proof.
  unfold is_index. cbn [name long_path directory_path lower Reference.runtime].
  rewrite long_lower. apply eqb_longer.
  unfold Py.len in long_length. cbn. lia.
Qed.

Lemma long_path_meta : inspect long_path = inr folder_meta.
Proof. reflexivity. Qed.

Lemma long_row_over_limit (written : str) :
  1000000 < Py.len (written ++ entry_row long_path folder_meta).
Proof.
  rewrite len_app.
  pose proof (name_within_row long_path folder_meta) as H.
  pose proof (len_nonneg written). cbn [name long_path directory_path] in H. lia.
Qed.

Lemma cut_store_events :
  s3_list_dir (cut_store long) bucket_name
              (Pathlib.to_str (Pathlib.Path (lit "/d")))
  = [Call (first_call (lit "d/")) None; Yield (inr bad_path);
     Call (next_call (lit "d/") 0) None]
    ++ Yield (inr long_path) :: [].
Proof.
  assert (Hfiles : yield_contents (lit "d/") [object_without_timestamp (lit "d/bad")]
                   = ([Yield (inr bad_path)], None)) by reflexivity.
  assert (Hdirs : yield_common_prefixes [directory (lit "d/" ++ long ++ [slash])]
                  = ([Yield (inr long_path)], None)).
  { cbn [yield_common_prefixes]. rewrite long_path_init. reflexivity. }
  change (Pathlib.to_str (Pathlib.Path (lit "/d"))) with (lit "/d").
  unfold s3_list_dir.
  change (Py.lstrip slash (lit "/d")) with (lit "d").
  cbv beta zeta.
  change (negb (existsb (Py.eqb (lit "d")) [[]; lit "."; [slash]])) with true.
  cbv iota.
  change (Py.rstrip slash (lit "d") ++ [slash]) with (lit "d/").
  unfold cut_store. cbn [list_objects_v2 s3_pages].
  unfold page_events. cbn [CommonPrefixes Contents].
  rewrite Hfiles, Hdirs. reflexivity.
Qed.

(** The run of the renderer on this store with offset 0. *)
Lemma cut_store_run :
  let run := process_dir (cut_store long) bucket_name (Pathlib.Path (lit "/d")) 0 in
  snd run =
    inr ((body_top_head ++ lit "d" ++ body_top_tail)
         ++ truncation_notice 3
         ++ entry_row long_path folder_meta ++ footer, 2)
  /\ emitted (fst run) = [(2, long_path)]
  /\ calls (fst run) =
       [(first_call (lit "d/"), None); (next_call (lit "d/") 0, None)].
Proof.
  pose proof (process_dir_cut (RT := Reference.runtime) (cut_store long) bucket_name (Pathlib.Path (lit "/d"))
                _ _ long_path folder_meta cut_store_events eq_refl
                long_path_counted long_path_meta) as H.
  cbv zeta in H.
  change (counted (entries_of
            [Call (first_call (lit "d/")) None; Yield (inr bad_path);
             Call (next_call (lit "d/") 0) None])) with [bad_path] in H.
  change (rows [bad_path]) with (@nil N) in H.
  specialize (H ltac:(cbn; lia) (long_row_over_limit [])).
  destruct H as (Hres & Hem & _ & _ & Hcalls).
  cbv zeta. repeat split; assumption.
Qed.

End LongName.

(** A directory name of 1,000,001 letters x. *)
Definition long_name : str := repeat 120%N (Z.to_nat 1000001).

Lemma long_name_no_slash : Forall (fun c => c <> slash) long_name.
Proof.
  apply Forall_forall. intros c Hin. apply repeat_spec in Hin.
  subst c. discriminate.
Qed.

Lemma long_name_length : 1000000 < Py.len long_name.
Proof. unfold Py.len, long_name. rewrite repeat_length. lia. Qed.

Lemma long_name_lower : Reference.lower long_name = long_name.
Proof. apply lower_repeat_x. Qed.

Definition long_path : S3Path timestamp :=
  directory_path (lit "d/" ++ long_name ++ [slash]) long_name.

(** C3 as stated fails.  Under d/ the store lists an object without
    LastModified and then a directory whose row is longer than 1,000,000
    characters: the rows first exceed the limit at the entry of index 2,
    the count returned is 2 and the link is entry=3, yet the document has
    one row, not two. *)
Lemma cut_after_unreadable_entry_has_one_row :
  let run :=
    process_dir (cut_store long_name) bucket_name (Pathlib.Path (lit "/d")) 0 in
  s3_list_dir (cut_store long_name) bucket_name
              (Pathlib.to_str (Pathlib.Path (lit "/d")))
    = [Call (first_call (lit "d/")) None; Yield (inr bad_path);
       Call (next_call (lit "d/") 0) None; Yield (inr long_path)]
  /\ snd run =
       inr ((body_top_head ++ lit "d" ++ body_top_tail)
            ++ truncation_notice 3
            ++ entry_row long_path folder_meta ++ footer, 2)
  /\ emitted (fst run) = [(2, long_path)]
  /\ List.length (emitted (fst run)) <> 2%nat.
Proof.
  pose proof (cut_store_run long_name long_name_no_slash long_name_length
                long_name_lower) as (Hres & Hem & _).
  cbv zeta. split; [|split; [|split]].
  - exact (cut_store_events long_name long_name_no_slash long_name_length).
  - exact Hres.
  - exact Hem.
  - unfold long_path in *. rewrite Hem. discriminate.
Qed.

Lemma listing_cut_at_limit_witness :
  let run :=
    process_dir (cut_store long_name) bucket_name (Pathlib.Path (lit "/d")) 0 in
  is_index long_path = false
  /\ inspect long_path = inr folder_meta
  /\ 1000000 < Py.len (rows [bad_path] ++ entry_row long_path folder_meta)
  /\ snd run =
       inr ((body_top_head ++ lit "d" ++ body_top_tail)
            ++ truncation_notice 3
            ++ entry_row long_path folder_meta ++ footer, 2)
  /\ Z.of_nat (List.length (emitted (fst run))) = 2 - 1
  /\ calls (fst run) =
       [(first_call (lit "d/"), None); (next_call (lit "d/") 0, None)].
Proof.
  pose proof (long_path_counted long_name long_name_length long_name_lower)
    as Hidx.
  pose proof (long_row_over_limit long_name long_name_length []) as Hover.
  pose proof (listing_cut_at_limit (RT := Reference.runtime) (cut_store long_name) bucket_name
                (Pathlib.Path (lit "/d")) _ _ long_path folder_meta
                (cut_store_events long_name long_name_no_slash
                   long_name_length)
                eq_refl Hidx eq_refl) as H.
  cbv zeta in H.
  change (counted (entries_of
            [Call (first_call (lit "d/")) None; Yield (inr bad_path);
             Call (next_call (lit "d/") 0) None])) with [bad_path] in H.
  change (rows [bad_path]) with (@nil N) in H.
  specialize (H ltac:(cbn; lia) Hover).
  destruct H as (Hres & _ & Hlen & _ & Hcalls).
  cbv zeta. change (rows [bad_path]) with (@nil N).
  split; [exact Hidx|]. split; [reflexivity|]. split; [exact Hover|].
  split; [exact Hres|]. split; [|exact Hcalls].
  rewrite Hlen. reflexivity.
Defined.


(** *** A directory with two sub-directories *)

Definition empty_page : s3_page timestamp := {| CommonPrefixes := []; Contents := [] |}.

(** Under a/: the directories a/x/ and a/y/; nothing elsewhere. *)
Definition two_dirs : s3_client timestamp :=
  {| list_objects_v2 := fun _ prefix _ =>
       if Py.eqb prefix (lit "a/")
       then LastPage {| CommonPrefixes := [directory (lit "a/x/");
                                           directory (lit "a/y/")];
                        Contents := [] |}
       else LastPage empty_page |}.

Definition x_path : S3Path timestamp := directory_path (lit "a/x/") (lit "x").
Definition y_path : S3Path timestamp := directory_path (lit "a/y/") (lit "y").

Lemma two_dirs_events :
  s3_list_dir two_dirs bucket_name (Pathlib.to_str (Pathlib.Path (lit "/a")))
  = [Call (first_call (lit "a/")) None; Yield (inr x_path)]
    ++ Yield (inr y_path) :: [].
Proof. reflexivity. Qed.

(** C2 as stated fails.  With offset 1 the entry whose running count is 1
    has its row written, and the first row written is not that of the
    entry whose running count is 2. *)
Lemma offset_one_shows_first_entry :
  let st := fst (process_dir two_dirs bucket_name (Pathlib.Path (lit "/a")) 1) in
  emitted st = [(1, x_path); (2, y_path)]
  /\ ~ Forall (fun ce => 1 < fst ce) (emitted st)
  /\ hd_error (map fst (emitted st)) <> Some (1 + 1).
Proof.
  assert (H : emitted (fst (process_dir two_dirs bucket_name
                              (Pathlib.Path (lit "/a")) 1))
              = [(1, x_path); (2, y_path)]) by (vm_compute; reflexivity).
  cbv zeta. rewrite H. split; [reflexivity|]. split.
  - intros Hall. inversion Hall as [|? ? Hlt _]. cbn in Hlt. lia.
  - cbn. discriminate.
Qed.

Lemma offset_skips_counts_below_witness :
  1 <= 2
  /\ exists more tail,
       emitted (fst (render_loop 2
                       (s3_list_dir two_dirs bucket_name
                          (Pathlib.to_str (Pathlib.Path (lit "/a"))))
                       (initial_state (Pathlib.Path (lit "/a")))))
         = (2, y_path) :: more
       /\ index_file (fst (render_loop 2
                       (s3_list_dir two_dirs bucket_name
                          (Pathlib.to_str (Pathlib.Path (lit "/a"))))
                       (initial_state (Pathlib.Path (lit "/a")))))
          = entry_row y_path folder_meta ++ tail.
Proof.
  split; [lia|].
  destruct (offset_skips_counts_below (RT := Reference.runtime) 2
              (s3_list_dir two_dirs bucket_name
                 (Pathlib.to_str (Pathlib.Path (lit "/a"))))
              (Pathlib.Path (lit "/a")) ltac:(lia)) as [_ H].
  exact (H _ y_path _ folder_meta two_dirs_events eq_refl eq_refl eq_refl
           eq_refl).
Defined.

(** *** Requests *)

Definition listing_request : cf_request unit unit := request_for (lit "/a/") [].

Definition listing_document : str :=
  (body_top_head ++ lit "a" ++ body_top_tail)
  ++ rows [x_path; y_path] ++ footer.

Lemma two_dirs_run :
  process_dir two_dirs bucket_name
    (Pathlib.Path (dir_key (unquote (get_or_empty (uri listing_request))))) 0
  = (fst (process_dir two_dirs bucket_name (Pathlib.Path (lit "/a")) 0),
     inr (listing_document, 2)).
Proof. vm_compute. reflexivity. Qed.

Lemma response_decided_by_entry_count_witness :
  Py.contains (lit "..") (get_or_empty (uri listing_request)) = false
  /\ match snd (lambda_handler two_dirs listing_request) with
     | ReturnResponse response =>
         status response = lit "200" /\ body response = listing_document
     | _ => False
     end.
Proof.
  split; [reflexivity|].
  destruct (response_decided_by_entry_count (RT := Reference.runtime) two_dirs listing_request 0 _ _ _
              eq_refl eq_refl two_dirs_run) as [_ H].
  destruct (H ltac:(lia)) as (response & Hrun & Hstatus & _ & _ & _ & Hbody).
  rewrite Hrun. cbn [snd]. split; assumption.
Defined.

(** A request whose URI holds the two dots as they are. *)
Definition dotdot_request : cf_request unit unit :=
  request_for (lit "/foo/../bar") [].

Lemma dotdot_in_received_uri_passes_through_witness :
  entry_offset_of (parse_qs (get_or_empty (querystring dotdot_request))) = inr 0
  /\ Py.contains (lit "..") (get_or_empty (uri dotdot_request)) = true
  /\ lambda_handler two_dirs dotdot_request = ([], [], ReturnRequest dotdot_request).
Proof.
  split; [reflexivity|]. split; [reflexivity|].
  destruct (dotdot_in_received_uri_passes_through (RT := Reference.runtime) two_dirs dotdot_request 0
              eq_refl) as [H _].
  exact (H eq_refl).
Defined.

(** Under foo/../bar/ (a key prefix like any other for the store): one
    directory. *)
Definition dots_store : s3_client timestamp :=
  {| list_objects_v2 := fun _ prefix _ =>
       if Py.eqb prefix (lit "foo/../bar/")
       then LastPage {| CommonPrefixes := [directory (lit "foo/../bar/x/")];
                        Contents := [] |}
       else LastPage empty_page |}.

(** The same URI with the dots percent-encoded. *)
Definition escaped_request : cf_request unit unit :=
  request_for (lit "/foo/%2e%2e/bar") [].

(** The URI /foo/../bar with an entry parameter that is no integer. *)
Definition dotdot_bad_offset_request : cf_request unit unit :=
  request_for (lit "/foo/../bar") (lit "entry=abc").

(** C1 as stated fails.  The decoded URI of /foo/%2e%2e/bar contains
    "..", yet the handler lists the prefix foo/../bar/ in the store and
    answers with the listing; and the request for /foo/../bar itself is
    not handed back when its entry parameter is no integer: the handler
    raises. *)
Lemma escaped_dotdot_is_listed :
  Py.contains (lit "..") (unquote (get_or_empty (uri escaped_request))) = true
  /\ unquote (get_or_empty (uri escaped_request)) = lit "/foo/../bar"
  /\ fst (fst (lambda_handler dots_store escaped_request))
     = [(first_call (lit "foo/../bar/"), None)]
  /\ match snd (lambda_handler dots_store escaped_request) with
     | ReturnResponse response => status response = lit "200"
     | _ => False
     end
  /\ lambda_handler dots_store escaped_request
     <> ([], [], ReturnRequest escaped_request)
  /\ Py.contains (lit "..")
       (unquote (get_or_empty (uri dotdot_bad_offset_request))) = true
  /\ lambda_handler dots_store dotdot_bad_offset_request
     = ([], [], Raises ValueError).
Proof.
  split; [reflexivity|]. split; [reflexivity|].
  assert (Hcalls : fst (fst (lambda_handler dots_store escaped_request))
                   = [(first_call (lit "foo/../bar/"), None)])
    by (vm_compute; reflexivity).
  split; [exact Hcalls|]. split; [vm_compute; reflexivity|].
  split; [|split; reflexivity].
  intros H. rewrite H in Hcalls. discriminate.
Qed.

(** *** A store whose second call fails *)

Definition denied : exn := ClientError (lit "AccessDenied").

Definition failing_store : s3_client timestamp :=
  {| list_objects_v2 := fun _ _ _ =>
       TruncatedPage {| CommonPrefixes := [directory (lit "a/x/")];
                        Contents := [] |}
                     (Raised denied) |}.

Lemma failed_listing_call_fails_invocation_witness :
  In (next_call (lit "a/") 0, Some denied)
     (fst (fst (lambda_handler failing_store listing_request)))
  /\ snd (lambda_handler failing_store listing_request) = Raises denied.
Proof.
  assert (Hin : In (next_call (lit "a/") 0, Some denied)
                   (fst (fst (lambda_handler failing_store listing_request))))
    by (vm_compute; right; left; reflexivity).
  split; [exact Hin|].
  destruct (failed_listing_call_fails_invocation (RT := Reference.runtime) failing_store listing_request)
    as (_ & _ & _ & H).
  exact (H _ _ Hin).
Defined.

(** *** An entry without a timestamp *)


(** *** An entry parameter that is no integer *)

Definition bad_offset_request : cf_request unit unit :=
  request_for (lit "/a/") (lit "entry=abc").

Lemma entry_not_an_integer_raises_witness :
  dict_get (lit "entry")
           (parse_qs (get_or_empty (querystring bad_offset_request)))
    = Some [lit "abc"]
  /\ int (lit "abc") = None
  /\ lambda_handler two_dirs bad_offset_request = ([], [], Raises ValueError).
Proof.
  split; [reflexivity|]. split; [reflexivity|].
  destruct (entry_not_an_integer_raises (RT := Reference.runtime) two_dirs bad_offset_request
              (lit "abc") [] eq_refl eq_refl) as [H _].
  exact H.
Defined.

(** *** An entry parameter with a blank value *)

Definition blank_offset_request : cf_request unit unit :=
  request_for (lit "/a/") (lit "entry=").

Definition underscore_offset_request : cf_request unit unit :=
  request_for (lit "/a/") (lit "entry=1_2").

(** C10 as stated fails.  The query string entry= carries an entry
    parameter whose value is the empty text, which is no decimal integer
    and which int() rejects; parse_qs drops the blank field, so the
    handler takes the default offset 0, calls the store and answers 200
    with the listing, as it does for the request without query string.
    The value 1_2 is no string of decimal digits either: int() reads it
    as 12 and the handler answers 200. *)
Lemma blank_entry_falls_back_to_offset_zero :
  querystring blank_offset_request = Some (lit "entry=")
  /\ int [] = None
  /\ entry_offset_of
       (parse_qs (get_or_empty (querystring blank_offset_request)))
     = inr 0
  /\ fst (fst (lambda_handler two_dirs blank_offset_request))
     = [(first_call (lit "a/"), None)]
  /\ snd (lambda_handler two_dirs blank_offset_request)
     = ReturnResponse (listing_response listing_document)
  /\ status (listing_response listing_document) = lit "200"
  /\ lambda_handler two_dirs blank_offset_request
     = lambda_handler two_dirs listing_request
  /\ entry_offset_of
       (parse_qs (get_or_empty (querystring underscore_offset_request)))
     = inr 12
  /\ exists response,
       snd (lambda_handler two_dirs underscore_offset_request)
       = ReturnResponse response
       /\ status response = lit "200".
Proof.
  assert (Hrun : snd (lambda_handler two_dirs blank_offset_request)
                 = ReturnResponse (listing_response listing_document))
    by (vm_compute; reflexivity).
  assert (Hsame : lambda_handler two_dirs blank_offset_request
                  = lambda_handler two_dirs listing_request)
    by (vm_compute; reflexivity).
  split; [reflexivity|]. split; [reflexivity|]. split; [reflexivity|].
  split; [vm_compute; reflexivity|]. split; [exact Hrun|].
  split; [reflexivity|].
  split; [exact Hsame|].
  split; [reflexivity|].
  eexists. split; [vm_compute; reflexivity|reflexivity].
Qed.

(** A blank entry value is dropped by [parse_qs]: the offset is 0. *)
Example blank_entry_is_no_parameter :
  entry_offset_of (parse_qs (lit "entry=")) = inr 0
  /\ entry_offset_of (parse_qs (lit "entry=3")) = inr 3
  /\ entry_offset_of (parse_qs (lit "entry=x&entry=3")) = inl ValueError.
Proof. repeat split. Qed.

(** *** The directory key *)

(** The derivation as the design document words it: without the trailing
    separator; else without the suffix index.html and the separator before
    it; else the URI. *)
Definition dir_key_as_worded (uri : str) : str :=
  if Py.endswith [slash] uri then removelast uri
  else if Py.endswith DEFAULT_OUTPUT_FILE uri then
    let stem := firstn (List.length uri - List.length DEFAULT_OUTPUT_FILE) uri in
    if Py.endswith [slash] stem then removelast stem else stem
  else uri.

(** The first call the generator makes for a URI. *)
Definition listed_prefix (uri : str) : option str :=
  match s3_list_dir two_dirs bucket_name
          (Pathlib.to_str (Pathlib.Path (dir_key (unquote uri)))) with
  | Call args _ :: _ => Some (arg_Prefix args)
  | _ => None
  end.

Lemma dir_key_examples :
  dir_key (lit "/a/b/") = lit "/a/b"
  /\ dir_key (lit "/a/b/index.html") = lit "/a/b"
  /\ dir_key (lit "/a/b") = lit "/a/b"
  /\ listed_prefix (lit "/a/b/") = Some (lit "a/b/")
  /\ listed_prefix (lit "/a/b/index.html") = Some (lit "a/b/")
  /\ listed_prefix (lit "/a/b") = Some (lit "a/b/")
  /\ dir_key_as_worded (lit "/a/b/") = lit "/a/b"
  /\ dir_key_as_worded (lit "/a/b/index.html") = lit "/a/b"
  /\ dir_key_as_worded (lit "/a/b") = lit "/a/b".
Proof. repeat split. Qed.

(** Under a/: the objects a/myindex.html and a/notes.txt. *)
Definition objects_store : s3_client timestamp :=
  {| list_objects_v2 := fun _ prefix _ =>
       if Py.eqb prefix (lit "a/")
       then LastPage
              {| CommonPrefixes := [];
                 Contents :=
                   [object (lit "a/myindex.html") 2048
                      (lit "2021-06-23T23:29:59+00:00")
                      (lit "Wed Jun 23 23:29:59 2021");
                    object (lit "a/notes.txt") 10
                      (lit "2021-06-23T23:29:59+00:00")
                      (lit "Wed Jun 23 23:29:59 2021")] |}
       else LastPage empty_page |}.

Definition myindex_request : cf_request unit unit :=
  request_for (lit "/a/myindex.html") [].

Definition notes_request : cf_request unit unit :=
  request_for (lit "/a/notes.txt") [].

(** C7 at the URI /a/myindex.html, which ends in index.html without being
    the file index.html of a directory: the key derived is /a, the whole
    last segment being dropped where the claim drops the suffix index.html
    and the separator before it; the handler lists a/ and answers the
    request for the object with the listing of its directory, while the
    request for the object next to it is handed back to the origin. *)
Theorem index_html_suffix_drops_last_segment :
  Py.endswith [slash] (lit "/a/myindex.html") = false
  /\ Py.endswith (lit "index.html") (lit "/a/myindex.html") = true
  /\ dir_key (lit "/a/myindex.html") = lit "/a"
  /\ dir_key_as_worded (lit "/a/myindex.html") = lit "/a/my"
  /\ dir_key (lit "/a/myindex.html") <> dir_key_as_worded (lit "/a/myindex.html")
  /\ dir_key (lit "/a/myindex.html") <> lit "/a/myindex.html"
  /\ fst (fst (lambda_handler objects_store myindex_request))
     = [(first_call (lit "a/"), None)]
  /\ match snd (lambda_handler objects_store myindex_request) with
     | ReturnResponse response => status response = lit "200"
     | _ => False
     end
  /\ lambda_handler objects_store notes_request
     = ([(first_call (lit "a/notes.txt/"), None)], [],
        ReturnRequest notes_request).
Proof.
  repeat split; try (vm_compute; reflexivity); discriminate.
Qed.

End Examples.

(** * Further properties of the renderer, the generator and the handler *)

Section Pages.

Context {datetime : Type} {RT : Runtime datetime}.

(** An entry gets a row when its metadata can be read and its running
    count has reached the offset. *)
Definition shown_at (entry_offset : Z) (ce : Z * S3Path datetime) : bool :=
  readable (snd ce) && (entry_offset <=? fst ce).

(** The rows of a page: among the first [n] counted entries, numbered
    from [c0 + 1], those that are shown. *)
Definition page (entry_offset c0 : Z) (n : nat)
    (entries : list (S3Path datetime)) : list (Z * S3Path datetime) :=
  filter (shown_at entry_offset) (numbered c0 (firstn n entries)).

(** What a walk of the loop over a run without exception amounts to, [n]
    being the number of counted entries it went through. *)
Definition walked (entry_offset : Z) (events : list (gen_event datetime))
    (st st' : render_state datetime) (exit : loop_exit) (n : nat) : Prop :=
  (n <= List.length (counted (entries_of events)))%nat
  /\ entry_count st' = entry_count st + Z.of_nat n
  /\ emitted st' =
       emitted st ++ page entry_offset (entry_count st) n (counted (entries_of events))
  /\ index_file st' =
       index_file st
       ++ rows (map snd (page entry_offset (entry_count st) n
                              (counted (entries_of events))))
  /\ match exit with
     | Exhausted =>
         n = List.length (counted (entries_of events))
         /\ body_top st' = body_top st
     | Broke =>
         body_top st' = body_top st ++ truncation_notice (entry_count st' + 1)
         /\ 1000000 < Py.len (index_file st')
         /\ (0 < n)%nat
         /\ entry_offset <= entry_count st'
     | Raise _ => False
     end.

Lemma walked_index (off : Z) (entry : S3Path datetime)
    (events : list (gen_event datetime)) (st st' : render_state datetime)
    (exit : loop_exit) (n : nat) :
  is_index entry = true ->
  walked off events st st' exit n ->
  walked off (Yield (inr entry) :: events) st st' exit n.
Proof.
  intros Hidx H. unfold walked in *. cbn [entries_of].
  rewrite counted_cons_index by assumption. exact H.
Qed.

Lemma walked_counted (off : Z) (entry : S3Path datetime)
    (events : list (gen_event datetime)) (st st1 st' : render_state datetime)
    (exit : loop_exit) (n : nat) :
  is_index entry = false ->
  entry_count st1 = entry_count st + 1 ->
  body_top st1 = body_top st ->
  emitted st1 =
    emitted st ++ filter (shown_at off) [(entry_count st + 1, entry)] ->
  index_file st1 =
    index_file st
    ++ rows (map snd (filter (shown_at off) [(entry_count st + 1, entry)])) ->
  walked off events st1 st' exit n ->
  walked off (Yield (inr entry) :: events) st st' exit (S n).
Proof.
  intros Hidx Hc Hb He Hi (Hn & Hcount & Hem & Hix & Hexit).
  unfold walked. cbn [entries_of]. rewrite counted_cons by assumption.
  unfold page in *. cbn [firstn numbered List.length].
  rewrite Hc in *. 
  assert (Hsplit : filter (shown_at off)
                     ((entry_count st + 1, entry)
                      :: numbered (entry_count st + 1)
                           (firstn n (counted (entries_of events))))
                   = filter (shown_at off) [(entry_count st + 1, entry)]
                     ++ filter (shown_at off)
                          (numbered (entry_count st + 1)
                             (firstn n (counted (entries_of events))))).
  { cbn [filter]. destruct (shown_at off (entry_count st + 1, entry)); reflexivity. }
  rewrite Hsplit.
  split; [lia|]. split; [lia|].
  split; [rewrite Hem, He, app_assoc; reflexivity|].
  split.
  { rewrite Hix, Hi. unfold rows. rewrite !map_app, concat_app, app_assoc.
    reflexivity. }
  destruct exit as [| |e]; [| |exact Hexit].
  - destruct Hexit as [Hlen Htop]. split; [lia|congruence].
  - destruct Hexit as (Htop & Hover & _ & Hoff).
    split; [congruence|]. split; [exact Hover|]. split; [lia|exact Hoff].
Qed.

(** The loop over a run that yields no exception. *)
Lemma render_loop_walk (off : Z) (events : list (gen_event datetime)) :
  forall st : render_state datetime,
  no_exception events = true ->
  exists n,
    walked off events st (fst (render_loop off events st))
           (snd (render_loop off events st)) n.
Proof.
  induction events as [|ev events IH]; intros st Hexc.
  - exists 0%nat. unfold walked, page. cbn.
    rewrite !app_nil_r, Z.add_0_r. repeat split; auto.
  - destruct ev as [args raised|[e|entry]]; cbn [no_exception forallb] in Hexc.
    + cbn [render_loop].
      match goal with
      | |- context [render_loop off events ?s] =>
          destruct (IH s Hexc) as [n Hn]; exists n
      end.
      exact Hn.
    + discriminate.
    + cbn [render_loop].
      destruct (is_index entry) eqn:Hidx.
      { rewrite process_entry_index by assumption.
        destruct (IH st Hexc) as [n Hn]. exists n.
        apply walked_index; assumption. }
      destruct (Z.lt_ge_cases (entry_count st + 1) off) as [Hlt|Hge].
      { rewrite process_entry_skipped by assumption.
        match goal with
        | |- context [render_loop off events ?s] =>
            destruct (IH s Hexc) as [n Hn]; exists (S n);
            apply (walked_counted off entry events st s)
        end; try assumption; try reflexivity;
          cbn [entry_count body_top emitted index_file filter];
          unfold shown_at; cbn [fst snd];
          (destruct (Z.leb_spec off (entry_count st + 1)); [lia|]);
          rewrite andb_false_r; cbn; rewrite ?app_nil_r; reflexivity. }
      destruct (inspect entry) as [e|meta] eqn:Hins.
      { rewrite (process_entry_unreadable off entry st e) by assumption.
        match goal with
        | |- context [render_loop off events ?s] =>
            destruct (IH s Hexc) as [n Hn]; exists (S n);
            apply (walked_counted off entry events st s)
        end; try assumption; try reflexivity;
          cbn [entry_count body_top emitted index_file filter];
          unfold shown_at, readable; cbn [fst snd]; rewrite Hins;
          cbn; rewrite ?app_nil_r; reflexivity. }
      rewrite (process_entry_row off entry st meta) by assumption.
      assert (Hshown : filter (shown_at off) [(entry_count st + 1, entry)]
                       = [(entry_count st + 1, entry)]).
      { cbn [filter]. unfold shown_at, readable. cbn [fst snd]. rewrite Hins.
        destruct (Z.leb_spec off (entry_count st + 1)); [reflexivity|lia]. }
      assert (Hrow : rows (map snd [(entry_count st + 1, entry)])
                     = entry_row entry meta).
      { unfold rows, row_text. cbn. rewrite Hins, app_nil_r. reflexivity. }
      destruct (Z.ltb_spec 1000000
                  (Py.len (index_file st ++ entry_row entry meta))) as [Hover|Hfit].
      { exists 1%nat. cbn [fst snd]. unfold walked, page.
        cbn [entries_of]. rewrite counted_cons by assumption.
        cbn [firstn numbered List.length entry_count emitted index_file body_top].
        rewrite Hshown, Hrow.
        repeat split; try reflexivity; try lia. }
      match goal with
      | |- context [render_loop off events ?s] =>
          destruct (IH s Hexc) as [n Hn]; exists (S n);
          apply (walked_counted off entry events st s)
      end; try assumption; try reflexivity;
        cbn [entry_count body_top emitted index_file];
        rewrite ?Hshown, ?Hrow; reflexivity.
Qed.

(** *** Lists of numbered entries *)




Lemma filter_none {A : Type} (p : A -> bool) (l : list A) :
  Forall (fun x => p x = false) l -> filter p l = [].
Proof.
  induction 1 as [|x l Hx _ IH]; [reflexivity|]. cbn. rewrite Hx. exact IH.
Qed.




(** *** The pages of a listing *)

(** X1: when the enumeration yields no exception, the renderer returns a
    count k that is at most the number of entries not named index.html,
    and the rows of its document are those of the entries, among the first
    k of them, whose metadata can be read and whose running count is at
    least the offset, in the order of the enumeration. *)
Theorem page_holds_entries_from_offset_to_count (s3_conn : s3_client datetime)
    (bucket : str) (path_top_dir : Pathlib.PurePath) (entry_offset : Z) :
  no_exception (s3_list_dir s3_conn bucket (Pathlib.to_str path_top_dir)) = true ->
  let entries :=
    counted (entries_of (s3_list_dir s3_conn bucket (Pathlib.to_str path_top_dir))) in
  let run := process_dir s3_conn bucket path_top_dir entry_offset in
  match snd run with
  | inr (document, k) =>
      0 <= k <= Z.of_nat (List.length entries)
      /\ emitted (fst run) = page entry_offset 0 (Z.to_nat k) entries
      /\ document =
           body_top (fst run)
           ++ rows (map snd (page entry_offset 0 (Z.to_nat k) entries)) ++ footer
  | inl _ => False
  end.
Proof.
  intros Hexc. cbv zeta. unfold process_dir.
  destruct (render_loop_walk entry_offset _ (initial_state path_top_dir) Hexc)
    as [n (Hn & Hcount & Hem & Hix & Hexit)].
  destruct (render_loop entry_offset _ (initial_state path_top_dir))
    as [st exit].
  cbn [fst snd initial_state entry_count emitted index_file app] in *.
  destruct exit as [| |e]; [| |contradiction];
    cbn [fst snd entry_count emitted body_top index_file];
    rewrite Hcount, Z.add_0_l, Nat2Z.id;
    (split; [lia|]); (split; [exact Hem|]); rewrite Hix; reflexivity.
Qed.



(** X3: for a request that passes the path check and whose offset is
    read, when the enumeration yields no exception the handler hands the
    request back exactly when the enumeration yields no entry but entries
    named index.html, and otherwise answers with a response. *)
Theorem passthrough_iff_nothing_to_list {Headers Other : Type}
    (s3_conn : s3_client datetime) (request : cf_request Headers Other)
    (entry_offset : Z) :
  Py.contains (lit "..") (get_or_empty (uri request)) = false ->
  entry_offset_of (parse_qs (get_or_empty (querystring request)))
    = inr entry_offset ->
  let events :=
    s3_list_dir s3_conn bucket_name
      (Pathlib.to_str
         (Pathlib.Path (dir_key (unquote (get_or_empty (uri request)))))) in
  no_exception events = true ->
  (counted (entries_of events) = [] ->
   snd (lambda_handler s3_conn request) = ReturnRequest request)
  /\ (counted (entries_of events) <> [] ->
      exists response,
        snd (lambda_handler s3_conn request) = ReturnResponse response).
Proof.
  intros Hpath Hoff events Hexc. subst events.
  unfold lambda_handler. rewrite Hoff, Hpath. unfold process_dir.
  destruct (render_loop_walk entry_offset _
              (initial_state
                 (Pathlib.Path (dir_key (unquote (get_or_empty (uri request))))))
              Hexc)
    as [n (Hn & Hcount & _ & _ & Hexit)].
  destruct (render_loop entry_offset _ _) as [st exit].
  cbn [fst snd initial_state entry_count] in *. rewrite Z.add_0_l in Hcount.
  assert (Hzero : counted (entries_of
                    (s3_list_dir s3_conn bucket_name
                       (Pathlib.to_str
                          (Pathlib.Path
                             (dir_key (unquote (get_or_empty (uri request))))))))
                  = [] <-> entry_count st = 0).
  { rewrite Hcount. split.
    - intros Hnil. rewrite Hnil in Hn. cbn in Hn. lia.
    - intros Hz. destruct exit as [| |e]; [| |contradiction].
      + destruct Hexit as [Hall _]. apply length_zero_iff_nil. lia.
      + destruct Hexit as (_ & _ & Hpos & _). lia. }
  destruct exit as [| |e]; [| |contradiction]; cbn [snd];
    (destruct (Z.eqb_spec (entry_count st) 0) as [Hz|Hnz]; cbn [snd];
     [split; [reflexivity|]; intros Hne; apply Hzero in Hz; contradiction
     |split; [intros Hnil; apply Hzero in Hnil; contradiction|]; eauto]).
Qed.

(** X4: an offset of 1 or less, negative ones included, gives the page
    that offset 0 gives: the same document, count, calls and prints. *)
Theorem offset_up_to_one_is_offset_zero (s3_conn : s3_client datetime)
    (bucket : str) (path_top_dir : Pathlib.PurePath) (entry_offset : Z) :
  entry_offset <= 1 ->
  process_dir s3_conn bucket path_top_dir entry_offset
  = process_dir s3_conn bucket path_top_dir 0.
Proof.
  intros Hoff. unfold process_dir.
  assert (Hloop : forall events (st : render_state datetime),
             0 <= entry_count st ->
             render_loop entry_offset events st = render_loop 0 events st).
  { induction events as [|ev events IH]; intros st Hc; [reflexivity|].
    destruct ev as [args raised|[e|entry]]; cbn [render_loop].
    - apply IH. exact Hc.
    - reflexivity.
    - assert (Hstep : process_entry entry_offset entry st
                      = process_entry 0 entry st).
      { unfold process_entry.
        destruct (Z.ltb_spec (entry_count st + 1) entry_offset); [lia|].
        destruct (Z.ltb_spec (entry_count st + 1) 0); [lia|]. reflexivity. }
      rewrite Hstep.
      destruct (process_entry 0 entry st) as [st1 t] eqn:Hpe.
      destruct t; [|reflexivity].
      apply IH. apply process_entry_emits in Hpe. lia. }
  rewrite Hloop by (cbn; lia). reflexivity.
Qed.


(** The size of what the loop has written. *)
Lemma render_loop_size (off : Z) (events : list (gen_event datetime)) :
  forall st : render_state datetime,
  Py.len (index_file st) <= 1000000 ->
  match snd (render_loop off events st) with
  | Broke =>
      exists prev entry meta,
        index_file (fst (render_loop off events st))
          = prev ++ entry_row entry meta
        /\ Py.len prev <= 1000000
        /\ 1000000 < Py.len (prev ++ entry_row entry meta)
        /\ body_top (fst (render_loop off events st))
           = body_top st
             ++ truncation_notice
                  (entry_count (fst (render_loop off events st)) + 1)
  | _ =>
      Py.len (index_file (fst (render_loop off events st))) <= 1000000
      /\ body_top (fst (render_loop off events st)) = body_top st
  end.
Proof.
  induction events as [|ev events IH]; intros st Hlen.
  - cbn. auto.
  - destruct ev as [args raised|[e|entry]]; cbn [render_loop].
    + match goal with
      | |- context [render_loop off events ?s] => exact (IH s Hlen)
      end.
    + cbn. auto.
    + destruct (is_index entry) eqn:Hidx.
      { rewrite process_entry_index by assumption. exact (IH st Hlen). }
      destruct (Z.lt_ge_cases (entry_count st + 1) off) as [Hlt|Hge].
      { rewrite process_entry_skipped by assumption.
        match goal with
        | |- context [render_loop off events ?s] => exact (IH s Hlen)
        end. }
      destruct (inspect entry) as [e|meta] eqn:Hins.
      { rewrite (process_entry_unreadable off entry st e) by assumption.
        match goal with
        | |- context [render_loop off events ?s] => exact (IH s Hlen)
        end. }
      rewrite (process_entry_row off entry st meta) by assumption.
      destruct (Z.ltb_spec 1000000
                  (Py.len (index_file st ++ entry_row entry meta))) as [Hover|Hfit].
      * cbn [fst snd index_file body_top entry_count].
        exists (index_file st), entry, meta. auto.
      * match goal with
        | |- context [render_loop off events ?s] => exact (IH s Hfit)
        end.
Qed.

(** X6: the rows of a document exceed 1,000,000 characters only by the
    last row, and exactly then the notice with the link to the returned
    count plus one stands in the top of the page: either the rows are
    within the limit and the top is the plain one, or the rows without the
    last one are within the limit, the rows with it are not, and the
    top ends with the notice. *)
Theorem rows_exceed_limit_by_last_row_only (s3_conn : s3_client datetime)
    (bucket : str) (path_top_dir : Pathlib.PurePath) (entry_offset : Z) :
  let top := body_top_head ++ Pathlib.name path_top_dir ++ body_top_tail in
  match snd (process_dir s3_conn bucket path_top_dir entry_offset) with
  | inr (document, k) =>
      (exists written,
         document = top ++ written ++ footer /\ Py.len written <= 1000000)
      \/ (exists prev entry meta,
            document =
              (top ++ truncation_notice (k + 1))
              ++ (prev ++ entry_row entry meta) ++ footer
            /\ Py.len prev <= 1000000
            /\ 1000000 < Py.len (prev ++ entry_row entry meta))
  | inl _ => True
  end.
Proof.
  cbv zeta. unfold process_dir.
  pose proof (render_loop_size entry_offset
                (s3_list_dir s3_conn bucket (Pathlib.to_str path_top_dir))
                (initial_state path_top_dir)) as H.
  specialize (H ltac:(cbn; lia)).
  destruct (render_loop entry_offset _ (initial_state path_top_dir))
    as [st exit].
  cbn [fst snd initial_state body_top] in H.
  destruct exit as [| |e]; cbn [snd]; [| |exact I].
  - destruct H as [Hlen Htop]. left. exists (index_file st).
    rewrite Htop. auto.
  - destruct H as (prev & entry & meta & Hix & Hprev & Hover & Htop).
    right. exists prev, entry, meta. rewrite Htop, Hix. auto.
Qed.

End Pages.

(** ** Facts about strings and paths *)

Lemma eqb_refl (a : str) : Py.eqb a a = true.
Proof.
  induction a as [|x a IH]; [reflexivity|]. cbn. rewrite N.eqb_refl. exact IH.
Qed.

Lemma eqb_eq (a b : str) : Py.eqb a b = true <-> a = b.
Proof.
  split; [|intros ->; apply eqb_refl].
  revert b. induction a as [|x a IH]; intros [|y b] H; try discriminate;
    [reflexivity|].
  cbn in H. apply andb_prop in H. destruct H as [Hx H].
  apply N.eqb_eq in Hx. subst y. f_equal. apply IH. exact H.
Qed.

Lemma eqb_neq (a b : str) : Py.eqb a b = false <-> a <> b.
Proof.
  split.
  - intros H Heq. apply eqb_eq in Heq. congruence.
  - intros H. destruct (Py.eqb a b) eqn:E; [|reflexivity].
    apply eqb_eq in E. contradiction.
Qed.

(** What [lstrip] leaves does not start with the character. *)
Lemma lstrip_head (c : N) (s : str) : hd_error (Py.lstrip c s) <> Some c.
Proof.
  induction s as [|x s IH]; cbn; [discriminate|].
  destruct (N.eqb_spec x c); [exact IH|]. cbn. congruence.
Qed.

Lemma lstrip_id (c : N) (s : str) :
  hd_error s <> Some c -> Py.lstrip c s = s.
Proof.
  destruct s as [|x s]; [reflexivity|]. cbn. intros H.
  destruct (N.eqb_spec x c); [subst; contradiction|reflexivity].
Qed.

Lemma lstrip_app (c : N) (a b : str) :
  Py.lstrip c (a ++ b) =
    match Py.lstrip c a with
    | [] => Py.lstrip c b
    | s => s ++ b
    end.
Proof.
  induction a as [|x a IH]; [reflexivity|]. cbn.
  destruct (N.eqb x c); [exact IH|reflexivity].
Qed.

(** [rstrip], read from the left. *)
Lemma rstrip_cons (c x : N) (s : str) :
  Py.rstrip c (x :: s) =
    match Py.rstrip c s with
    | [] => if N.eqb x c then [] else [x]
    | t => x :: t
    end.
Proof.
  unfold Py.rstrip. cbn [rev]. rewrite lstrip_app.
  destruct (Py.lstrip c (rev s)) as [|y t] eqn:E.
  - cbn. destruct (N.eqb x c); reflexivity.
  - cbn [rev]. rewrite rev_app_distr. cbn.
    destruct (rev t ++ [y]) eqn:E2; [destruct (rev t); discriminate|].
    reflexivity.
Qed.

Lemma rstrip_nil_inv (c : N) (s : str) :
  Py.rstrip c s = [] -> Forall (fun x => x = c) s.
Proof.
  induction s as [|x s IH]; [constructor|]. rewrite rstrip_cons.
  destruct (Py.rstrip c s) eqn:E; [|discriminate].
  destruct (N.eqb_spec x c); [|discriminate]. intros _. constructor; auto.
Qed.

(** What [rstrip] leaves does not end with the character, and it starts
    as the string does unless nothing is left. *)
Lemma rstrip_last (c : N) (s : str) : Py.endswith [c] (Py.rstrip c s) = false.
Proof.
  unfold Py.endswith, Py.rstrip. rewrite rev_involutive. cbn [rev app].
  pose proof (lstrip_head c (rev s)) as H.
  destruct (Py.lstrip c (rev s)) as [|y t]; [reflexivity|].
  cbn in *. destruct (N.eqb_spec c y); [subst; congruence|reflexivity].
Qed.

Lemma rstrip_id (c : N) (s : str) :
  Py.endswith [c] s = false -> Py.rstrip c s = s.
Proof.
  unfold Py.endswith, Py.rstrip. cbn [rev app]. intros H.
  rewrite lstrip_id; [apply rev_involutive|].
  destruct (rev s) as [|y t]; [discriminate|]. cbn in *.
  destruct (N.eqb_spec c y); [discriminate|congruence].
Qed.

Lemma endswith_app (p s : str) : Py.endswith p (s ++ p) = true.
Proof.
  unfold Py.endswith. rewrite rev_app_distr.
  induction (rev p) as [|x r IH]; [reflexivity|]. cbn.
  rewrite N.eqb_refl. exact IH.
Qed.

Lemma endswith_char (c : N) (s : str) (x : N) :
  Py.endswith [c] (s ++ [x]) = N.eqb c x.
Proof.
  unfold Py.endswith. rewrite rev_app_distr. cbn. apply andb_true_r.
Qed.

(** The segments [split] returns hold no separator. *)
Lemma split_segments (c : N) (s : str) :
  Forall (fun seg => ~ In c seg) (Py.split c s).
Proof.
  induction s as [|x s IH]; cbn.
  - repeat constructor. intros [].
  - destruct (N.eqb_spec x c).
    + constructor; [intros []|exact IH].
    + destruct (Py.split c s) as [|seg segs]; [repeat constructor; cbn; intuition|].
      inversion IH; subst. constructor; [|assumption].
      cbn. intros [H|H]; [congruence|contradiction].
Qed.

Lemma split_not_nil (c : N) (s : str) : Py.split c s <> [].
Proof.
  destruct s as [|x s]; cbn; [discriminate|].
  destruct (N.eqb x c); [discriminate|].
  destruct (Py.split c s); discriminate.
Qed.

Lemma split_plain (c : N) (s : str) : ~ In c s -> Py.split c s = [s].
Proof.
  induction s as [|x s IH]; [reflexivity|]. cbn. intros H.
  destruct (N.eqb_spec x c); [subst; tauto|].
  rewrite IH by tauto. reflexivity.
Qed.

(** Splitting what [join] made of clean segments gives them back. *)
Lemma split_join (c : N) (segs : list str) :
  segs <> [] -> Forall (fun seg => ~ In c seg) segs ->
  Py.split c (Py.join [c] segs) = segs.
Proof.
  induction segs as [|seg segs IH]; [congruence|]. intros _ Hall.
  inversion Hall as [|? ? Hseg Hrest]; subst.
  destruct segs as [|seg2 segs].
  - cbn. apply split_plain. exact Hseg.
  - change (Py.join [c] (seg :: seg2 :: segs))
      with (seg ++ c :: Py.join [c] (seg2 :: segs)).
    rewrite split_segment by (apply Forall_forall; intros x Hx Heq; subst; tauto).
    rewrite IH by (try discriminate; assumption). reflexivity.
Qed.

(** And joining what [split] returned gives the string back. *)
Lemma join_split (c : N) (s : str) : Py.join [c] (Py.split c s) = s.
Proof.
  induction s as [|x s IH]; [reflexivity|]. cbn.
  destruct (N.eqb_spec x c).
  - subst. pose proof (split_not_nil c s) as Hne.
    destruct (Py.split c s) as [|seg segs] eqn:E; [contradiction|].
    cbn [Py.join app] in *. rewrite IH. reflexivity.
  - pose proof (split_not_nil c s) as Hne.
    destruct (Py.split c s) as [|seg segs] eqn:E; [contradiction|].
    destruct segs as [|seg2 segs]; cbn [Py.join app] in *; rewrite <- IH;
      reflexivity.
Qed.

Lemma split1_first (c : N) (a b : str) :
  ~ In c a -> Py.split1 c (a ++ c :: b) = [a; b].
Proof.
  induction a as [|x a IH]; cbn; intros H.
  - rewrite N.eqb_refl. reflexivity.
  - destruct (N.eqb_spec x c); [subst; tauto|].
    rewrite IH by tauto. reflexivity.
Qed.

Lemma rsplit1_head_last (c : N) (a b : str) :
  ~ In c b -> Py.rsplit1_head c (a ++ c :: b) = a.
Proof.
  intros H. unfold Py.rsplit1_head.
  rewrite rev_app_distr. cbn [rev]. rewrite <- app_assoc. cbn [app].
  rewrite split1_first by (rewrite <- in_rev; exact H).
  apply rev_involutive.
Qed.

(** ** The generator *)

Section Generator.

Context {datetime : Type} {RT : Runtime datetime}.

(** The prefix [s3_list_dir] computes from its argument. *)
Definition listing_prefix (dir_path : str) : str :=
  let dir_path := Py.lstrip slash dir_path in
  if negb (existsb (Py.eqb dir_path) [[]; lit "."; [slash]])
  then Py.rstrip slash dir_path ++ [slash]
  else [].

Lemma s3_list_dir_pages (s3_conn : s3_client datetime) (bucket dir_path : str) :
  s3_list_dir s3_conn bucket dir_path
  = s3_pages bucket (listing_prefix dir_path) 0
      (list_objects_v2 s3_conn bucket (listing_prefix dir_path) [slash]).
Proof. reflexivity. Qed.

(** The token of the call number [n]. *)
Definition token_of (n : nat) : option nat :=
  match n with O => None | S k => Some k end.

Lemma entries_of_app (a b : list (gen_event datetime)) :
  entries_of (a ++ b) = entries_of a ++ entries_of b.
Proof.
  induction a as [|ev a IH]; [reflexivity|].
  destruct ev as [?|[?|?]]; cbn; rewrite IH; reflexivity.
Qed.

Lemma calls_of_app (a b : list (gen_event datetime)) :
  calls_of (a ++ b) = calls_of a ++ calls_of b.
Proof. unfold calls_of. apply flat_map_app. Qed.

Lemma no_exception_app (a b : list (gen_event datetime)) :
  no_exception (a ++ b) = no_exception a && no_exception b.
Proof. unfold no_exception. apply forallb_app. Qed.

Lemma calls_of_entries (ys : list (gen_event datetime)) :
  Forall (fun ev => exists p, ev = Yield (inr p)) ys -> calls_of ys = [].
Proof. induction 1 as [|ev ys [p ->] _ IH]; [reflexivity|exact IH]. Qed.

Lemma no_exception_entries (ys : list (gen_event datetime)) :
  Forall (fun ev => exists p, ev = Yield (inr p)) ys -> no_exception ys = true.
Proof. induction 1 as [|ev ys [p ->] _ IH]; [reflexivity|exact IH]. Qed.

(** The calls of a page are those of what follows it, or none when an
    exception ends the page. *)
Lemma page_events_calls (prefix : str) (page : s3_page datetime)
    (more : list (gen_event datetime)) :
  calls_of (page_events prefix page more) = calls_of more
  \/ calls_of (page_events prefix page more) = [].
Proof.
  unfold page_events.
  pose proof (yield_common_prefixes_entries (CommonPrefixes page)) as Hd.
  pose proof (yield_contents_entries prefix (Contents page)) as Hf.
  destruct (yield_common_prefixes (CommonPrefixes page)) as [dirs [e|]];
    cbn [fst] in Hd.
  { right. rewrite calls_of_app, (calls_of_entries dirs Hd). reflexivity. }
  destruct (yield_contents prefix (Contents page)) as [files [e|]];
    cbn [fst] in Hf;
    rewrite !calls_of_app, (calls_of_entries dirs Hd), (calls_of_entries files Hf);
    [right|left]; reflexivity.
Qed.

(** The calls of the generator from the call number [n] on: each for the
    same bucket, prefix and delimiter, the first with the token of [n],
    each next one with the token the page before returned, and none but
    the last can have failed. *)
Lemma s3_pages_calls (bucket prefix : str) (reply : s3_reply datetime) :
  forall n : nat,
  let calls := calls_of (s3_pages bucket prefix n reply) in
  calls <> []
  /\ map fst calls
     = map (fun i => {| arg_Bucket := bucket; arg_Prefix := prefix;
                        arg_Delimiter := [slash];
                        arg_ContinuationToken := token_of i |})
           (seq n (List.length calls))
  /\ Forall (fun c => snd c = None) (removelast calls).
Proof.
  induction reply as [e|page|page next IH]; intros n; cbv zeta.
  - cbn. repeat split; [discriminate|constructor].
  - cbn [s3_pages calls_of flat_map app].
    fold (calls_of (page_events prefix page [])).
    destruct (page_events_calls prefix page []) as [H|H]; rewrite H;
      cbn; repeat split; try discriminate; constructor.
  - cbn [s3_pages calls_of flat_map app].
    fold (calls_of (page_events prefix page (s3_pages bucket prefix (S n) next))).
    destruct (page_events_calls prefix page (s3_pages bucket prefix (S n) next))
      as [H|H]; rewrite H.
    + destruct (IH (S n)) as (Hne & Hmap & Hnone).
      split; [discriminate|]. split.
      * cbn [map List.length seq fst]. rewrite Hmap. reflexivity.
      * destruct (calls_of (s3_pages bucket prefix (S n) next)) as [|c cs] eqn:E;
          [contradiction|].
        cbn [removelast]. constructor; [reflexivity|exact Hnone].
    + cbn. repeat split; try discriminate; constructor.
Qed.

(** The prefix is empty or a path with no separator at its start and
    exactly one at its end. *)
Lemma listing_prefix_shape (dir_path : str) :
  listing_prefix dir_path = []
  \/ exists body,
       listing_prefix dir_path = body ++ [slash]
       /\ body <> []
       /\ hd_error body <> Some slash
       /\ Py.endswith [slash] body = false.
Proof.
  unfold listing_prefix. cbv zeta.
  pose proof (lstrip_head slash dir_path) as Hhd.
  destruct (negb _) eqn:Hin; [|left; reflexivity]. right.
  exists (Py.rstrip slash (Py.lstrip slash dir_path)).
  split; [reflexivity|].
  destruct (Py.lstrip slash dir_path) as [|x s] eqn:E.
  { cbn in Hin. discriminate. }
  cbn in Hhd.
  assert (Hx : N.eqb x slash = false)
    by (destruct (N.eqb_spec x slash); [subst; congruence|reflexivity]).
  rewrite rstrip_cons.
  split; [|split].
  - destruct (Py.rstrip slash s); [rewrite Hx|]; discriminate.
  - destruct (Py.rstrip slash s); [rewrite Hx|]; cbn; congruence.
  - rewrite <- rstrip_cons. apply rstrip_last.
Qed.

(** X7: whatever the directory path and the answers of the store, the
    generator makes at least one call; every call is for the bucket it was
    given, with delimiter "/" and one and the same prefix, which is empty
    or has no separator at its start and exactly one at its end; the first
    call carries no continuation token and each later one the token the
    page before returned; only the last call can have failed. *)
Theorem listing_calls_share_bucket_and_prefix (s3_conn : s3_client datetime)
    (bucket dir_path : str) :
  let calls := calls_of (s3_list_dir s3_conn bucket dir_path) in
  let prefix := listing_prefix dir_path in
  calls <> []
  /\ map fst calls
     = map (fun i => {| arg_Bucket := bucket; arg_Prefix := prefix;
                        arg_Delimiter := [slash];
                        arg_ContinuationToken := token_of i |})
           (seq 0 (List.length calls))
  /\ Forall (fun c => snd c = None) (removelast calls)
  /\ (prefix = []
      \/ exists body,
           prefix = body ++ [slash] /\ body <> []
           /\ hd_error body <> Some slash
           /\ Py.endswith [slash] body = false).
Proof.
  cbv zeta. rewrite s3_list_dir_pages.
  destruct (s3_pages_calls bucket (listing_prefix dir_path)
              (list_objects_v2 s3_conn bucket (listing_prefix dir_path) [slash]) 0)
    as (H1 & H2 & H3).
  repeat split; try assumption. apply listing_prefix_shape.
Qed.

(** *** The entries yielded *)

Lemma S3Path_init_fields (dir : bool) (entry : s3_entry datetime)
    (p : S3Path datetime) :
  S3Path_init dir entry = inr p ->
  is_dir p = dir
  /\ name p = Pathlib.name (Pathlib.Path (absolute p))
  /\ (dir = false -> Key entry = Some (absolute p))
  /\ (dir = true ->
      exists prefix, Prefix entry = Some prefix
                     /\ absolute p = Py.lstrip slash prefix)
  /\ last_modified p = LastModified entry
  /\ size p = match Size entry with Some n => n | None => 0 end.
Proof.
  unfold S3Path_init. destruct dir.
  - destruct (Prefix entry) as [prefix|]; cbn; [|discriminate].
    intros H. inversion H; subst. cbn.
    repeat split; try discriminate; eauto.
  - destruct (Key entry) as [key|]; cbn; [|discriminate].
    intros H. inversion H; subst. cbn.
    repeat split; try discriminate; eauto.
Qed.

(** What holds of each entry of a page: a directory comes from the
    common prefixes, a file from the contents and its key is not the
    prefix. *)
Definition of_page (prefix : str) (p : S3Path datetime) : Prop :=
  (exists entry dir, S3Path_init dir entry = inr p)
  /\ (is_file p = true -> Py.eqb (absolute p) prefix = false).

Lemma yield_common_prefixes_of_page (prefix : str)
    (entries : list (s3_entry datetime)) :
  Forall (of_page prefix) (entries_of (fst (yield_common_prefixes entries))).
Proof.
  induction entries as [|entry rest IH]; cbn; [constructor|].
  destruct (S3Path_init true entry) as [e|p] eqn:Hinit; cbn; [constructor|].
  destruct (yield_common_prefixes rest) as [evs x]. cbn in *.
  constructor; [|exact IH]. split; [eauto|].
  apply S3Path_init_fields in Hinit. destruct Hinit as (Hd & _).
  unfold is_file. rewrite Hd. discriminate.
Qed.

Lemma yield_contents_of_page (prefix : str) (entries : list (s3_entry datetime)) :
  Forall (of_page prefix) (entries_of (fst (yield_contents prefix entries))).
Proof.
  induction entries as [|entry rest IH]; cbn; [constructor|].
  destruct (Key entry) as [k|] eqn:Hk; cbn; [|constructor].
  destruct (Py.eqb k prefix) eqn:Hkp; [exact IH|].
  destruct (S3Path_init false entry) as [e|p] eqn:Hinit; cbn; [constructor|].
  destruct (yield_contents prefix rest) as [evs x]. cbn in *.
  constructor; [|exact IH]. split; [eauto|]. intros _.
  apply S3Path_init_fields in Hinit. destruct Hinit as (_ & _ & Hkey & _).
  specialize (Hkey eq_refl). congruence.
Qed.

Lemma page_events_of_page (prefix : str) (page : s3_page datetime)
    (more : list (gen_event datetime)) :
  Forall (of_page prefix) (entries_of more) ->
  Forall (of_page prefix) (entries_of (page_events prefix page more)).
Proof.
  intros Hm. unfold page_events.
  pose proof (yield_common_prefixes_of_page prefix (CommonPrefixes page)) as Hd.
  pose proof (yield_contents_of_page prefix (Contents page)) as Hf.
  destruct (yield_common_prefixes (CommonPrefixes page)) as [dirs [e|]];
    cbn [fst] in Hd.
  { rewrite entries_of_app. apply Forall_app. split; [exact Hd|constructor]. }
  destruct (yield_contents prefix (Contents page)) as [files [e|]];
    cbn [fst] in Hf; rewrite !entries_of_app; repeat (apply Forall_app; split);
    try assumption; constructor.
Qed.

Lemma s3_pages_of_page (bucket prefix : str) (reply : s3_reply datetime) :
  forall n, Forall (of_page prefix) (entries_of (s3_pages bucket prefix n reply)).
Proof.
  induction reply as [e|page|page next IH]; intros n; cbn [s3_pages entries_of].
  - constructor.
  - apply page_events_of_page. constructor.
  - apply page_events_of_page. apply IH.
Qed.

Lemma name_no_separator (s : str) :
  ~ In slash (Pathlib.name (Pathlib.Path s))
  /\ Pathlib.name (Pathlib.Path s) <> lit ".".
Proof.
  unfold Pathlib.name, Pathlib.Path.
  destruct (Pathlib.splitroot s) as [root rel]. cbn [Pathlib.parts].
  pose proof (split_segments slash rel) as Hseg.
  set (keep := fun x : str => negb (Py.eqb x []) && negb (Py.eqb x (lit "."))).
  assert (Hall : Forall (fun seg => ~ In slash seg /\ seg <> lit ".")
                        (filter keep (Py.split slash rel))).
  { apply Forall_forall. intros seg Hin. apply filter_In in Hin.
    destruct Hin as [Hin Hk]. split.
    - rewrite Forall_forall in Hseg. apply Hseg. exact Hin.
    - unfold keep in Hk. apply andb_prop in Hk. destruct Hk as [_ Hk].
      apply negb_true_iff in Hk. apply eqb_neq in Hk. exact Hk. }
  induction (filter keep (Py.split slash rel)) as [|seg segs IH].
  - cbn. split; [intros []|discriminate].
  - inversion Hall; subst. destruct segs as [|seg2 segs]; [cbn; assumption|].
    apply IH. assumption.
Qed.

(** X8: every entry the generator yields is made by S3Path from a record
    of a page; its name is the name of its path, holds no separator and is
    not "."; and a file whose key equals the prefix queried (the marker
    object of the directory) is never yielded. *)
Theorem yielded_entries_are_named_and_no_marker (s3_conn : s3_client datetime)
    (bucket dir_path : str) :
  Forall (fun p =>
            name p = Pathlib.name (Pathlib.Path (absolute p))
            /\ ~ In slash (name p)
            /\ name p <> lit "."
            /\ (is_file p = true ->
                absolute p <> listing_prefix dir_path))
         (entries_of (s3_list_dir s3_conn bucket dir_path)).
Proof.
  rewrite s3_list_dir_pages.
  eapply Forall_impl; [|apply s3_pages_of_page].
  intros p [(entry & dir & Hinit) Hmarker].
  apply S3Path_init_fields in Hinit. destruct Hinit as (_ & Hname & _).
  rewrite Hname.
  destruct (name_no_separator (absolute p)) as [H1 H2].
  repeat split; try assumption.
  intros Hf. apply eqb_neq. apply Hmarker. exact Hf.
Qed.

End Generator.

(** ** Byte sizes outside the usual range *)

Lemma float_round_upper (a : Z) : 0 <= a -> float_round a <= 2 ^ (Z.log2 a + 1).
Proof.
  intros Ha. unfold float_round.
  assert (Hspec : a < 2 ^ (Z.log2 a + 1)).
  { destruct (Z.eq_dec a 0) as [->|Hne]; [cbn; lia|].
    replace (Z.log2 a + 1) with (Z.succ (Z.log2 a)) by lia.
    apply Z.log2_spec. lia. }
  pose proof (Z.log2_nonneg a) as Hlog.
  destruct (Z.leb_spec (Z.log2 a + 1) 53) as [Hsmall|Hbig]; [lia|].
  cbv zeta. set (s := Z.log2 a + 1 - 53) in *.
  assert (Hs : 0 < s) by (unfold s; lia).
  rewrite Z.shiftl_mul_pow2 by lia.
  rewrite Z.shiftr_div_pow2 by lia.
  assert (Hq : a / 2 ^ s < 2 ^ 53).
  { apply Z.div_lt_upper_bound; [apply Z.pow_pos_nonneg; lia|].
    rewrite <- Z.pow_add_r by lia. replace (s + 53) with (Z.log2 a + 1) by (unfold s; lia).
    exact Hspec. }
  assert (Hpow : 0 < 2 ^ s) by (apply Z.pow_pos_nonneg; lia).
  replace (2 ^ (Z.log2 a + 1)) with (2 ^ 53 * 2 ^ s)
    by (rewrite <- Z.pow_add_r by lia; f_equal; unfold s; lia).
  apply Z.mul_le_mono_nonneg_r; [lia|].
  destruct (_ || _); lia.
Qed.

Lemma float_round_lower (a : Z) : 0 < a -> 2 ^ Z.log2 a <= float_round a.
Proof.
  intros Ha. unfold float_round.
  assert (Hspec : 2 ^ Z.log2 a <= a) by (apply Z.log2_spec; exact Ha).
  pose proof (Z.log2_nonneg a) as Hlog.
  destruct (Z.leb_spec (Z.log2 a + 1) 53) as [Hsmall|Hbig]; [exact Hspec|].
  cbv zeta. set (s := Z.log2 a + 1 - 53) in *.
  assert (Hs : 0 < s) by (unfold s; lia).
  rewrite Z.shiftl_mul_pow2 by lia.
  rewrite Z.shiftr_div_pow2 by lia.
  assert (Hpow : 0 < 2 ^ s) by (apply Z.pow_pos_nonneg; lia).
  assert (Hq : 2 ^ 52 <= a / 2 ^ s).
  { apply Z.div_le_lower_bound; [exact Hpow|].
    rewrite Z.mul_comm, <- Z.pow_add_r by lia.
    replace (52 + s) with (Z.log2 a) by (unfold s; lia). exact Hspec. }
  replace (2 ^ Z.log2 a) with (2 ^ 52 * 2 ^ s)
    by (rewrite <- Z.pow_add_r by lia; f_equal; unfold s; lia).
  apply Z.mul_le_mono_nonneg_r; [lia|].
  destruct (_ || _); lia.
Qed.

Lemma select_unit_default (b : Z) :
  exists factor suffix,
    select_unit b UNITS_MAPPING None = Some (factor, suffix)
    /\ 1 <= factor <= 1024 ^ 5.
Proof.
  unfold UNITS_MAPPING. cbn [select_unit].
  repeat match goal with
         | |- context [?x <=? b] => destruct (x <=? b)
         end;
    eexists; eexists; (split; [reflexivity|lia]).
Qed.

Lemma pretty_size_returns (b : Z) :
  0 <= b < 2 ^ 1073 -> exists text, pretty_size b = inr text.
Proof.
  intros Hb.
  assert (H50 : 1024 ^ 5 = 2 ^ 50) by reflexivity.
  destruct (Z.lt_ge_cases b (1024 ^ 5)) as [Hsmall|Hlarge].
  - assert (Hr : 0 <= b < 2 ^ 53).
    { split; [lia|]. assert (1024 ^ 5 < 2 ^ 53) by reflexivity. lia. }
    unfold pretty_size, pretty_size_with.
    destruct (select_unit_default b) as (factor & suffix & -> & Hf).
    rewrite int_truediv_exact by (try exact Hr; lia). eauto.
  - unfold pretty_size, pretty_size_with, UNITS_MAPPING. cbn [select_unit].
    destruct (Z.leb_spec (1024 ^ 5) b); [|lia].
    unfold int_truediv. rewrite Z.abs_eq by lia.
    assert (Hm : float_round b <= 2 ^ 1073).
    { etransitivity; [apply float_round_upper; lia|].
      apply Z.pow_le_mono_r; [lia|].
      assert (Z.log2 b < 1073) by (apply Z.log2_lt_pow2; lia). lia. }
    assert (Hbig : 2 ^ 1073 < 2 ^ 1024 * 1024 ^ 5).
    { rewrite H50, <- Z.pow_add_r by lia. apply Z.pow_lt_mono_r; lia. }
    destruct (Z.leb_spec (2 ^ 1024 * 1024 ^ 5) (float_round b)); [lia|].
    eauto.
Qed.

(** X9: pretty_size returns a text for every size from 0 to below 2^1073
    and raises OverflowError for every size from 2^1074 up. *)
Theorem pretty_size_fails_only_beyond_float_range (b : Z) :
  (0 <= b < 2 ^ 1073 -> exists text, pretty_size b = inr text)
  /\ (2 ^ 1074 <= b -> pretty_size b = inl OverflowError).
Proof.
  split; [apply pretty_size_returns|].
  intros Hb. unfold pretty_size, pretty_size_with, UNITS_MAPPING.
  cbn [select_unit].
  assert (H50 : 1024 ^ 5 = 2 ^ 50) by reflexivity.
  assert (Hle : 2 ^ 50 <= 2 ^ 1074) by (apply Z.pow_le_mono_r; lia).
  destruct (Z.leb_spec (1024 ^ 5) b); [|lia].
  unfold int_truediv. rewrite Z.abs_eq by lia.
  assert (Hpos : 0 < 2 ^ 1074) by (apply Z.pow_pos_nonneg; lia).
  assert (Hlog : 1074 <= Z.log2 b) by (apply Z.log2_le_pow2; lia).
  assert (Hm : 2 ^ 1074 <= float_round b).
  { etransitivity; [|apply float_round_lower; lia].
    apply Z.pow_le_mono_r; lia. }
  assert (Hthr : 2 ^ 1024 * 1024 ^ 5 = 2 ^ 1074)
    by (rewrite H50, <- Z.pow_add_r by lia; reflexivity).
  rewrite Hthr.
  destruct (Z.leb_spec (2 ^ 1074) (float_round b)); [reflexivity|lia].
Qed.

(** X10: a negative size above -2^53 falls through every unit to the
    last one and is printed as it is with the plural: [str(b) + " bytes"]. *)
Theorem pretty_size_of_negative_size (b : Z) :
  - 2 ^ 53 < b < 0 -> pretty_size b = inr (Py.of_int b ++ lit " bytes").
Proof.
  intros Hb. unfold pretty_size, pretty_size_with, UNITS_MAPPING.
  cbn [select_unit].
  repeat match goal with
         | |- context [?x <=? b] =>
             destruct (Z.leb_spec x b); [lia|]
         end.
  unfold int_truediv. rewrite float_round_exact by lia.
  assert (Hbig : 2 ^ 53 <= 2 ^ 1024 * 1024 ^ 0).
  { change (1024 ^ 0) with 1. rewrite Z.mul_1_r. apply Z.pow_le_mono_r; lia. }
  destruct (Z.leb_spec (2 ^ 1024 * 1024 ^ 0) (Z.abs b)); [lia|].
  change (1024 ^ 0) with 1. rewrite Z.div_1_r.
  replace (Z.sgn b * Z.abs b) with b by (rewrite Z.sgn_neg by lia; lia).
  destruct (Z.eqb_spec b 1); [lia|reflexivity].
Qed.

(** X11: from 1 KB to just below 1 PB the number printed is between 1
    and 1023 and the unit is KB, MB, GB or TB. *)
Theorem pretty_size_amount_below_1024 (b : Z) :
  1024 <= b < 1024 ^ 5 ->
  exists amount suffix,
    pretty_size b = inr (Py.of_int amount ++ suffix)
    /\ 1 <= amount <= 1023
    /\ In suffix [lit " KB"; lit " MB"; lit " GB"; lit " TB"].
Proof.
  intros Hb.
  assert (Hr : 0 <= b < 2 ^ 53).
  { split; [lia|]. assert (1024 ^ 5 < 2 ^ 53) by reflexivity. lia. }
  destruct (pretty_size_tier b Hr) as (_ & H4 & H3 & H2 & H1 & _).
  assert (Hdiv : forall u, 0 < u -> u <= b < u * 1024 -> 1 <= b / u <= 1023).
  { intros u Hu [Hlo Hhi]. split.
    - apply Z.div_le_lower_bound; lia.
    - assert (b / u < 1024) by (apply Z.div_lt_upper_bound; lia). lia. }
  destruct (Z.lt_ge_cases b (1024 ^ 2)) as [Hk|Hk].
  { exists (b / 1024 ^ 1), (lit " KB"). rewrite H1 by lia.
    split; [reflexivity|]. split; [apply Hdiv; lia|]. cbn. auto. }
  destruct (Z.lt_ge_cases b (1024 ^ 3)) as [Hm|Hm].
  { exists (b / 1024 ^ 2), (lit " MB"). rewrite H2 by lia.
    split; [reflexivity|]. split; [apply Hdiv; lia|]. cbn. auto. }
  destruct (Z.lt_ge_cases b (1024 ^ 4)) as [Hg|Hg].
  { exists (b / 1024 ^ 3), (lit " GB"). rewrite H3 by lia.
    split; [reflexivity|]. split; [apply Hdiv; lia|]. cbn. auto. }
  exists (b / 1024 ^ 4), (lit " TB"). rewrite H4 by lia.
  split; [reflexivity|]. split; [apply Hdiv; lia|]. cbn. auto.
Qed.

(** ** A store that answers every call with a well-formed page *)

Section GoodStore.

Context {datetime : Type} {RT : Runtime datetime}.

Definition has_prefix (entry : s3_entry datetime) : bool :=
  match Prefix entry with Some _ => true | None => false end.

Definition has_key (entry : s3_entry datetime) : bool :=
  match Key entry with Some _ => true | None => false end.

(** Every common prefix has its ['Prefix'] and every object its ['Key']. *)
Definition page_ok (page : s3_page datetime) : bool :=
  forallb has_prefix (CommonPrefixes page) && forallb has_key (Contents page).

(** No call fails and every page is well formed. *)
Fixpoint reply_ok (reply : s3_reply datetime) : bool :=
  match reply with
  | Raised _ => false
  | LastPage page => page_ok page
  | TruncatedPage page next => page_ok page && reply_ok next
  end.

(** The pages of an answer, in the order of the calls. *)
Fixpoint pages_of (reply : s3_reply datetime) : list (s3_page datetime) :=
  match reply with
  | Raised _ => []
  | LastPage page => [page]
  | TruncatedPage page next => page :: pages_of next
  end.

(** The paths S3Path makes of the records of a list. *)
Definition paths_of (dir : bool) (entries : list (s3_entry datetime))
  : list (S3Path datetime) :=
  flat_map (fun entry => match S3Path_init dir entry with
                         | inr p => [p]
                         | inl _ => []
                         end) entries.

(** The object whose key is the prefix itself. *)
Definition is_marker (prefix : str) (entry : s3_entry datetime) : bool :=
  match Key entry with Some key => Py.eqb key prefix | None => false end.

(** The entries of a page: its directories, then its objects but the
    marker. *)
Definition page_paths (prefix : str) (page : s3_page datetime)
  : list (S3Path datetime) :=
  paths_of true (CommonPrefixes page)
  ++ paths_of false (filter (fun entry => negb (is_marker prefix entry))
                            (Contents page)).

Definition yields (paths : list (S3Path datetime)) : list (gen_event datetime) :=
  map (fun p => Yield (inr p)) paths.

Lemma entries_of_yields (paths : list (S3Path datetime)) :
  entries_of (yields paths) = paths.
Proof. induction paths as [|p ps IH]; [reflexivity|]. cbn. f_equal. exact IH. Qed.

Lemma yields_entries (paths : list (S3Path datetime)) :
  Forall (fun ev => exists p, ev = Yield (inr p)) (yields paths).
Proof. induction paths; constructor; eauto. Qed.

Lemma yield_common_prefixes_ok (entries : list (s3_entry datetime)) :
  forallb has_prefix entries = true ->
  yield_common_prefixes entries = (yields (paths_of true entries), None).
Proof.
  induction entries as [|entry rest IH]; [reflexivity|].
  cbn [forallb]. intros H. apply andb_prop in H. destruct H as [He Hr].
  cbn [yield_common_prefixes paths_of flat_map].
  unfold has_prefix in He. unfold S3Path_init.
  destruct (Prefix entry) as [prefix|]; [|discriminate]. cbn [option_map].
  fold (paths_of true rest). rewrite IH by exact Hr. reflexivity.
Qed.

Lemma yield_contents_ok (prefix : str) (entries : list (s3_entry datetime)) :
  forallb has_key entries = true ->
  yield_contents prefix entries
  = (yields (paths_of false
               (filter (fun entry => negb (is_marker prefix entry)) entries)),
     None).
Proof.
  induction entries as [|entry rest IH]; [reflexivity|].
  cbn [forallb]. intros H. apply andb_prop in H. destruct H as [He Hr].
  cbn [yield_contents filter]. unfold has_key in He. unfold is_marker at 1.
  unfold S3Path_init.
  destruct (Key entry) as [key|] eqn:Hk; [|discriminate].
  destruct (Py.eqb key prefix); cbn [negb]; [apply IH; exact Hr|].
  cbn [paths_of flat_map]. unfold S3Path_init. rewrite Hk.
  fold (paths_of false
          (filter (fun entry => negb (is_marker prefix entry)) rest)).
  rewrite IH by exact Hr. reflexivity.
Qed.

Lemma page_events_ok (prefix : str) (page : s3_page datetime)
    (more : list (gen_event datetime)) :
  page_ok page = true ->
  page_events prefix page more = yields (page_paths prefix page) ++ more.
Proof.
  unfold page_ok, page_events, page_paths. intros H.
  apply andb_prop in H. destruct H as [Hd Hf].
  rewrite yield_common_prefixes_ok by exact Hd.
  rewrite yield_contents_ok by exact Hf.
  unfold yields. rewrite map_app, <- app_assoc. reflexivity.
Qed.

Lemma s3_pages_ok (bucket prefix : str) (reply : s3_reply datetime) :
  forall n : nat,
  reply_ok reply = true ->
  let events := s3_pages bucket prefix n reply in
  no_exception events = true
  /\ entries_of events = flat_map (page_paths prefix) (pages_of reply)
  /\ calls_of events
     = map (fun i => ({| arg_Bucket := bucket; arg_Prefix := prefix;
                         arg_Delimiter := [slash];
                         arg_ContinuationToken := token_of i |}, None))
           (seq n (List.length (pages_of reply))).
Proof.
  induction reply as [e|page|page next IH]; intros n Hok; cbv zeta;
    cbn [reply_ok] in Hok.
  - discriminate.
  - cbn [s3_pages pages_of]. rewrite page_events_ok by exact Hok.
    rewrite app_nil_r.
    cbn [no_exception forallb entries_of calls_of flat_map app List.length seq map].
    fold (no_exception (yields (page_paths prefix page))).
    fold (calls_of (yields (page_paths prefix page))).
    rewrite (no_exception_entries _ (yields_entries _)).
    rewrite (calls_of_entries _ (yields_entries _)).
    rewrite entries_of_yields, app_nil_r. auto.
  - apply andb_prop in Hok. destruct Hok as [Hp Hn].
    cbn [s3_pages pages_of]. rewrite page_events_ok by exact Hp.
    destruct (IH (S n) Hn) as (Hexc & Hent & Hcalls).
    cbn [no_exception forallb entries_of calls_of flat_map app List.length seq map].
    fold (no_exception (yields (page_paths prefix page)
                        ++ s3_pages bucket prefix (S n) next)).
    fold (calls_of (yields (page_paths prefix page)
                    ++ s3_pages bucket prefix (S n) next)).
    rewrite no_exception_app, calls_of_app, entries_of_app.
    rewrite (no_exception_entries _ (yields_entries _)).
    rewrite (calls_of_entries _ (yields_entries _)).
    rewrite entries_of_yields, Hexc, Hent, Hcalls. auto.
Qed.

(** X12: when no call fails and every record of every page has its key,
    the generator goes through all the pages, one call each, and yields no
    exception; it yields, page after page, the directories of the page in
    their order and then its objects in theirs, the marker object left
    out. *)
Theorem listing_of_well_formed_pages (s3_conn : s3_client datetime)
    (bucket dir_path : str) :
  reply_ok (list_objects_v2 s3_conn bucket (listing_prefix dir_path) [slash])
    = true ->
  let pages :=
    pages_of (list_objects_v2 s3_conn bucket (listing_prefix dir_path) [slash]) in
  let events := s3_list_dir s3_conn bucket dir_path in
  no_exception events = true
  /\ entries_of events = flat_map (page_paths (listing_prefix dir_path)) pages
  /\ calls_of events
     = map (fun i => ({| arg_Bucket := bucket;
                         arg_Prefix := listing_prefix dir_path;
                         arg_Delimiter := [slash];
                         arg_ContinuationToken := token_of i |}, None))
           (seq 0 (List.length pages)).
Proof.
  intros Hok. cbv zeta. rewrite s3_list_dir_pages.
  exact (s3_pages_ok bucket (listing_prefix dir_path) _ 0 Hok).
Qed.

(** *** Names *)

Lemma split_app (c : N) (a t : str) :
  Py.split c (a ++ c :: t) = Py.split c a ++ Py.split c t.
Proof.
  induction a as [|x a IH]; cbn.
  - rewrite N.eqb_refl. reflexivity.
  - destruct (N.eqb x c); [rewrite IH; reflexivity|].
    rewrite IH. pose proof (split_not_nil c a) as Hne.
    destruct (Py.split c a) as [|seg segs]; [contradiction|reflexivity].
Qed.

(** A segment that is a name: not empty, not ".", without separator. *)
Definition clean (seg : str) : Prop :=
  seg <> [] /\ seg <> lit "." /\ ~ In slash seg.

Lemma clean_kept (seg : str) :
  clean seg ->
  negb (Py.eqb seg []) && negb (Py.eqb seg (lit ".")) = true.
Proof.
  intros (H1 & H2 & _). apply eqb_neq in H1. apply eqb_neq in H2.
  rewrite H1, H2. reflexivity.
Qed.

Lemma clean_head (seg : str) : clean seg -> hd_error seg <> Some slash.
Proof.
  intros (H1 & _ & H3). destruct seg as [|x seg]; [congruence|].
  cbn. intros H. inversion H; subst. apply H3. left. reflexivity.
Qed.

(** What [lstrip] leaves of a path that ends with a clean segment. *)
Lemma lstrip_keeps_last_segment (a seg trail : str) :
  clean seg ->
  (exists a', Py.lstrip slash (a ++ slash :: seg ++ trail)
              = a' ++ slash :: seg ++ trail)
  \/ Py.lstrip slash (a ++ slash :: seg ++ trail) = seg ++ trail.
Proof.
  intros Hc. induction a as [|x a IH].
  - right. cbn [app Py.lstrip]. rewrite N.eqb_refl.
    apply lstrip_id. destruct seg as [|y seg]; [destruct Hc; congruence|].
    cbn. pose proof (clean_head _ Hc) as H. exact H.
  - cbn [app Py.lstrip]. destruct (N.eqb x slash); [exact IH|].
    left. exists (x :: a). reflexivity.
Qed.

Lemma last_kept_segment (segs : list str) (seg : str) (tail : list str) :
  clean seg ->
  Forall (fun s => s = []) tail ->
  last (filter (fun x => negb (Py.eqb x []) && negb (Py.eqb x (lit ".")))
               (segs ++ seg :: tail)) [] = seg.
Proof.
  intros Hc Ht. rewrite filter_app. cbn [filter]. rewrite clean_kept by exact Hc.
  rewrite (filter_none _ tail).
  - change (seg :: []) with ([seg]). apply last_last.
  - eapply Forall_impl; [|exact Ht]. intros s ->. reflexivity.
Qed.

Lemma name_of_last_segment (s seg : str) (tail : list str) (rel : str) :
  clean seg ->
  Forall (fun t => t = []) tail ->
  (exists segs, Py.split slash rel = segs ++ seg :: tail) ->
  Pathlib.splitroot s = (fst (Pathlib.splitroot s), rel) ->
  Pathlib.name (Pathlib.Path s) = seg.
Proof.
  intros Hc Ht [segs Hsplit] Hroot. unfold Pathlib.name, Pathlib.Path.
  rewrite Hroot. cbn [Pathlib.parts]. rewrite Hsplit.
  apply last_kept_segment; assumption.
Qed.

Lemma split_ending (seg trail : str) :
  clean seg -> trail = [] \/ trail = [slash] ->
  exists tail,
    Py.split slash (seg ++ trail) = seg :: tail
    /\ Forall (fun t => t = []) tail.
Proof.
  intros (_ & _ & Hs) [->| ->].
  - rewrite app_nil_r. exists []. rewrite split_plain by exact Hs. auto.
  - exists [[]]. rewrite split_segment
      by (apply Forall_forall; intros x Hx Heq; subst; tauto).
    cbn. auto.
Qed.

(** The name of the path of a key whose last segment is clean, before at
    most one separator at the end. *)
Lemma name_of_key (parent seg trail : str) :
  clean seg -> trail = [] \/ trail = [slash] ->
  Pathlib.name (Pathlib.Path (seg ++ trail)) = seg
  /\ Pathlib.name (Pathlib.Path (parent ++ slash :: seg ++ trail)) = seg.
Proof.
  intros Hc Ht.
  destruct (split_ending seg trail Hc Ht) as (tail & Hsplit & Htail).
  assert (Hrel : forall rel,
             (exists a', rel = a' ++ slash :: seg ++ trail) \/ rel = seg ++ trail ->
             exists segs, Py.split slash rel = segs ++ seg :: tail).
  { intros rel [[a' ->]| ->].
    - rewrite split_app, Hsplit. eauto.
    - exists []. exact Hsplit. }
  assert (Hname : forall s,
             ((exists a', s = a' ++ slash :: seg ++ trail) \/ s = seg ++ trail) ->
             ((exists a', Py.lstrip slash s = a' ++ slash :: seg ++ trail)
              \/ Py.lstrip slash s = seg ++ trail) ->
             Pathlib.name (Pathlib.Path s) = seg).
  { intros s Hs Hl.
    apply (name_of_last_segment s seg tail
             (snd (Pathlib.splitroot s))); try assumption.
    - apply Hrel. unfold Pathlib.splitroot.
      destruct s as [|c s']; [destruct Hs as [[a' H]|H];
        [destruct a'; discriminate|destruct seg; [destruct Hc; congruence|discriminate]]|].
      destruct (N.eqb c slash);
        [destruct (Nat.eqb _ _)|]; cbn [snd]; assumption.
    - destruct (Pathlib.splitroot s); reflexivity. }
  split.
  - apply Hname; [right; reflexivity|].
    right. apply lstrip_id. destruct seg as [|y seg]; [destruct Hc; congruence|].
    cbn. exact (clean_head _ Hc).
  - apply Hname; [left; eauto|]. apply lstrip_keeps_last_segment. exact Hc.
Qed.

(** X13: the name of an entry is the last segment of its key.  For an
    object whose key is a clean segment (not empty, not ".", without
    separator), alone or after a parent path and a separator, the name is
    that segment; so it is for a directory whose prefix is the same
    followed by one separator. *)
Theorem entry_name_is_last_segment (entry : s3_entry datetime)
    (parent seg key : str) :
  clean seg ->
  key = seg \/ key = parent ++ slash :: seg ->
  (Key entry = Some key ->
   exists p, S3Path_init false entry = inr p
             /\ name p = seg /\ absolute p = key /\ is_file p = true)
  /\ (Prefix entry = Some (key ++ [slash]) ->
      exists p, S3Path_init true entry = inr p
                /\ name p = seg /\ is_dir p = true).
Proof.
  intros Hc Hkey.
  destruct (name_of_key parent seg [] Hc (or_introl eq_refl)) as [Hf1 Hf2].
  destruct (name_of_key parent seg [slash] Hc (or_intror eq_refl)) as [Hd1 Hd2].
  rewrite app_nil_r in Hf1, Hf2.
  split; intros Hentry; unfold S3Path_init; rewrite Hentry; cbn [option_map].
  - eexists. split; [reflexivity|]. cbn [name absolute _absolute is_file is_dir _is_dir].
    repeat split. destruct Hkey as [->| ->]; assumption.
  - eexists. split; [reflexivity|]. cbn [name is_dir _is_dir].
    split; [|reflexivity].
    destruct Hkey as [->| ->].
    + rewrite lstrip_id by (destruct seg as [|y seg];
        [destruct Hc; congruence|exact (clean_head _ Hc)]).
      exact Hd1.
    + replace ((parent ++ slash :: seg) ++ [slash])
        with (parent ++ slash :: seg ++ [slash])
        by (rewrite <- app_assoc; reflexivity).
      destruct (lstrip_keeps_last_segment parent seg [slash] Hc) as [[a' ->]| ->].
      * destruct (name_of_key a' seg [slash] Hc (or_intror eq_refl)) as [_ H].
        exact H.
      * exact Hd1.
Qed.

(** *** Rows *)

(** X14: a directory always gets its row, and an object whose size is
    from 0 to below 2^1073 gets its row exactly when it has a
    LastModified: a missing timestamp is the one thing that drops an
    object of any real size from the page. *)
Theorem object_row_needs_only_timestamp (entry : S3Path datetime) :
  (is_dir entry = true -> readable entry = true)
  /\ (is_file entry = true -> 0 <= size entry < 2 ^ 1073 ->
      (readable entry = true <-> last_modified entry <> None)).
Proof.
  unfold readable, inspect, is_file. split.
  - intros ->. reflexivity.
  - intros Hf Hsize. rewrite Hf.
    destruct (pretty_size_returns (size entry) Hsize) as [text ->].
    destruct (last_modified entry); split; congruence.
Qed.

(** X15: the shortcut icons are never used and the branch never prints:
    a directory is a "folder" linked by its name joined with an empty
    path, a file is a "file" linked by its name; for a directory whose
    name is not empty and does not end with a separator the link is the
    name followed by one separator. *)
Theorem rows_use_folder_or_file_icon (entry : S3Path datetime) :
  classify entry
  = (if is_dir entry then os_path_join (name entry) [] else name entry,
     if is_dir entry then lit "folder" else lit "file",
     [])
  /\ (is_dir entry = true -> name entry <> [] ->
      Py.endswith [slash] (name entry) = false ->
      fst (fst (classify entry)) = name entry ++ [slash]).
Proof.
  assert (H : classify entry
              = (if is_dir entry then os_path_join (name entry) [] else name entry,
                 if is_dir entry then lit "folder" else lit "file", [])).
  { unfold classify, is_symlink, is_file.
    destruct (is_dir entry); reflexivity. }
  split; [exact H|].
  intros Hd Hne Hend. rewrite H, Hd. cbn [fst].
  unfold os_path_join. cbn [Py.startswith]. rewrite Hend.
  apply eqb_neq in Hne. rewrite Hne. reflexivity.
Qed.

End GoodStore.

(** ** The handler from the URI to the store calls *)

Lemma app_eq_length {A : Type} (l1 r1 l2 r2 : list A) :
  l1 ++ r1 = l2 ++ r2 -> List.length l1 = List.length l2 -> l1 = l2.
Proof.
  revert l2. induction l1 as [|x l1 IH]; intros [|y l2] Heq Hlen;
    try discriminate; [reflexivity|].
  cbn in Heq, Hlen. inversion Heq; subst. f_equal. apply (IH l2); auto.
Qed.

Lemma Forall_removelast {A : Type} (P : A -> Prop) (l : list A) :
  Forall P l -> Forall P (removelast l).
Proof.
  induction 1 as [|x l Hx Hl IH]; [constructor|].
  cbn. destruct l; [constructor|]. constructor; assumption.
Qed.

(** *** Strings that end without a separator *)

Lemma endswith_char_app (c : N) (a b : str) :
  b <> [] -> Py.endswith [c] (a ++ b) = Py.endswith [c] b.
Proof.
  intros Hb. unfold Py.endswith. rewrite rev_app_distr.
  destruct (rev b) as [|y rb] eqn:E.
  - apply (f_equal (@rev N)) in E. rewrite rev_involutive in E. contradiction.
  - cbn. rewrite !andb_true_r. reflexivity.
Qed.

Lemma rstrip_snoc (c : N) (s : str) : Py.rstrip c (s ++ [c]) = Py.rstrip c s.
Proof.
  unfold Py.rstrip. rewrite rev_app_distr. cbn. rewrite N.eqb_refl. reflexivity.
Qed.

Lemma no_separator_end (c : N) (s : str) :
  ~ In c s -> Py.endswith [c] s = false.
Proof.
  intros Hs. destruct s as [|x s] using rev_ind; [reflexivity|].
  rewrite endswith_char. apply N.eqb_neq. intros ->.
  apply Hs. apply in_or_app. right. left. reflexivity.
Qed.

(** *** Paths made of segments *)

(** The path "/s1/s2/.../sn", empty when there is no segment. *)
Definition uri_path (segs : list str) : str :=
  List.concat (map (fun seg => slash :: seg) segs).

(** The key prefix "s1/s2/.../sn/", empty when there is no segment. *)
Definition key_prefix (segs : list str) : str :=
  List.concat (map (fun seg => seg ++ [slash]) segs).

Lemma uri_path_join (seg : str) (segs : list str) :
  uri_path (seg :: segs) = slash :: Py.join [slash] (seg :: segs).
Proof.
  revert seg. induction segs as [|seg2 segs IH]; intros seg.
  - cbn. rewrite app_nil_r. reflexivity.
  - change (uri_path (seg :: seg2 :: segs))
      with ((slash :: seg) ++ uri_path (seg2 :: segs)).
    rewrite IH. reflexivity.
Qed.

Lemma key_prefix_join (seg : str) (segs : list str) :
  key_prefix (seg :: segs) = Py.join [slash] (seg :: segs) ++ [slash].
Proof.
  revert seg. induction segs as [|seg2 segs IH]; intros seg.
  - cbn. rewrite app_nil_r. reflexivity.
  - change (key_prefix (seg :: seg2 :: segs))
      with ((seg ++ [slash]) ++ key_prefix (seg2 :: segs)).
    rewrite IH.
    change (Py.join [slash] (seg :: seg2 :: segs))
      with (seg ++ [slash] ++ Py.join [slash] (seg2 :: segs)).
    rewrite <- !app_assoc. reflexivity.
Qed.

Lemma uri_path_end (segs : list str) :
  Forall clean segs -> Py.endswith [slash] (uri_path segs) = false.
Proof.
  induction 1 as [|seg segs (Hne & _ & Hs) _ IH]; [reflexivity|].
  change (uri_path (seg :: segs)) with ((slash :: seg) ++ uri_path segs).
  destruct segs as [|seg2 segs].
  - cbn [uri_path map List.concat]. rewrite app_nil_r.
    change (slash :: seg) with ([slash] ++ seg).
    rewrite endswith_char_app by exact Hne. apply no_separator_end. exact Hs.
  - rewrite endswith_char_app; [exact IH|]. cbn. discriminate.
Qed.

Lemma join_first (seg : str) (segs : list str) :
  clean seg ->
  exists x rest, Py.join [slash] (seg :: segs) = x :: rest /\ x <> slash.
Proof.
  intros Hc. pose proof (clean_head seg Hc) as Hhd.
  destruct Hc as (Hne & _). destruct seg as [|x seg]; [congruence|].
  exists x. destruct segs as [|seg2 segs]; cbn; eexists; split;
    try reflexivity; intros ->; apply Hhd; reflexivity.
Qed.

(** [dir_key] takes the last separator, or "/index.html", off such a
    path. *)
Lemma dir_key_of_uri_path (segs : list str) (tail : str) :
  Forall clean segs ->
  tail = [slash] \/ tail = slash :: DEFAULT_OUTPUT_FILE
  \/ (tail = [] /\ Py.endswith DEFAULT_OUTPUT_FILE (uri_path segs) = false) ->
  dir_key (uri_path segs ++ tail) = uri_path segs.
Proof.
  intros Hsegs Htail. pose proof (uri_path_end segs Hsegs) as Hend.
  unfold dir_key. destruct Htail as [->|[->|[-> Hidx]]].
  - rewrite endswith_app, rstrip_snoc. apply rstrip_id. exact Hend.
  - rewrite endswith_char_app by discriminate.
    change (Py.endswith [slash] (slash :: DEFAULT_OUTPUT_FILE)) with false.
    replace (uri_path segs ++ slash :: DEFAULT_OUTPUT_FILE)
      with ((uri_path segs ++ [slash]) ++ DEFAULT_OUTPUT_FILE)
      by (rewrite <- app_assoc; reflexivity).
    rewrite endswith_app, <- app_assoc.
    apply rsplit1_head_last. intros Hin. vm_compute in Hin.
    repeat (destruct Hin as [Hin|Hin]; [discriminate|]). exact Hin.
  - rewrite app_nil_r, Hend, Hidx. reflexivity.
Qed.

Lemma clean_parts (segs : list str) :
  Forall clean segs ->
  filter (fun x => negb (Py.eqb x []) && negb (Py.eqb x (lit "."))) segs = segs.
Proof.
  induction 1 as [|seg segs (H1 & H2 & _) _ IH]; [reflexivity|].
  cbn [filter]. apply eqb_neq in H1. apply eqb_neq in H2.
  rewrite H1, H2, IH. reflexivity.
Qed.

(** The path object of such a path prints as the path, "." when there is
    no segment. *)
Lemma to_str_of_uri_path (segs : list str) :
  Forall clean segs ->
  Pathlib.to_str (Pathlib.Path (uri_path segs))
  = match segs with [] => lit "." | _ => uri_path segs end.
Proof.
  intros Hsegs. destruct segs as [|seg segs]; [reflexivity|].
  rewrite uri_path_join.
  assert (Hc : clean seg) by (inversion Hsegs; assumption).
  destruct (join_first seg segs Hc) as (x & rest & Hj & Hx).
  unfold Pathlib.Path, Pathlib.splitroot. rewrite N.eqb_refl.
  assert (Hl : Py.lstrip slash (slash :: Py.join [slash] (seg :: segs))
               = Py.join [slash] (seg :: segs)).
  { cbn [Py.lstrip]. rewrite N.eqb_refl. apply lstrip_id. rewrite Hj. cbn.
    intros H. inversion H. contradiction. }
  rewrite Hl. cbn [List.length].
  replace (S (List.length (Py.join [slash] (seg :: segs)))
           - List.length (Py.join [slash] (seg :: segs)))%nat with 1%nat by lia.
  cbn [Nat.eqb].
  rewrite split_join.
  - rewrite clean_parts by exact Hsegs. unfold Pathlib.to_str.
    cbn [Pathlib.root Pathlib.parts app]. reflexivity.
  - discriminate.
  - eapply Forall_impl; [|exact Hsegs]. intros s (_ & _ & H). exact H.
Qed.

Section Handling.

Context {datetime : Type} {RT : Runtime datetime}.

(** The prefix queried for such a path is the segments, each followed
    by a separator. *)
Lemma listing_prefix_of_uri_path (segs : list str) :
  Forall clean segs ->
  listing_prefix (Pathlib.to_str (Pathlib.Path (uri_path segs)))
  = key_prefix segs.
Proof.
  intros Hsegs. rewrite to_str_of_uri_path by exact Hsegs.
  destruct segs as [|seg segs]; [reflexivity|].
  pose proof (uri_path_end _ Hsegs) as Hend.
  rewrite uri_path_join in *. rewrite key_prefix_join.
  assert (Hc : clean seg) by (inversion Hsegs; assumption).
  destruct (join_first seg segs Hc) as (x & rest & Hj & Hx).
  unfold listing_prefix. cbv zeta. cbn [Py.lstrip]. rewrite N.eqb_refl.
  rewrite lstrip_id
    by (rewrite Hj; cbn; intros H; inversion H; contradiction).
  assert (Hnot : existsb (Py.eqb (Py.join [slash] (seg :: segs)))
                   [[]; lit "."; [slash]] = false).
  { cbn [existsb]. rewrite !orb_false_r.
    assert (H1 : Py.join [slash] (seg :: segs) <> [])
      by (rewrite Hj; discriminate).
    assert (H2 : Py.join [slash] (seg :: segs) <> lit ".").
    { destruct segs as [|seg2 segs]; [exact (proj1 (proj2 Hc))|].
      change (Py.join [slash] (seg :: seg2 :: segs))
        with (seg ++ slash :: Py.join [slash] (seg2 :: segs)).
      destruct Hc as (Hne & _). destruct seg as [|y [|z seg]];
        [congruence| |]; cbn; discriminate. }
    assert (H3 : Py.join [slash] (seg :: segs) <> [slash])
      by (rewrite Hj; intros H; inversion H; contradiction).
    apply eqb_neq in H1. apply eqb_neq in H2. apply eqb_neq in H3.
    rewrite H1, H2, H3. reflexivity. }
  rewrite Hnot. cbn [negb]. f_equal. apply rstrip_id.
  change (slash :: Py.join [slash] (seg :: segs))
    with ([slash] ++ Py.join [slash] (seg :: segs)) in Hend.
  rewrite endswith_char_app in Hend by (rewrite Hj; discriminate).
  exact Hend.
Qed.

(** *** The store calls of the loop *)

(** The loop makes the first calls of the enumeration, in order. *)
Lemma render_loop_calls (off : Z) (events : list (gen_event datetime)) :
  forall st : render_state datetime,
  exists made rest,
    calls (fst (render_loop off events st)) = calls st ++ made
    /\ calls_of events = made ++ rest.
Proof.
  induction events as [|ev events IH]; intros st.
  - exists [], []. cbn. rewrite app_nil_r. auto.
  - destruct ev as [args raised|[e|entry]]; cbn [render_loop].
    + match goal with
      | |- context [render_loop off events ?s] =>
          destruct (IH s) as (made & rest & Hm & Hc)
      end.
      cbn [calls] in Hm. exists ((args, raised) :: made), rest.
      rewrite Hm, <- app_assoc. split; [reflexivity|].
      cbn [calls_of flat_map app]. fold (calls_of events).
      rewrite Hc. reflexivity.
    + exists [], (calls_of events). cbn [fst]. rewrite app_nil_r. auto.
    + destruct (process_entry off entry st) as [st1 t] eqn:Hpe.
      apply process_entry_emits in Hpe. destruct Hpe as (_ & Hcalls & _).
      destruct t.
      * destruct (IH st1) as (made & rest & Hm & Hc).
        exists made, rest. rewrite Hm, Hcalls. auto.
      * exists [], (calls_of events). cbn [fst]. rewrite Hcalls, app_nil_r. auto.
Qed.

(** The enumeration starts with a store call. *)
Lemma s3_pages_head (bucket prefix : str) (reply : s3_reply datetime) (n : nat) :
  exists args raised rest,
    s3_pages bucket prefix n reply = Call args raised :: rest.
Proof. destruct reply; cbn [s3_pages]; eauto. Qed.

(** The calls of [process_dir]: the first ones of the enumeration, and
    at least one. *)
Lemma process_dir_calls (s3_conn : s3_client datetime) (bucket : str)
    (path_top_dir : Pathlib.PurePath) (entry_offset : Z) :
  let made := calls (fst (process_dir s3_conn bucket path_top_dir entry_offset)) in
  let prefix := listing_prefix (Pathlib.to_str path_top_dir) in
  made <> []
  /\ map fst made
     = map (fun i => {| arg_Bucket := bucket; arg_Prefix := prefix;
                        arg_Delimiter := [slash];
                        arg_ContinuationToken := token_of i |})
           (seq 0 (List.length made))
  /\ Forall (fun c => snd c = None) (removelast made).
Proof.
  cbv zeta.
  assert (Hcalls : calls (fst (process_dir s3_conn bucket path_top_dir entry_offset))
                   = calls (fst (render_loop entry_offset
                            (s3_list_dir s3_conn bucket (Pathlib.to_str path_top_dir))
                            (initial_state path_top_dir)))).
  { unfold process_dir.
    destruct (render_loop entry_offset _ (initial_state path_top_dir))
      as [st [| |e]]; reflexivity. }
  rewrite Hcalls. clear Hcalls.
  destruct (render_loop_calls entry_offset
              (s3_list_dir s3_conn bucket (Pathlib.to_str path_top_dir))
              (initial_state path_top_dir)) as (made & rest & Hm & Hc).
  cbn [initial_state calls app] in Hm. rewrite Hm.
  assert (Hfirst : made <> []).
  { intros ->. revert Hm. rewrite s3_list_dir_pages.
    destruct (s3_pages_head bucket (listing_prefix (Pathlib.to_str path_top_dir))
                (list_objects_v2 s3_conn bucket
                   (listing_prefix (Pathlib.to_str path_top_dir)) [slash]) 0)
      as (args & raised & rest' & ->).
    cbn [render_loop].
    match goal with
    | |- context [render_loop entry_offset rest' ?s] =>
        destruct (render_loop_calls entry_offset rest' s) as (m & r & Hm' & _);
        rewrite Hm'
    end.
    cbn [calls app]. discriminate. }
  rewrite s3_list_dir_pages in Hc.
  destruct (s3_pages_calls bucket (listing_prefix (Pathlib.to_str path_top_dir))
              (list_objects_v2 s3_conn bucket
                 (listing_prefix (Pathlib.to_str path_top_dir)) [slash]) 0)
    as (_ & Hmap & Hnone).
  cbv zeta in Hmap, Hnone. rewrite Hc in Hmap, Hnone.
  split; [exact Hfirst|]. split.
  - rewrite map_app, length_app, seq_app, map_app in Hmap.
    apply (app_eq_length _ _ _ _ Hmap).
    rewrite !length_map, length_seq. reflexivity.
  - destruct rest as [|c rest].
    + rewrite app_nil_r in Hnone. exact Hnone.
    + rewrite removelast_app in Hnone by discriminate.
      apply Forall_app in Hnone. apply Forall_removelast. apply Hnone.
Qed.

(** *** The exceptions of the enumeration *)

(** The exception a chain of answers ends with. *)
Fixpoint raised_by (reply : s3_reply datetime) : option exn :=
  match reply with
  | Raised e => Some e
  | LastPage _ => None
  | TruncatedPage _ next => raised_by next
  end.

Lemma render_loop_raise (off : Z) (events : list (gen_event datetime)) (e : exn) :
  forall st : render_state datetime,
  snd (render_loop off events st) = Raise e -> In (Yield (inl e)) events.
Proof.
  induction events as [|ev events IH]; intros st; [discriminate|].
  destruct ev as [args raised|[e'|entry]]; cbn [render_loop].
  - intros H. right. exact (IH _ H).
  - cbn. intros H. inversion H. left. reflexivity.
  - destruct (process_entry off entry st) as [st1 [|]]; [|discriminate].
    intros H. right. exact (IH _ H).
Qed.

Lemma yield_common_prefixes_raise (entries : list (s3_entry datetime)) :
  Forall (fun ev => exists p, ev = Yield (inr p))
         (fst (yield_common_prefixes entries))
  /\ (snd (yield_common_prefixes entries) = None
      \/ snd (yield_common_prefixes entries) = Some KeyError).
Proof.
  induction entries as [|entry rest [IH1 IH2]]; cbn [yield_common_prefixes].
  - cbn. auto.
  - unfold S3Path_init.
    destruct (option_map (Py.lstrip slash) (Prefix entry)); [|cbn; auto].
    destruct (yield_common_prefixes rest) as [evs x]. cbn [fst snd] in *.
    split; [constructor; eauto|exact IH2].
Qed.

Lemma yield_contents_raise (prefix : str) (entries : list (s3_entry datetime)) :
  Forall (fun ev => exists p, ev = Yield (inr p))
         (fst (yield_contents prefix entries))
  /\ (snd (yield_contents prefix entries) = None
      \/ snd (yield_contents prefix entries) = Some KeyError).
Proof.
  induction entries as [|entry rest [IH1 IH2]]; cbn [yield_contents].
  - cbn. auto.
  - unfold S3Path_init.
    destruct (Key entry) as [key|]; [|cbn; auto].
    destruct (Py.eqb key prefix); [auto|].
    destruct (yield_contents prefix rest) as [evs x]. cbn [fst snd] in *.
    split; [constructor; eauto|exact IH2].
Qed.

Lemma entries_no_exception (evs : list (gen_event datetime)) (e : exn) :
  Forall (fun ev => exists p, ev = Yield (inr p)) evs ->
  ~ In (Yield (inl e)) evs.
Proof.
  intros H Hin. rewrite Forall_forall in H.
  destruct (H _ Hin) as [p Hp]. discriminate.
Qed.

Lemma page_events_raise (prefix : str) (page : s3_page datetime)
    (more : list (gen_event datetime)) (e : exn) :
  In (Yield (inl e)) (page_events prefix page more) ->
  e = KeyError \/ In (Yield (inl e)) more.
Proof.
  unfold page_events.
  destruct (yield_common_prefixes_raise (CommonPrefixes page)) as [Hd Hx].
  destruct (yield_contents_raise prefix (Contents page)) as [Hf Hy].
  destruct (yield_common_prefixes (CommonPrefixes page)) as [dirs x].
  destruct (yield_contents prefix (Contents page)) as [files y].
  cbn [fst snd] in *.
  destruct Hx as [->| ->].
  - destruct Hy as [->| ->]; intros Hin;
      apply in_app_or in Hin; destruct Hin as [Hin|Hin];
      try (exfalso; exact (entries_no_exception _ e Hd Hin));
      apply in_app_or in Hin; destruct Hin as [Hin|Hin];
      try (exfalso; exact (entries_no_exception _ e Hf Hin)).
    + right. exact Hin.
    + destruct Hin as [Hin|[]]. inversion Hin. left. reflexivity.
  - intros Hin. apply in_app_or in Hin. destruct Hin as [Hin|Hin].
    + exfalso. exact (entries_no_exception _ e Hd Hin).
    + destruct Hin as [Hin|[]]. inversion Hin. left. reflexivity.
Qed.

Lemma s3_pages_raise (bucket prefix : str) (reply : s3_reply datetime) (e : exn) :
  forall n : nat,
  In (Yield (inl e)) (s3_pages bucket prefix n reply) ->
  e = KeyError \/ raised_by reply = Some e.
Proof.
  induction reply as [e'|page|page next IH]; intros n; cbn [s3_pages raised_by].
  - intros [H|[H|[]]]; [discriminate|]. inversion H. right. reflexivity.
  - intros [H|H]; [discriminate|].
    apply page_events_raise in H. destruct H as [H|[]]. left. exact H.
  - intros [H|H]; [discriminate|].
    apply page_events_raise in H. destruct H as [H|H]; [left; exact H|].
    exact (IH _ H).
Qed.

Section Invocation.

Context {Headers Other : Type}.

(** X16: the handler calls the store only for a request that passes the
    path check and whose offset is read, and then it makes the first calls
    of the enumeration and at least one: each call is for the bucket
    art-srv-enterprise with delimiter "/" and the prefix derived from the
    decoded URI, the first without continuation token and each next one
    with the token the page before returned, and none but the last call
    made can have failed. *)
Theorem handler_calls_one_bucket_and_prefix (s3_conn : s3_client datetime)
    (request : cf_request Headers Other) :
  let made := fst (fst (lambda_handler s3_conn request)) in
  let prefix :=
    listing_prefix
      (Pathlib.to_str
         (Pathlib.Path (dir_key (unquote (get_or_empty (uri request)))))) in
  let passes :=
    match entry_offset_of (parse_qs (get_or_empty (querystring request))) with
    | inl _ => false
    | inr _ => negb (Py.contains (lit "..") (get_or_empty (uri request)))
    end in
  (if passes then made <> [] else made = [])
  /\ map fst made
     = map (fun i => {| arg_Bucket := lit "art-srv-enterprise";
                        arg_Prefix := prefix;
                        arg_Delimiter := [slash];
                        arg_ContinuationToken := token_of i |})
           (seq 0 (List.length made))
  /\ Forall (fun c => snd c = None) (removelast made).
Proof.
  cbv zeta. unfold lambda_handler.
  destruct (entry_offset_of _) as [e|entry_offset].
  { cbn. repeat split. constructor. }
  destruct (Py.contains (lit "..") (get_or_empty (uri request))).
  { cbn. repeat split. constructor. }
  pose proof (process_dir_calls s3_conn bucket_name
                (Pathlib.Path (dir_key (unquote (get_or_empty (uri request)))))
                entry_offset) as H.
  cbv zeta in H.
  destruct (process_dir s3_conn bucket_name _ entry_offset)
    as [st [e|[content k]]]; cbn [fst snd negb] in *;
    [|destruct (k =? 0)]; cbn [fst snd]; exact H.
Qed.

(** X17: the handler raises only what reading the offset raises
    (ValueError or IndexError, before any store call), the KeyError of a
    listed record without its key, or the exception a store call raised;
    in particular nothing that goes wrong while reading the metadata of an
    entry ends the invocation. *)
Theorem handler_raises_only_offset_key_or_store_errors
    (s3_conn : s3_client datetime) (request : cf_request Headers Other)
    (e : exn) :
  snd (lambda_handler s3_conn request) = Raises e ->
  ((e = ValueError \/ e = IndexError)
   /\ entry_offset_of (parse_qs (get_or_empty (querystring request))) = inl e
   /\ fst (fst (lambda_handler s3_conn request)) = [])
  \/ e = KeyError
  \/ raised_by
       (list_objects_v2 s3_conn bucket_name
          (listing_prefix
             (Pathlib.to_str
                (Pathlib.Path (dir_key (unquote (get_or_empty (uri request)))))))
          [slash]) = Some e.
Proof.
  unfold lambda_handler.
  destruct (entry_offset_of _) as [e'|entry_offset] eqn:Hoff.
  { cbn. intros H. inversion H; subst e'. left.
    split; [|split; reflexivity].
    unfold entry_offset_of in Hoff.
    destruct (dict_get _ _) as [[|v vs]|]; [| |discriminate].
    - inversion Hoff. auto.
    - destruct (int v); [discriminate|]. inversion Hoff. auto. }
  destruct (Py.contains (lit "..") (get_or_empty (uri request)));
    [discriminate|].
  unfold process_dir.
  destruct (render_loop entry_offset _ (initial_state _)) as [st exit] eqn:Hloop.
  destruct exit as [| |e'];
    try (cbn [fst snd]; destruct (_ =? 0); discriminate).
  cbn [snd]. intros H. inversion H; subst e'. right.
  assert (Hr : snd (render_loop entry_offset
                 (s3_list_dir s3_conn bucket_name
                    (Pathlib.to_str
                       (Pathlib.Path
                          (dir_key (unquote (get_or_empty (uri request)))))))
                 (initial_state
                    (Pathlib.Path
                       (dir_key (unquote (get_or_empty (uri request)))))))
               = Raise e) by (rewrite Hloop; reflexivity).
  apply render_loop_raise in Hr. rewrite s3_list_dir_pages in Hr.
  exact (s3_pages_raise _ _ _ _ _ Hr).
Qed.

(** X18: a URI made of clean segments lists the directory of those
    segments.  When the decoded URI is "/s1/.../sn" followed by "/" or by
    "/index.html", or by nothing when it does not end with index.html,
    each segment being not empty, not "." and without separator, the
    request passes the path check and its offset is read, then every call
    the handler makes, and it makes at least one, asks for the prefix
    "s1/.../sn/" (the empty prefix when there is no segment). *)
Theorem clean_uri_lists_its_directory (s3_conn : s3_client datetime)
    (request : cf_request Headers Other) (segs : list str) (tail : str)
    (entry_offset : Z) :
  Forall clean segs ->
  tail = [slash] \/ tail = slash :: DEFAULT_OUTPUT_FILE
  \/ (tail = [] /\ Py.endswith DEFAULT_OUTPUT_FILE (uri_path segs) = false) ->
  unquote (get_or_empty (uri request)) = uri_path segs ++ tail ->
  Py.contains (lit "..") (get_or_empty (uri request)) = false ->
  entry_offset_of (parse_qs (get_or_empty (querystring request)))
    = inr entry_offset ->
  let made := fst (fst (lambda_handler s3_conn request)) in
  made <> []
  /\ Forall (fun c => arg_Bucket (fst c) = lit "art-srv-enterprise"
                      /\ arg_Prefix (fst c) = key_prefix segs) made.
Proof.
  intros Hsegs Htail Huri Hpath Hoff. cbv zeta.
  unfold lambda_handler. rewrite Hoff, Hpath, Huri.
  rewrite dir_key_of_uri_path by assumption.
  pose proof (process_dir_calls s3_conn bucket_name
                (Pathlib.Path (uri_path segs)) entry_offset) as H.
  cbv zeta in H. rewrite listing_prefix_of_uri_path in H by exact Hsegs.
  assert (Hmade :
            fst (fst (match process_dir s3_conn bucket_name
                              (Pathlib.Path (uri_path segs)) entry_offset with
                      | (st, inl e) => (calls st, printed st, Raises e)
                      | (st, inr (content, k)) =>
                          if k =? 0
                          then (calls st, printed st, ReturnRequest request)
                          else (calls st, printed st,
                                ReturnResponse (listing_response content))
                      end))
            = calls (fst (process_dir s3_conn bucket_name
                            (Pathlib.Path (uri_path segs)) entry_offset))).
  { destruct (process_dir s3_conn bucket_name _ entry_offset)
      as [st [e|[content k]]]; [|destruct (k =? 0)]; reflexivity. }
  rewrite Hmade. destruct H as (Hne & Hmap & _).
  split; [exact Hne|].
  apply Forall_forall. intros c Hin.
  apply (in_map fst) in Hin. rewrite Hmap in Hin.
  apply in_map_iff in Hin. destruct Hin as (i & Hi & _).
  rewrite <- Hi. split; reflexivity.
Qed.

End Invocation.

End Handling.

(** ** The properties above on the example stores *)

Module Pages.

#[local] Existing Instance Reference.runtime.

Abbreviation timestamp := Reference.printed_datetime.

(** The directory /a of the store with two sub-directories. *)
Definition a_dir : Pathlib.PurePath := Pathlib.Path (lit "/a").

Definition a_events : list (gen_event timestamp) :=
  s3_list_dir Examples.two_dirs bucket_name (Pathlib.to_str a_dir).

Lemma a_events_no_exception : no_exception a_events = true.
Proof. reflexivity. Qed.

Lemma page_holds_entries_from_offset_to_count_witness :
  no_exception a_events = true
  /\ match snd (process_dir Examples.two_dirs bucket_name a_dir 2) with
     | inr (document, k) =>
         0 <= k <= Z.of_nat (List.length (counted (entries_of a_events)))
         /\ emitted (fst (process_dir Examples.two_dirs bucket_name a_dir 2))
            = page 2 0 (Z.to_nat k) (counted (entries_of a_events))
         /\ document =
              body_top (fst (process_dir Examples.two_dirs bucket_name a_dir 2))
              ++ rows (map snd (page 2 0 (Z.to_nat k)
                                     (counted (entries_of a_events))))
              ++ footer
     | inl _ => False
     end.
Proof.
  split; [exact a_events_no_exception|].
  exact (page_holds_entries_from_offset_to_count (RT := Reference.runtime)
           Examples.two_dirs bucket_name a_dir 2 a_events_no_exception).
Defined.


Lemma listing_request_passes :
  Py.contains (lit "..") (get_or_empty (uri Examples.listing_request)) = false.
Proof. reflexivity. Qed.

Lemma listing_request_offset :
  entry_offset_of (parse_qs (get_or_empty (querystring Examples.listing_request)))
  = inr 0.
Proof. reflexivity. Qed.

Lemma listing_request_events :
  no_exception
    (s3_list_dir Examples.two_dirs bucket_name
       (Pathlib.to_str
          (Pathlib.Path
             (dir_key (unquote (get_or_empty (uri Examples.listing_request)))))))
  = true.
Proof. reflexivity. Qed.

Lemma passthrough_iff_nothing_to_list_witness :
  Py.contains (lit "..") (get_or_empty (uri Examples.listing_request)) = false
  /\ entry_offset_of
       (parse_qs (get_or_empty (querystring Examples.listing_request)))
     = inr 0
  /\ no_exception
       (s3_list_dir Examples.two_dirs bucket_name
          (Pathlib.to_str
             (Pathlib.Path
                (dir_key (unquote (get_or_empty (uri Examples.listing_request)))))))
     = true
  /\ exists response,
       snd (lambda_handler Examples.two_dirs Examples.listing_request)
       = ReturnResponse response.
Proof.
  split; [exact listing_request_passes|].
  split; [exact listing_request_offset|].
  split; [exact listing_request_events|].
  destruct (passthrough_iff_nothing_to_list (RT := Reference.runtime)
              Examples.two_dirs Examples.listing_request 0
              listing_request_passes listing_request_offset
              listing_request_events) as [_ H].
  apply H. discriminate.
Defined.

Lemma offset_up_to_one_is_offset_zero_witness :
  -3 <= 1
  /\ process_dir Examples.two_dirs bucket_name a_dir (-3)
     = process_dir Examples.two_dirs bucket_name a_dir 0.
Proof.
  assert (H : -3 <= 1) by lia.
  split; [exact H|].
  exact (offset_up_to_one_is_offset_zero (RT := Reference.runtime)
           Examples.two_dirs bucket_name a_dir (-3) H).
Defined.



Lemma pretty_size_fails_only_beyond_float_range_witness :
  0 <= 4096 < 2 ^ 1073
  /\ (exists text, pretty_size 4096 = inr text)
  /\ 2 ^ 1074 <= 2 ^ 1080
  /\ pretty_size (2 ^ 1080) = inl OverflowError.
Proof.
  assert (H1 : 0 <= 4096 < 2 ^ 1073).
  { split; [lia|]. apply (Z.lt_le_trans _ (2 ^ 13)); [lia|].
    apply Z.pow_le_mono_r; lia. }
  assert (H2 : 2 ^ 1074 <= 2 ^ 1080) by (apply Z.pow_le_mono_r; lia).
  split; [exact H1|].
  split; [exact (proj1 (pretty_size_fails_only_beyond_float_range 4096) H1)|].
  split; [exact H2|].
  exact (proj2 (pretty_size_fails_only_beyond_float_range (2 ^ 1080)) H2).
Defined.

Lemma pretty_size_of_negative_size_witness :
  - 2 ^ 53 < -5 < 0
  /\ pretty_size (-5) = inr (lit "-5 bytes").
Proof.
  assert (H : - 2 ^ 53 < -5 < 0) by lia.
  split; [exact H|].
  exact (pretty_size_of_negative_size (-5) H).
Defined.

Lemma pretty_size_amount_below_1024_witness :
  1024 <= 5 * 1024 ^ 3 < 1024 ^ 5
  /\ exists amount suffix,
       pretty_size (5 * 1024 ^ 3) = inr (Py.of_int amount ++ suffix)
       /\ 1 <= amount <= 1023
       /\ In suffix [lit " KB"; lit " MB"; lit " GB"; lit " TB"].
Proof.
  assert (H : 1024 <= 5 * 1024 ^ 3 < 1024 ^ 5) by lia.
  split; [exact H|].
  exact (pretty_size_amount_below_1024 (5 * 1024 ^ 3) H).
Defined.

(** *** The store with two objects *)

Definition objects_reply : s3_reply timestamp :=
  list_objects_v2 Examples.objects_store bucket_name
    (listing_prefix (lit "/a")) [slash].

Lemma objects_reply_ok : reply_ok objects_reply = true.
Proof. reflexivity. Qed.

Lemma listing_of_well_formed_pages_witness :
  reply_ok objects_reply = true
  /\ no_exception (s3_list_dir Examples.objects_store bucket_name (lit "/a"))
     = true
  /\ entries_of (s3_list_dir Examples.objects_store bucket_name (lit "/a"))
     = flat_map (page_paths (listing_prefix (lit "/a")))
                (pages_of objects_reply)
  /\ calls_of (s3_list_dir Examples.objects_store bucket_name (lit "/a"))
     = map (fun i => ({| arg_Bucket := bucket_name;
                         arg_Prefix := listing_prefix (lit "/a");
                         arg_Delimiter := [slash];
                         arg_ContinuationToken := token_of i |}, None))
           (seq 0 (List.length (pages_of objects_reply))).
Proof.
  split; [exact objects_reply_ok|].
  exact (listing_of_well_formed_pages
           Examples.objects_store bucket_name (lit "/a") objects_reply_ok).
Defined.

Definition notes : s3_entry timestamp :=
  Examples.object (lit "a/notes.txt") 10
    (lit "2021-06-23T23:29:59+00:00") (lit "Wed Jun 23 23:29:59 2021").

Lemma notes_clean : clean (lit "notes.txt").
Proof.
  split; [discriminate|]. split; [discriminate|].
  intros Hin. vm_compute in Hin.
  repeat (destruct Hin as [Hin|Hin]; [discriminate|]). exact Hin.
Qed.

Lemma entry_name_is_last_segment_witness :
  clean (lit "notes.txt")
  /\ Key notes = Some (lit "a/notes.txt")
  /\ exists p, S3Path_init false notes = inr p
               /\ name p = lit "notes.txt"
               /\ absolute p = lit "a/notes.txt"
               /\ is_file p = true.
Proof.
  split; [exact notes_clean|]. split; [reflexivity|].
  exact (proj1 (entry_name_is_last_segment
                  notes (lit "a") (lit "notes.txt") (lit "a/notes.txt")
                  notes_clean (or_intror eq_refl))
               eq_refl).
Defined.

Lemma object_row_needs_only_timestamp_witness :
  is_file Examples.bad_path = true
  /\ 0 <= size Examples.bad_path < 2 ^ 1073
  /\ last_modified Examples.bad_path = None
  /\ readable Examples.bad_path = false.
Proof.
  assert (Hs : 0 <= size Examples.bad_path < 2 ^ 1073).
  { split; [cbn; lia|]. apply Z.pow_pos_nonneg; lia. }
  split; [reflexivity|]. split; [exact Hs|]. split; [reflexivity|].
  destruct (readable Examples.bad_path) eqn:Hr; [|reflexivity].
  destruct (proj1 (proj2 (object_row_needs_only_timestamp
                            (RT := Reference.runtime) Examples.bad_path)
                         eq_refl Hs) Hr eq_refl).
Defined.

Lemma rows_use_folder_or_file_icon_witness :
  is_dir Examples.x_path = true
  /\ fst (fst (classify Examples.x_path)) = lit "x/".
Proof.
  split; [reflexivity|].
  exact (proj2 (rows_use_folder_or_file_icon Examples.x_path)
               eq_refl ltac:(discriminate) eq_refl).
Defined.

(** *** Invocations *)

Lemma failing_store_raises :
  snd (lambda_handler Examples.failing_store Examples.listing_request)
  = Raises Examples.denied.
Proof. reflexivity. Qed.

Lemma handler_raises_only_offset_key_or_store_errors_witness :
  snd (lambda_handler Examples.failing_store Examples.listing_request)
    = Raises Examples.denied
  /\ raised_by
       (list_objects_v2 Examples.failing_store bucket_name (lit "a/") [slash])
     = Some Examples.denied.
Proof.
  split; [exact failing_store_raises|].
  destruct (handler_raises_only_offset_key_or_store_errors
              (RT := Reference.runtime)
              Examples.failing_store Examples.listing_request Examples.denied
              failing_store_raises) as [(_ & H & _)|[H|H]].
  - discriminate H.
  - discriminate H.
  - exact H.
Defined.

Lemma a_clean : Forall clean [lit "a"].
Proof.
  constructor; [|constructor].
  split; [discriminate|]. split; [discriminate|].
  intros [H|[]]. discriminate.
Qed.

Lemma clean_uri_lists_its_directory_witness :
  Forall clean [lit "a"]
  /\ unquote (get_or_empty (uri Examples.listing_request))
     = uri_path [lit "a"] ++ [slash]
  /\ Py.contains (lit "..") (get_or_empty (uri Examples.listing_request)) = false
  /\ entry_offset_of
       (parse_qs (get_or_empty (querystring Examples.listing_request)))
     = inr 0
  /\ fst (fst (lambda_handler Examples.two_dirs Examples.listing_request)) <> []
  /\ Forall (fun c => arg_Bucket (fst c) = lit "art-srv-enterprise"
                      /\ arg_Prefix (fst c) = lit "a/")
            (fst (fst (lambda_handler Examples.two_dirs Examples.listing_request))).
Proof.
  split; [exact a_clean|]. split; [reflexivity|].
  split; [exact listing_request_passes|].
  split; [exact listing_request_offset|].
  exact (clean_uri_lists_its_directory (RT := Reference.runtime)
           Examples.two_dirs Examples.listing_request [lit "a"] [slash] 0
           a_clean (or_introl eq_refl) eq_refl
           listing_request_passes listing_request_offset).
Defined.

End Pages.
